(** * Uniswap V3 position analysis: event normalisation and creator ranking

    A shallow embedding of the Python sources
      - [process_positions.py]   (decimal resolver, amount normaliser,
                                  tick-to-price converter, position snapshots,
                                  token addresses of a batch)
      - [process_mint_burn.py]   (mint events, token addresses of a batch)
      - [process_burn.py]        (burn events, burn patterns)
      - [analyze_position_creators.py] (creation events, aggregator, ranker,
                                  summary)
    together with the properties their specification states about them
    and further properties of the code.

    Layout: first the fragment of the Python runtime the sources rely on
    (exceptions, [int()] on strings, binary64 arithmetic), then the
    embedded functions file by file, then the theorems. *)

From Stdlib Require Import ZArith Lia List String Ascii Bool SpecFloat Sorted.
From Stdlib Require OrdersEx.
From stdpp Require Import base option list gmap strings.

(* ================================================================== *)
(** * Part I. The Python runtime fragment                              *)
(* ================================================================== *)

(** ** Exceptions and results

    Only the exception classes that the sources can raise or name in an
    [except] clause are listed. A computation either returns a value or
    raises; [try ... except] is a [match] on the result. *)

Inductive exn : Set :=
| ValueError
| TypeError
| OverflowError
| ZeroDivisionError.

Inductive PyResult (A : Type) : Type :=
| Ret (a : A)
| Raise (e : exn).

Arguments Ret {A} a.
Arguments Raise {A} e.

#[global] Instance PyResult_ret : MRet PyResult := fun A a => Ret a.

#[global] Instance PyResult_bind : MBind PyResult := fun A B f m =>
  match m with
  | Ret a => f a
  | Raise e => Raise e
  end.

(** ** Truthiness of the values the sources test with [if x:] / [not x] *)

(** A string is truthy when it is not empty; [None] is falsy. *)
Definition truthy_str (s : string) : bool :=
  match s with
  | EmptyString => false
  | String _ _ => true
  end.

Definition truthy (o : option string) : bool :=
  match o with
  | Some s => truthy_str s
  | None => false
  end.

(** ** [int(s)] on strings

    Strings are sequences of ASCII characters, as the big integers of the
    API's JSON are. On such a string [int] strips the surrounding white
    space (tab, line feed, vertical tab, form feed, carriage return and
    space), accepts one optional sign, then decimal digits in which single
    underscores may separate digits, and raises [ValueError] when the
    literal has more digits than the interpreter's limit
    ([sys.int_info.default_max_str_digits], 4300; the sources do not change
    it). Signs and underscores do not count as digits. *)

Definition ord (c : ascii) : Z := Z.of_N (N_of_ascii c).

Definition is_space (c : ascii) : bool :=
  let n := ord c in
  ((9 <=? n) && (n <=? 13) || (n =? 32))%Z.

Definition digit_of (c : ascii) : option Z :=
  let n := ord c in
  if ((48 <=? n) && (n <=? 57))%Z then Some (n - 48)%Z else None.

Definition is_underscore (c : ascii) : bool := (ord c =? 95)%Z.

(** [int_digits acc l]: the characters after a digit, [acc] being the value
    read so far. An underscore must be followed by a digit. *)
Fixpoint int_digits (acc : Z) (l : list ascii) : option Z :=
  match l with
  | [] => Some acc
  | c :: l' =>
      match digit_of c with
      | Some d => int_digits (10 * acc + d)%Z l'
      | None =>
          if is_underscore c then
            match l' with
            | c' :: l'' =>
                match digit_of c' with
                | Some d => int_digits (10 * acc + d)%Z l''
                | None => None
                end
            | [] => None
            end
          else None
      end
  end.

Definition int_unsigned (l : list ascii) : option Z :=
  match l with
  | c :: l' =>
      match digit_of c with
      | Some d => int_digits d l'
      | None => None
      end
  | [] => None
  end.

Fixpoint lstrip (l : list ascii) : list ascii :=
  match l with
  | c :: l' => if is_space c then lstrip l' else l
  | [] => []
  end.

Definition strip (l : list ascii) : list ascii :=
  rev (lstrip (rev (lstrip l))).

Definition is_digit (c : ascii) : bool :=
  match digit_of c with
  | Some _ => true
  | None => false
  end.

(** The limit on the number of digits of a literal. *)
Definition int_max_str_digits : Z := 4300.

Definition count_digits (l : list ascii) : Z :=
  Z.of_nat (length (List.filter is_digit l)).

Definition int_of_chars (l : list ascii) : option Z :=
  let literal := strip l in
  if (int_max_str_digits <? count_digits literal)%Z then None
  else
    match literal with
    | c :: l' =>
        if (ord c =? 45)%Z then Z.opp <$> int_unsigned l'
        else if (ord c =? 43)%Z then int_unsigned l'
        else int_unsigned (c :: l')
    | [] => None
    end.

(** [int(s)] for a string [s]: [ValueError] when [s] is not an integer
    literal. *)
Definition int_of_str (s : string) : PyResult Z :=
  match int_of_chars (list_ascii_of_string s) with
  | Some z => Ret z
  | None => Raise ValueError
  end.

(** [int(x)] where [x] is a string or [None]: [int(None)] is a
    [TypeError]. *)
Definition py_int (x : option string) : PyResult Z :=
  match x with
  | Some s => int_of_str s
  | None => Raise TypeError
  end.

(** The strings that are "the base-10 representation of a non-negative
    integer": one or more decimal digits. [digits_value] is the integer
    such a string denotes. *)
Definition digit_string (s : string) : bool :=
  match list_ascii_of_string s with
  | [] => false
  | l => forallb is_digit l
  end.

Definition digits_value (s : string) : Z :=
  fold_left (fun acc c => (10 * acc + (ord c - 48))%Z) (list_ascii_of_string s) 0%Z.

(** ** Floats: IEEE-754 binary64, after the Standard Library's [SpecFloat] *)

Abbreviation float := spec_float.

Definition prec : Z := 53.
Definition emax : Z := 1024.

Definition float_zero : float := S754_zero false.
Definition float_one : float := S754_finite false 4503599627370496 (-52).

(** An integer as an exact (unrounded) dyadic number; [z] is not zero. *)
Definition Zfloat (z : Z) : float :=
  S754_finite (z <? 0)%Z (Z.to_pos (Z.abs z)) 0.

Definition is_inf (f : float) : bool :=
  match f with
  | S754_infinity _ => true
  | _ => false
  end.

Definition is_zero (f : float) : bool :=
  match f with
  | S754_zero _ => true
  | _ => false
  end.

(** [float(n)] for an integer [n] (also the implicit conversion of an
    integer operand in mixed arithmetic): round to nearest, ties to even;
    [OverflowError] when the rounded value does not fit. *)
Definition float_of_Z (n : Z) : PyResult float :=
  let f := binary_normalize prec emax n 0 false in
  if is_inf f then Raise OverflowError else Ret f.

(** [a / b] on two integers: the exact quotient, rounded once. *)
Definition int_truediv (a b : Z) : PyResult float :=
  if (b =? 0)%Z then Raise ZeroDivisionError
  else if (a =? 0)%Z then Ret (S754_zero (b <? 0)%Z)
  else
    let f := SFdiv prec emax (Zfloat a) (Zfloat b) in
    if is_inf f then Raise OverflowError else Ret f.

(** [x / y] on two floats: only a zero divisor raises. *)
Definition float_truediv (x y : float) : PyResult float :=
  if is_zero y then Raise ZeroDivisionError else Ret (SFdiv prec emax x y).

(** [x * y] on two floats never raises; an overflow yields an infinity. *)
Definition float_mul (x y : float) : float := SFmul prec emax x y.

(** [x + y] on two floats never raises. *)
Definition float_add (x y : float) : float := SFadd prec emax x y.

(** [x < y] on two floats; false as soon as one operand is a NaN. *)
Definition float_ltb (x y : float) : bool := SFltb x y.

(** [x >= y] on two floats; false as soon as one operand is a NaN. *)
Definition float_geb (x y : float) : bool := SFleb y x.

Definition is_nan (f : float) : bool :=
  match f with
  | S754_nan => true
  | _ => false
  end.

Definition is_finite_float (f : float) : bool :=
  match f with
  | S754_zero _ | S754_finite _ _ _ => true
  | _ => false
  end.

(** A Python number as the sources meet them: the result of [10 ** k] is an
    [int] for [k >= 0] and a [float] for [k < 0]. *)
Inductive py_num : Type :=
| PyInt (z : Z)
| PyFloat (f : float).

(** ** The platform's [pow]

    [float.__pow__] hands the general case to the C library, whose result
    is a double together with the value it leaves in [errno]. The library
    is a parameter of the development. *)

Inductive errno_t : Set := E0 | ERANGE | EDOM.

Record libm : Type := {
  libm_pow : float -> float -> float * errno_t;
  libm_pow_double : forall x y, valid_binary prec emax (fst (libm_pow x y)) = true
}.

(** The adjustment of [errno] after the call: an infinite result counts
    as a range error; a range error with a zero result is an underflow
    and is forgiven. *)
Definition adjust_erange (ix : float) (en : errno_t) : errno_t :=
  match en with
  | E0 => if is_inf ix then ERANGE else E0
  | ERANGE => if is_zero ix then E0 else ERANGE
  | EDOM => EDOM
  end.

(** [float.__pow__(iv, iw)] for a finite positive base other than [1.0] and
    a finite exponent: the two bases of the sources are the literals
    [1.0001] and [10]. A zero exponent is answered without the C library;
    an [errno] left after the adjustment becomes [OverflowError] for
    [ERANGE] and [ValueError] otherwise. *)
Definition float_pow (lm : libm) (iv iw : float) : PyResult float :=
  if is_zero iw then Ret float_one
  else
    let '(ix, en) := libm_pow lm iv iw in
    match adjust_erange ix en with
    | E0 => Ret ix
    | ERANGE => Raise OverflowError
    | EDOM => Raise ValueError
    end.

(** [x ** n] for a float [x] and an integer [n]: [n] is converted first. *)
Definition float_pow_int (lm : libm) (x : float) (n : Z) : PyResult float :=
  fn ← float_of_Z n; float_pow lm x fn.

(** [b ** e] on two integers, for a base [b > 1] (the sources only write
    [10 ** e]): an integer for [e >= 0], otherwise both operands are
    converted and the float power is taken. *)
Definition int_pow (lm : libm) (b e : Z) : PyResult py_num :=
  if (0 <=? e)%Z then Ret (PyInt (b ^ e))
  else
    fb ← float_of_Z b;
    fe ← float_of_Z e;
    r ← float_pow lm fb fe;
    Ret (PyFloat r).

(** [x * v] for a float [x]: an integer [v] is converted first. *)
Definition float_mul_num (x : float) (v : py_num) : PyResult float :=
  match v with
  | PyInt z => fz ← float_of_Z z; Ret (float_mul x fz)
  | PyFloat f => Ret (float_mul x f)
  end.

(** [a / v] for an integer [a]. *)
Definition int_truediv_num (a : Z) (v : py_num) : PyResult float :=
  match v with
  | PyInt b => int_truediv a b
  | PyFloat fb => fa ← float_of_Z a; float_truediv fa fb
  end.

(** The value a float is compared with under [==]: Python compares a float
    with an integer exactly, and two floats as IEEE numbers. *)
Definition float_eqb_Z (f : float) (z : Z) : bool :=
  match f with
  | S754_zero _ => (z =? 0)%Z
  | S754_finite s m e =>
      let v := cond_Zopp s (Zpos m) in
      if (0 <=? e)%Z then (z =? v * 2 ^ e)%Z else (z * 2 ^ (- e) =? v)%Z
  | _ => false
  end.

Definition py_eqb (f : float) (v : py_num) : bool :=
  match v with
  | PyInt z => float_eqb_Z f z
  | PyFloat g => SFeqb f g
  end.

(** The literal [1.0001] as a double. *)
Definition f_1_0001 : float := S754_finite false 4504049987333233 (-52).

(** ** A reference C library

    [pow] with an integral exponent, computed exactly and rounded once;
    range errors are reported as glibc does. It serves to run the
    embedded functions on concrete inputs. *)

Definition float_to_Z (f : float) : option Z :=
  match f with
  | S754_zero _ => Some 0%Z
  | S754_finite s m e =>
      if (0 <=? e)%Z then Some (cond_Zopp s (Zpos m * 2 ^ e))
      else if (Zpos m mod 2 ^ (- e) =? 0)%Z
           then Some (cond_Zopp s (Zpos m / 2 ^ (- e)))
           else None
  | _ => None
  end.

Definition pow_rounded (x : float) (n : Z) : float :=
  match x with
  | S754_finite s m e =>
      let sn := s && Z.odd n in
      if (0 <=? n)%Z
      then binary_normalize prec emax (cond_Zopp sn (Zpos m ^ n)) (e * n) false
      else SFdiv prec emax (S754_finite false 1 0)
             (S754_finite sn (Z.to_pos (Zpos m ^ (- n))) (e * (- n)))
  | _ => S754_nan
  end.

Definition as_double (f : float) : float :=
  if valid_binary prec emax f then f else S754_nan.

Definition ref_pow (x y : float) : float * errno_t :=
  match float_to_Z y with
  | Some n =>
      let r := as_double (pow_rounded x n) in
      (r, if is_inf r || is_zero r then ERANGE else E0)
  | None => (S754_nan, EDOM)
  end.

Definition ref_libm : libm.
Proof.
  refine {| libm_pow := ref_pow |}.
  intros x y. unfold ref_pow, as_double.
  destruct (float_to_Z y) as [n|]; [|reflexivity]. simpl fst.
  destruct (valid_binary prec emax (pow_rounded x n)) eqn:E; [exact E | reflexivity].
Defined.

(* ================================================================== *)
(** * Part II. The embedded sources                                    *)
(* ================================================================== *)

(** ** [convert_amount] and [calculate_price_from_tick]

    Both functions occur, with the same text, in [process_positions.py]
    and in [process_mint_burn.py]. *)

Section Numeric.

Variable lm : libm.

(** <<
    try:
        amount_int = int(raw_amount)
        return amount_int / (10 ** decimals)
    except (ValueError, TypeError):
        return 0.0
    >> *)
Definition convert_amount (raw_amount : option string) (decimals : Z)
  : PyResult float :=
  let body :=
    amount_int ← py_int raw_amount;
    p ← int_pow lm 10 decimals;
    int_truediv_num amount_int p in
  match body with
  | Raise ValueError | Raise TypeError => Ret float_zero
  | r => r
  end.

(** The [try] block of [calculate_price_from_tick]. *)
Definition price_body (tick token0_decimals token1_decimals : Z)
  : PyResult float :=
  price_unadjusted ← float_pow_int lm f_1_0001 tick;
  decimal_adjustment ← int_pow lm 10 (token0_decimals - token1_decimals);
  final_price ← float_mul_num price_unadjusted decimal_adjustment;
  Ret final_price.

(** <<
    try: ... return final_price
    except (ValueError, TypeError, OverflowError):
        return 0.0
    >> *)
Definition calculate_price_from_tick (tick token0_decimals token1_decimals : Z)
  : PyResult float :=
  match price_body tick token0_decimals token1_decimals with
  | Raise ValueError | Raise TypeError | Raise OverflowError => Ret float_zero
  | r => r
  end.

End Numeric.

(** ** The decoded-call records

    The sources read JSON objects through [dict.get]. A field of type
    [option _] is [None] when the key is missing. A tagged value carries
    the key [address] or the key [bigInteger] (the other variants of the
    union are never read); ['address' in value] is [address value <> None].
    Scalars that are only passed through are kept as strings. *)

Record TaggedValue : Type := {
  address : option string;
  bigInteger : option string
}.

(** An entry of [Arguments] or of [Returns]. *)
Record Arg : Type := {
  Index : option Z;
  Name : option string;
  Value : TaggedValue
}.

(** [ValueInUSD] reaches the sources as a JSON string or a JSON number. *)
Inductive usd_json : Type :=
| UsdStr (s : string)
| UsdNum (f : float).

Record TransactionInfo : Type := {
  Tx_Hash : option string;
  Tx_From : option string;
  Tx_To : option string;
  Tx_ValueInUSD : option usd_json;
  Tx_Time : option string
}.

Record BlockInfo : Type := {
  Block_Number : option string;
  Block_Time : option string
}.

Record Call : Type := {
  Arguments : list Arg;
  Returns : list Arg;
  Signature_Name : option string;
  Transaction : TransactionInfo;
  Block : BlockInfo
}.

(** [key in d] for an optional field. *)
Definition has_key {A} (o : option A) : bool :=
  match o with
  | Some _ => true
  | None => false
  end.

(** [arg.get('Name', '') == lit] and [arg.get('Name') == lit] agree for a
    literal [lit] that is not empty. *)
Definition name_is (a : Arg) (lit : string) : bool :=
  match Name a with
  | Some n => String.eqb n lit
  | None => false
  end.

(** [arg.get('Index', -1) == i]. *)
Definition index_is (a : Arg) (i : Z) : bool :=
  (default (-1) (Index a) =? i)%Z.

(** ** [process_positions.py]: the decimal resolver *)

(** The [Currency] object of one transfer; a transfer without [Transfer] or
    without [Currency] reads as the record of four [None]. *)
Record Currency : Type := {
  SmartContract : option string;
  Decimals : option Z;
  Symbol : option string;
  Currency_Name : option string
}.

(** A value of the lookup: the three keys are always written. *)
Record TokenInfo : Type := {
  decimals : Z;
  symbol : option string;
  name : option string
}.

(** One turn of the loop: [if address and decimals is not None:
    lookup[address] = {...}]. *)
Definition lookup_step (lookup : gmap string TokenInfo) (currency : Currency)
  : gmap string TokenInfo :=
  match SmartContract currency, Decimals currency with
  | Some addr, Some d =>
      if truthy_str addr
      then <[addr := {| decimals := d; symbol := Symbol currency;
                        name := Currency_Name currency |}]> lookup
      else lookup
  | _, _ => lookup
  end.

Definition create_token_decimals_lookup (transfers : list Currency)
  : gmap string TokenInfo :=
  fold_left lookup_step transfers ∅.

(** [token_decimals.get(token_address, {})], the address possibly [None]. *)
Definition token_info (token_decimals : gmap string TokenInfo)
    (token_address : option string) : option TokenInfo :=
  match token_address with
  | Some a => token_decimals !! a
  | None => None
  end.

(** [info.get('symbol', 'Unknown')]: the default applies when the key is
    missing, that is when [info] is the empty dictionary. *)
Definition info_symbol (info : option TokenInfo) : option string :=
  match info with
  | Some i => symbol i
  | None => Some "Unknown"%string
  end.

(** [info.get('decimals', 18)]. *)
Definition info_decimals (info : option TokenInfo) : Z :=
  match info with
  | Some i => decimals i
  | None => 18%Z
  end.

(** ** [process_positions.py]: position snapshots *)

Record TokenDesc : Type := {
  td_address : option string;
  td_symbol : option string;
  td_decimals : Z
}.

Record PositionData : Type := {
  pos_tokenId : option string;
  pos_token0 : TokenDesc;
  pos_token1 : TokenDesc;
  pos_liquidity : option string;
  pos_fee : option string;
  pos_ticks : option Z * option Z;
  pos_price_band : option float * option float;
  pos_block : option string;
  pos_timestamp : option string
}.

(** The six variables the [Returns] loop assigns. *)
Record PosFields : Type := {
  token0_address : option string;
  token1_address : option string;
  liquidity : option string;
  fee : option string;
  tick_lower : option Z;
  tick_upper : option Z
}.

Definition PosFields_init : PosFields :=
  {| token0_address := None; token1_address := None; liquidity := None;
     fee := None; tick_lower := None; tick_upper := None |}.

(** A [for] loop whose body may raise. *)
Fixpoint for_each {A S : Type} (body : S -> A -> PyResult S) (st : S) (l : list A)
  : PyResult S :=
  match l with
  | [] => Ret st
  | a :: l' => st' ← body st a; for_each body st' l'
  end.

(** <<
    for arg in arguments:
        if arg.get('Name') == 'tokenId':
            token_id = arg.get('Value', {}).get('bigInteger')
            break
    >> *)
Fixpoint find_token_id (arguments : list Arg) : option string :=
  match arguments with
  | [] => None
  | arg :: rest =>
      if name_is arg "tokenId" then bigInteger (Value arg)
      else find_token_id rest
  end.

Definition set_token0_address (v : option string) (st : PosFields) : PosFields :=
  {| token0_address := v; token1_address := token1_address st;
     liquidity := liquidity st; fee := fee st;
     tick_lower := tick_lower st; tick_upper := tick_upper st |}.

Definition set_token1_address (v : option string) (st : PosFields) : PosFields :=
  {| token0_address := token0_address st; token1_address := v;
     liquidity := liquidity st; fee := fee st;
     tick_lower := tick_lower st; tick_upper := tick_upper st |}.

Definition set_liquidity (v : option string) (st : PosFields) : PosFields :=
  {| token0_address := token0_address st; token1_address := token1_address st;
     liquidity := v; fee := fee st;
     tick_lower := tick_lower st; tick_upper := tick_upper st |}.

Definition set_fee (v : option string) (st : PosFields) : PosFields :=
  {| token0_address := token0_address st; token1_address := token1_address st;
     liquidity := liquidity st; fee := v;
     tick_lower := tick_lower st; tick_upper := tick_upper st |}.

Definition set_tick_lower (v : Z) (st : PosFields) : PosFields :=
  {| token0_address := token0_address st; token1_address := token1_address st;
     liquidity := liquidity st; fee := fee st;
     tick_lower := Some v; tick_upper := tick_upper st |}.

Definition set_tick_upper (v : Z) (st : PosFields) : PosFields :=
  {| token0_address := token0_address st; token1_address := token1_address st;
     liquidity := liquidity st; fee := fee st;
     tick_lower := tick_lower st; tick_upper := Some v |}.

(** The [if]/[elif] chain on one entry of [Returns]; the two tick branches
    call [int] outside any [try]. *)
Definition returns_step (st : PosFields) (return_item : Arg) : PyResult PosFields :=
  let value := Value return_item in
  if name_is return_item "token0" && has_key (address value) then
    Ret (set_token0_address (address value) st)
  else if name_is return_item "token1" && has_key (address value) then
    Ret (set_token1_address (address value) st)
  else if name_is return_item "liquidity" && has_key (bigInteger value) then
    Ret (set_liquidity (bigInteger value) st)
  else if name_is return_item "fee" && has_key (bigInteger value) then
    Ret (set_fee (bigInteger value) st)
  else if name_is return_item "tickLower" && has_key (bigInteger value) then
    t ← py_int (bigInteger value); Ret (set_tick_lower t st)
  else if name_is return_item "tickUpper" && has_key (bigInteger value) then
    t ← py_int (bigInteger value); Ret (set_tick_upper t st)
  else Ret st.

Section Positions.

Variable lm : libm.

(** The price band: computed only when both ticks are present. *)
Definition price_band_of (tl tu : option Z) (token0_decimals token1_decimals : Z)
  : PyResult (option float * option float) :=
  match tl, tu with
  | Some l, Some u =>
      price_lower ← calculate_price_from_tick lm l token0_decimals token1_decimals;
      price_upper ← calculate_price_from_tick lm u token0_decimals token1_decimals;
      Ret (Some price_lower, Some price_upper)
  | _, _ => Ret (None, None)
  end.

(** The body of the loop over [calls] (the progress messages aside). *)
Definition position_of_call (token_decimals : gmap string TokenInfo) (call : Call)
  : PyResult PositionData :=
  let token_id := find_token_id (Arguments call) in
  st ← for_each returns_step PosFields_init (Returns call);
  let token0_info := token_info token_decimals (token0_address st) in
  let token1_info := token_info token_decimals (token1_address st) in
  let token0_symbol := info_symbol token0_info in
  let token1_symbol := info_symbol token1_info in
  let token0_decimals := info_decimals token0_info in
  let token1_decimals := info_decimals token1_info in
  band ← price_band_of (tick_lower st) (tick_upper st) token0_decimals token1_decimals;
  Ret {| pos_tokenId := token_id;
         pos_token0 := {| td_address := token0_address st;
                          td_symbol := token0_symbol;
                          td_decimals := token0_decimals |};
         pos_token1 := {| td_address := token1_address st;
                          td_symbol := token1_symbol;
                          td_decimals := token1_decimals |};
         pos_liquidity := liquidity st;
         pos_fee := fee st;
         pos_ticks := (tick_lower st, tick_upper st);
         pos_price_band := band;
         pos_block := Block_Number (Block call);
         pos_timestamp := Block_Time (Block call) |}.

(** <<
    processed_positions = []
    for i, call in enumerate(calls):
        ...
        processed_positions.append(position_data)
    >> *)
Fixpoint process_position_calls (token_decimals : gmap string TokenInfo)
    (calls : list Call) : PyResult (list PositionData) :=
  match calls with
  | [] => Ret []
  | call :: rest =>
      position_data ← position_of_call token_decimals call;
      processed ← process_position_calls token_decimals rest;
      Ret (position_data :: processed)
  end.

(** [process_positions_with_decimals], the two client answers being given:
    [all_positions] is the concatenation of the fetched calls, and
    [decimals_response] the transfers returned for their tokens. The
    function returns [None] when there is nothing to process or when the
    lookup is empty. *)
Definition process_positions_with_decimals (all_positions : list Call)
    (decimals_response : list Currency) : PyResult (option (list PositionData)) :=
  match all_positions with
  | [] => Ret None
  | _ =>
      let token_decimals := create_token_decimals_lookup decimals_response in
      if decide (token_decimals = ∅) then Ret None
      else
        processed_positions ← process_position_calls token_decimals all_positions;
        Ret (Some processed_positions)
  end.

End Positions.

(** ** [process_mint_burn.py]: mint events *)

(** The dictionary [params]: a key is present when its field is [Some _]. *)
Record MintParams : Type := {
  p_token0 : option string;
  p_token1 : option string;
  p_fee : option string;
  p_tickLower : option Z;
  p_tickUpper : option Z;
  p_amount0Desired : option string;
  p_amount0Min : option string;
  p_amount1Desired : option string;
  p_amount1Min : option string;
  p_recipient : option string;
  p_deadline : option string
}.

Definition MintParams_empty : MintParams :=
  {| p_token0 := None; p_token1 := None; p_fee := None;
     p_tickLower := None; p_tickUpper := None;
     p_amount0Desired := None; p_amount0Min := None;
     p_amount1Desired := None; p_amount1Min := None;
     p_recipient := None; p_deadline := None |}.

(** The [if]/[elif] chain of [parse_mint_burn_arguments] on one argument:
    the index selects the key, the tagged value must carry the expected
    variant; indices 3 and 4 go through [int]. *)
Definition mint_arg_step (params : MintParams) (arg : Arg) : PyResult MintParams :=
  let value := Value arg in
  let '(Build_MintParams t0 t1 fe tl tu a0d a0m a1d a1m rc dl) := params in
  if index_is arg 0 && has_key (address value) then
    Ret (Build_MintParams (address value) t1 fe tl tu a0d a0m a1d a1m rc dl)
  else if index_is arg 1 && has_key (address value) then
    Ret (Build_MintParams t0 (address value) fe tl tu a0d a0m a1d a1m rc dl)
  else if index_is arg 2 && has_key (bigInteger value) then
    Ret (Build_MintParams t0 t1 (bigInteger value) tl tu a0d a0m a1d a1m rc dl)
  else if index_is arg 3 && has_key (bigInteger value) then
    t ← py_int (bigInteger value);
    Ret (Build_MintParams t0 t1 fe (Some t) tu a0d a0m a1d a1m rc dl)
  else if index_is arg 4 && has_key (bigInteger value) then
    t ← py_int (bigInteger value);
    Ret (Build_MintParams t0 t1 fe tl (Some t) a0d a0m a1d a1m rc dl)
  else if index_is arg 5 && has_key (bigInteger value) then
    Ret (Build_MintParams t0 t1 fe tl tu (bigInteger value) a0m a1d a1m rc dl)
  else if index_is arg 6 && has_key (bigInteger value) then
    Ret (Build_MintParams t0 t1 fe tl tu a0d (bigInteger value) a1d a1m rc dl)
  else if index_is arg 7 && has_key (bigInteger value) then
    Ret (Build_MintParams t0 t1 fe tl tu a0d a0m (bigInteger value) a1m rc dl)
  else if index_is arg 8 && has_key (bigInteger value) then
    Ret (Build_MintParams t0 t1 fe tl tu a0d a0m a1d (bigInteger value) rc dl)
  else if index_is arg 9 && has_key (address value) then
    Ret (Build_MintParams t0 t1 fe tl tu a0d a0m a1d a1m (address value) dl)
  else if index_is arg 10 && has_key (bigInteger value) then
    Ret (Build_MintParams t0 t1 fe tl tu a0d a0m a1d a1m rc (bigInteger value))
  else Ret params.

Definition parse_mint_burn_arguments (arguments : list Arg) : PyResult MintParams :=
  for_each mint_arg_step MintParams_empty arguments.

Record Amounts : Type := {
  amount0_desired : float;
  amount1_desired : float;
  amount0_min : float;
  amount1_min : float
}.

Record MintEvent : Type := {
  mint_event_type : string;
  mint_token0 : TokenDesc;
  mint_token1 : TokenDesc;
  mint_amounts : Amounts;
  mint_fee : option string;
  mint_ticks : option Z * option Z;
  mint_price_band : option float * option float;
  mint_recipient : option string;
  mint_deadline : option string;
  mint_transaction : TransactionInfo;
  mint_block : BlockInfo
}.

(** [params.get(key, '0')]. *)
Definition amount_or_zero (o : option string) : option string :=
  Some (default "0"%string o).

Section Mint.

Variable lm : libm.

(** The body of the loop over [calls]: [None] stands for [continue]. *)
Definition mint_event_of_call (token_decimals : gmap string TokenInfo) (call : Call)
  : PyResult (option MintEvent) :=
  let event_type := default "mint"%string (Signature_Name call) in
  params ← parse_mint_burn_arguments (Arguments call);
  let token0_address := p_token0 params in
  let token1_address := p_token1 params in
  if negb (truthy token0_address) || negb (truthy token1_address) then Ret None
  else
    let token0_info := token_info token_decimals token0_address in
    let token1_info := token_info token_decimals token1_address in
    let token0_symbol := info_symbol token0_info in
    let token1_symbol := info_symbol token1_info in
    let token0_decimals := info_decimals token0_info in
    let token1_decimals := info_decimals token1_info in
    a0d ← convert_amount lm (amount_or_zero (p_amount0Desired params)) token0_decimals;
    a1d ← convert_amount lm (amount_or_zero (p_amount1Desired params)) token1_decimals;
    band ← price_band_of lm (p_tickLower params) (p_tickUpper params)
             token0_decimals token1_decimals;
    a0m ← convert_amount lm (amount_or_zero (p_amount0Min params)) token0_decimals;
    a1m ← convert_amount lm (amount_or_zero (p_amount1Min params)) token1_decimals;
    Ret (Some
      {| mint_event_type := event_type;
         mint_token0 := {| td_address := token0_address;
                           td_symbol := token0_symbol;
                           td_decimals := token0_decimals |};
         mint_token1 := {| td_address := token1_address;
                           td_symbol := token1_symbol;
                           td_decimals := token1_decimals |};
         mint_amounts := {| amount0_desired := a0d; amount1_desired := a1d;
                            amount0_min := a0m; amount1_min := a1m |};
         mint_fee := p_fee params;
         mint_ticks := (p_tickLower params, p_tickUpper params);
         mint_price_band := band;
         mint_recipient := p_recipient params;
         mint_deadline := p_deadline params;
         mint_transaction := Transaction call;
         mint_block := Block call |}).

(** <<
    processed_events = []
    for i, call in enumerate(calls):
        ...
        if not token0_address or not token1_address:
            continue
        ...
        processed_events.append(event_data)
    >> *)
Fixpoint process_mint_calls (token_decimals : gmap string TokenInfo)
    (calls : list Call) : PyResult (list MintEvent) :=
  match calls with
  | [] => Ret []
  | call :: rest =>
      event_data ← mint_event_of_call token_decimals call;
      processed ← process_mint_calls token_decimals rest;
      Ret (match event_data with
           | Some ev => ev :: processed
           | None => processed
           end)
  end.

(** [process_mint_events_with_decimals], the client answers being given. *)
Definition process_mint_events_with_decimals (all_events : list Call)
    (decimals_response : list Currency) : PyResult (option (list MintEvent)) :=
  match all_events with
  | [] => Ret None
  | _ =>
      let token_decimals := create_token_decimals_lookup decimals_response in
      if decide (token_decimals = ∅) then Ret None
      else
        processed_events ← process_mint_calls token_decimals all_events;
        Ret (Some processed_events)
  end.

End Mint.

(** ** [process_burn.py]: burn events *)

(** <<
    for arg in arguments:
        if name == 'tokenId' and 'bigInteger' in value:
            params['tokenId'] = value['bigInteger']
    >>
    The result is [params.get('tokenId')]. *)
Definition burn_arg_step (token_id : option string) (arg : Arg) : option string :=
  if name_is arg "tokenId" && has_key (bigInteger (Value arg))
  then bigInteger (Value arg)
  else token_id.

Definition parse_burn_arguments (arguments : list Arg) : option string :=
  fold_left burn_arg_step arguments None.

Record BurnEvent : Type := {
  burn_event_type : string;
  burn_tokenId : option string;
  burn_transaction : TransactionInfo;
  burn_block : BlockInfo
}.

(** The body of the loop over [calls]: [None] stands for [continue]. *)
Definition burn_event_of_call (call : Call) : option BurnEvent :=
  let event_type := default "burn"%string (Signature_Name call) in
  let token_id := parse_burn_arguments (Arguments call) in
  if negb (truthy token_id) then None
  else Some {| burn_event_type := event_type;
               burn_tokenId := token_id;
               burn_transaction := Transaction call;
               burn_block := Block call |}.

(** [process_burn_events], the fetched calls being given. *)
Fixpoint process_burn_events (calls : list Call) : list BurnEvent :=
  match calls with
  | [] => []
  | call :: rest =>
      match burn_event_of_call call with
      | Some ev => ev :: process_burn_events rest
      | None => process_burn_events rest
      end
  end.

(** ** [analyze_position_creators.py]: the aggregator *)

(** One creation event, as [extract_position_creators_from_response]
    builds it. *)
Record CreatorData : Type := {
  creator_address : string;
  cd_token_id : option string;
  cd_token0_address : option string;
  cd_token1_address : option string;
  cd_fee : option string;
  cd_tick_lower : option Z;
  cd_tick_upper : option Z;
  cd_liquidity : option string;
  cd_amount0 : option string;
  cd_amount1 : option string;
  cd_transaction_hash : option string;
  cd_transaction_value_usd : option usd_json;
  cd_block_number : option string;
  cd_timestamp : option string
}.

(** The statistics of one creator while the events are folded in.
    [total_usd_value] starts as the integer [0], which adds and compares
    as the float [0.0]. *)
Record Stats : Type := {
  total_positions : Z;
  total_liquidity : Z;
  total_usd_value : float;
  unique_pairs : gset string;
  fee_tiers : gmap string Z;
  positions : list CreatorData;
  first_position_time : option string;
  last_position_time : option string
}.

(** The value the [defaultdict] creates for a new address. *)
Definition Stats_default : Stats :=
  {| total_positions := 0; total_liquidity := 0; total_usd_value := float_zero;
     unique_pairs := ∅; fee_tiers := ∅; positions := [];
     first_position_time := None; last_position_time := None |}.

(** A dictionary in insertion order, keys distinct: [list(d.items())]. *)
Fixpoint od_lookup {V} (k : string) (d : list (string * V)) : option V :=
  match d with
  | [] => None
  | (k', v) :: d' => if String.eqb k' k then Some v else od_lookup k d'
  end.

(** [d[k] = v]: in place when [k] is a key, at the end otherwise. *)
Fixpoint od_set {V} (k : string) (v : V) (d : list (string * V)) : list (string * V) :=
  match d with
  | [] => [(k, v)]
  | (k', v') :: d' =>
      if String.eqb k' k then (k', v) :: d' else (k', v') :: od_set k v d'
  end.

Definition usd_truthy (u : usd_json) : bool :=
  match u with
  | UsdStr s => truthy_str s
  | UsdNum f => negb (is_zero f)
  end.

Section Aggregator.

(** [float(s)] on a string: the runtime's decimal-to-binary conversion,
    [None] standing for [ValueError]. *)
Variable float_of_str : string -> option float.

Definition py_float (u : usd_json) : PyResult float :=
  match u with
  | UsdStr s =>
      match float_of_str s with
      | Some f => Ret f
      | None => Raise ValueError
      end
  | UsdNum f => Ret f
  end.

(** [if liquidity: try: total += int(liquidity) except (ValueError,
    TypeError): pass]; [int] raises nothing else, and neither does
    [float] below. *)
Definition add_liquidity (total : Z) (liquidity : option string) : Z :=
  if truthy liquidity then
    match py_int liquidity with
    | Ret n => (total + n)%Z
    | Raise _ => total
    end
  else total.

(** [if usd_value: try: total += float(usd_value) except ...: pass] *)
Definition add_usd (total : float) (usd_value : option usd_json) : float :=
  match usd_value with
  | Some u =>
      if usd_truthy u then
        match py_float u with
        | Ret f => float_add total f
        | Raise _ => total
        end
      else total
  | None => total
  end.

(** [if token0 and token1: unique_pairs.add(f"{token0}/{token1}")] *)
Definition add_pair (pairs : gset string) (t0 t1 : option string) : gset string :=
  match t0, t1 with
  | Some a, Some b =>
      if truthy_str a && truthy_str b
      then {[ (a +:+ "/" +:+ b)%string ]} ∪ pairs
      else pairs
  | _, _ => pairs
  end.

(** [if fee: fee_tiers[fee] += 1] *)
Definition add_fee (tiers : gmap string Z) (fee : option string) : gmap string Z :=
  match fee with
  | Some f =>
      if truthy_str f then <[f := (default 0 (tiers !! f) + 1)%Z]> tiers else tiers
  | None => tiers
  end.

(** [if not first or timestamp < first: first = timestamp] *)
Definition earlier (first : option string) (timestamp : string) : option string :=
  if negb (truthy first) then Some timestamp
  else match first with
       | Some t => if String.ltb timestamp t then Some timestamp else first
       | None => Some timestamp
       end.

(** [if not last or timestamp > last: last = timestamp] *)
Definition later (last : option string) (timestamp : string) : option string :=
  if negb (truthy last) then Some timestamp
  else match last with
       | Some t => if String.ltb t timestamp then Some timestamp else last
       | None => Some timestamp
       end.

(** The updates one event makes to the statistics of its creator. *)
Definition update_stats (stats : Stats) (creator_data : CreatorData) : Stats :=
  let timestamp := cd_timestamp creator_data in
  {| total_positions := total_positions stats + 1;
     total_liquidity := add_liquidity (total_liquidity stats) (cd_liquidity creator_data);
     total_usd_value :=
       add_usd (total_usd_value stats) (cd_transaction_value_usd creator_data);
     unique_pairs :=
       add_pair (unique_pairs stats)
         (cd_token0_address creator_data) (cd_token1_address creator_data);
     fee_tiers := add_fee (fee_tiers stats) (cd_fee creator_data);
     positions := positions stats ++ [creator_data];
     first_position_time :=
       match timestamp with
       | Some t => if truthy_str t then earlier (first_position_time stats) t
                   else first_position_time stats
       | None => first_position_time stats
       end;
     last_position_time :=
       match timestamp with
       | Some t => if truthy_str t then later (last_position_time stats) t
                   else last_position_time stats
       | None => last_position_time stats
       end |}.

(** One turn of the loop: [stats = creator_stats[creator_address]] creates
    the entry when the address is new, then [stats] is updated in place. *)
Definition fold_event (creator_stats : list (string * Stats))
    (creator_data : CreatorData) : list (string * Stats) :=
  let addr := creator_address creator_data in
  let stats := default Stats_default (od_lookup addr creator_stats) in
  od_set addr (update_stats stats creator_data) creator_stats.

(** The statistics as returned: the pair set has become a list and its
    size is recorded. *)
Record CreatorStats : Type := {
  acc : Stats;
  unique_pairs_list : list string;
  unique_pairs_count : Z
}.

Definition finish_stats (stats : Stats) : CreatorStats :=
  {| acc := stats;
     unique_pairs_list := elements (unique_pairs stats);
     unique_pairs_count := Z.of_nat (size (unique_pairs stats)) |}.

(** The loop over [creators_data], from the empty dictionary. *)
Definition fold_events (creators_data : list CreatorData) : list (string * Stats) :=
  fold_left fold_event creators_data [].

Definition analyze_top_creators (creators_data : list CreatorData)
  : list (string * CreatorStats) :=
  let creator_stats := fold_events creators_data in
  map (fun kv => (fst kv, finish_stats (snd kv))) creator_stats.

End Aggregator.

(** ** [analyze_position_creators.py]: the ranker *)

(** [sorted(l, key=key, reverse=True)] for keys that [<] orders totally
    (integers; floats when none is a NaN): the list in descending key
    order, elements with equal keys in their original order. Each element
    is put before the first element of the sorted tail whose key is not
    above its own. *)
Section Sorted.

Context {A K : Type} (ltb : K -> K -> bool) (key : A -> K).

Fixpoint insert_desc (x : A) (l : list A) : list A :=
  match l with
  | [] => [x]
  | y :: l' => if ltb (key x) (key y) then y :: insert_desc x l' else x :: l
  end.

Fixpoint sorted_desc (l : list A) : list A :=
  match l with
  | [] => []
  | x :: l' => insert_desc x (sorted_desc l')
  end.

End Sorted.

(** [l[:n]]: a negative [n] counts from the end. *)
Definition slice_to {A} (n : Z) (l : list A) : list A :=
  if (0 <=? n)%Z then take (Z.to_nat n) l
  else take (length l - Z.to_nat (- n)) l.

Record Rankings : Type := {
  by_positions : list (string * CreatorStats);
  by_liquidity : list (string * CreatorStats);
  by_usd_value : list (string * CreatorStats);
  by_unique_pairs : list (string * CreatorStats)
}.

Definition m_positions (x : string * CreatorStats) : Z := total_positions (acc (snd x)).
Definition m_liquidity (x : string * CreatorStats) : Z := total_liquidity (acc (snd x)).
Definition m_usd_value (x : string * CreatorStats) : float := total_usd_value (acc (snd x)).
Definition m_unique_pairs (x : string * CreatorStats) : Z := unique_pairs_count (snd x).

(** [sorted(l, key=key, reverse=True)] for float keys. When no key is a
    NaN the keys are totally ordered and the result is the stable
    descending sort above. With a NaN among the keys the comparisons are
    not those of an order and the result depends on the steps of the
    interpreter's sorting algorithm, which is not modelled: an instance
    gives the result, of which it is known that it rearranges the list. *)
Record float_sort : Type := {
  sorted_by_float : forall A : Type, (A -> float) -> list A -> list A;
  sorted_by_float_perm :
    forall (A : Type) (key : A -> float) (l : list A), sorted_by_float A key l ≡ₚ l;
  sorted_by_float_total :
    forall (A : Type) (key : A -> float) (l : list A),
      forallb (fun x => negb (is_nan (key x))) l = true ->
      sorted_by_float A key l = sorted_desc float_ltb key l
}.

Definition rank_creators (fs : float_sort)
    (creator_stats : list (string * CreatorStats)) (top_n : Z) : Rankings :=
  let creators_list := creator_stats in
  {| by_positions := slice_to top_n (sorted_desc Z.ltb m_positions creators_list);
     by_liquidity := slice_to top_n (sorted_desc Z.ltb m_liquidity creators_list);
     by_usd_value := slice_to top_n (sorted_by_float fs _ m_usd_value creators_list);
     by_unique_pairs := slice_to top_n (sorted_desc Z.ltb m_unique_pairs creators_list) |}.

(** The instance that sorts as [sorted_desc] does on every list. *)
Definition stable_float_sort : float_sort.
Proof.
  refine {| sorted_by_float := fun A key l => sorted_desc float_ltb key l |}.
  - intros A key l. induction l as [|x l IH]; [reflexivity|].
    cbn [sorted_desc]. rewrite <- IH at 2. generalize (sorted_desc float_ltb key l).
    intros l'. induction l' as [|y l' IH']; [reflexivity|].
    cbn [insert_desc]. destruct (float_ltb (key x) (key y)); [|reflexivity].
    rewrite IH'. apply Permutation_swap.
  - reflexivity.
Defined.

(** ** [process_positions.py]: the token addresses of a batch *)

(** <<
    if name in ['token0', 'token1'] and 'address' in value:
        token_addresses.add(value['address'])
    >> *)
Definition token_addresses_step (token_addresses : gset string) (return_item : Arg)
  : gset string :=
  if (name_is return_item "token0" || name_is return_item "token1")
     && has_key (address (Value return_item))
  then match address (Value return_item) with
       | Some a => {[ a ]} ∪ token_addresses
       | None => token_addresses
       end
  else token_addresses.

(** The set built by the two nested loops. *)
Definition position_token_set (calls : list Call) : gset string :=
  fold_left (fun acc call => fold_left token_addresses_step (Returns call) acc) calls ∅.

(** [list(token_addresses)]: the elements of the set, in an order the
    language leaves open. *)
Definition extract_token_addresses_from_positions_response (calls : list Call)
  : list string :=
  elements (position_token_set calls).

(** ** [process_mint_burn.py]: the token addresses of a batch *)

Definition mint_params_prefix : string := "INonfungiblePositionManagerMintParams".

(** <<
    if name.startswith('INonfungiblePositionManagerMintParams') and 'address' in value:
        token_addresses.add(value['address'])
    >> *)
Definition mint_addresses_step (token_addresses : gset string) (arg : Arg)
  : gset string :=
  if String.prefix mint_params_prefix (default ""%string (Name arg))
     && has_key (address (Value arg))
  then match address (Value arg) with
       | Some a => {[ a ]} ∪ token_addresses
       | None => token_addresses
       end
  else token_addresses.

Definition mint_token_set (calls : list Call) : gset string :=
  fold_left (fun acc call => fold_left mint_addresses_step (Arguments call) acc) calls ∅.

Definition extract_token_addresses_from_mint_burn_response (calls : list Call)
  : list string :=
  elements (mint_token_set calls).

(** ** [analyze_position_creators.py]: the creation events of a batch *)

(** The four variables the [Returns] loop assigns. *)
Record CreatorReturns : Type := {
  cr_token_id : option string;
  cr_liquidity : option string;
  cr_amount0 : option string;
  cr_amount1 : option string
}.

Definition CreatorReturns_init : CreatorReturns :=
  {| cr_token_id := None; cr_liquidity := None; cr_amount0 := None; cr_amount1 := None |}.

Definition creator_returns_step (st : CreatorReturns) (return_item : Arg)
  : CreatorReturns :=
  let value := Value return_item in
  let '(Build_CreatorReturns ti li a0 a1) := st in
  if name_is return_item "tokenId" && has_key (bigInteger value) then
    Build_CreatorReturns (bigInteger value) li a0 a1
  else if name_is return_item "liquidity" && has_key (bigInteger value) then
    Build_CreatorReturns ti (bigInteger value) a0 a1
  else if name_is return_item "amount0" && has_key (bigInteger value) then
    Build_CreatorReturns ti li (bigInteger value) a1
  else if name_is return_item "amount1" && has_key (bigInteger value) then
    Build_CreatorReturns ti li a0 (bigInteger value)
  else st.

(** The five variables the [Arguments] loop assigns. *)
Record CreatorArgs : Type := {
  ca_token0_address : option string;
  ca_token1_address : option string;
  ca_fee : option string;
  ca_tick_lower : option Z;
  ca_tick_upper : option Z
}.

Definition CreatorArgs_init : CreatorArgs :=
  {| ca_token0_address := None; ca_token1_address := None; ca_fee := None;
     ca_tick_lower := None; ca_tick_upper := None |}.

(** Indices 3 and 4 go through [int], outside any [try]. *)
Definition creator_args_step (st : CreatorArgs) (arg : Arg) : PyResult CreatorArgs :=
  let value := Value arg in
  let '(Build_CreatorArgs t0 t1 fe tl tu) := st in
  if index_is arg 0 && has_key (address value) then
    Ret (Build_CreatorArgs (address value) t1 fe tl tu)
  else if index_is arg 1 && has_key (address value) then
    Ret (Build_CreatorArgs t0 (address value) fe tl tu)
  else if index_is arg 2 && has_key (bigInteger value) then
    Ret (Build_CreatorArgs t0 t1 (bigInteger value) tl tu)
  else if index_is arg 3 && has_key (bigInteger value) then
    t ← py_int (bigInteger value); Ret (Build_CreatorArgs t0 t1 fe (Some t) tu)
  else if index_is arg 4 && has_key (bigInteger value) then
    t ← py_int (bigInteger value); Ret (Build_CreatorArgs t0 t1 fe tl (Some t))
  else Ret st.

(** The body of the loop over [calls]: [None] stands for [continue], taken
    when the transaction has no sender, before anything else is read. *)
Definition creator_of_call (call : Call) : PyResult (option CreatorData) :=
  let transaction := Transaction call in
  let block := Block call in
  match Tx_From transaction with
  | Some creator =>
      if truthy_str creator then
        let rs := fold_left creator_returns_step (Returns call) CreatorReturns_init in
        args ← for_each creator_args_step CreatorArgs_init (Arguments call);
        Ret (Some
          {| creator_address := creator;
             cd_token_id := cr_token_id rs;
             cd_token0_address := ca_token0_address args;
             cd_token1_address := ca_token1_address args;
             cd_fee := ca_fee args;
             cd_tick_lower := ca_tick_lower args;
             cd_tick_upper := ca_tick_upper args;
             cd_liquidity := cr_liquidity rs;
             cd_amount0 := cr_amount0 rs;
             cd_amount1 := cr_amount1 rs;
             cd_transaction_hash := Tx_Hash transaction;
             cd_transaction_value_usd := Tx_ValueInUSD transaction;
             cd_block_number := Block_Number block;
             cd_timestamp := Block_Time block |})
      else Ret None
  | None => Ret None
  end.

Fixpoint extract_position_creators_from_response (calls : list Call)
  : PyResult (list CreatorData) :=
  match calls with
  | [] => Ret []
  | call :: rest =>
      creator_data ← creator_of_call call;
      creators_data ← extract_position_creators_from_response rest;
      Ret (match creator_data with
           | Some cd => cd :: creators_data
           | None => creators_data
           end)
  end.

(** The [summary] that [save_creator_analysis] writes, its time stamp
    aside: the number of creators and the sum of their position counts. *)
Definition summary_total_creators (creator_stats : list (string * CreatorStats)) : Z :=
  Z.of_nat (length creator_stats).

Definition summary_total_positions (creator_stats : list (string * CreatorStats)) : Z :=
  fold_left (fun total kv => (total + total_positions (acc (snd kv)))%Z) creator_stats 0%Z.

(** ** [process_burn.py]: the burn patterns *)

(** [timestamp.replace('Z', '+00:00')]: every [Z] is replaced. *)
Fixpoint replace_Z (timestamp : string) : string :=
  match timestamp with
  | EmptyString => EmptyString
  | String c rest =>
      if Ascii.eqb c "Z" then ("+00:00" +:+ replace_Z rest)%string
      else String c (replace_Z rest)
  end.

(** The exceptions of [analyze_burn_patterns]: [AttributeError], raised by
    a method call on [None], and those of the built-in operations. *)
Inductive pattern_exn : Type :=
| AttributeError
| Builtin (e : exn).

Inductive PatternResult (A : Type) : Type :=
| Done (a : A)
| Fails (e : pattern_exn).
Arguments Done {A} a.
Arguments Fails {A} e.

(** A dictionary of counters, in insertion order. *)
Definition counter : Type := list (string * Z).

(** [d[k] = d.get(k, 0) + 1] *)
Definition bump (k : string) (d : counter) : counter :=
  od_set k (default 0 (od_lookup k d) + 1)%Z d.

(** The three collections the loop fills. *)
Record PatternTables : Type := {
  tb_events_by_hour : counter;
  tb_events_by_day : counter;
  tb_unique_burners : gset (option string)
}.

Definition PatternTables_init : PatternTables :=
  {| tb_events_by_hour := []; tb_events_by_day := []; tb_unique_burners := ∅ |}.

(** [max(items, key=lambda x: x[1])] on a non-empty sequence: the first
    item whose count no other exceeds. *)
Fixpoint max_item (best : string * Z) (items : counter) : string * Z :=
  match items with
  | [] => best
  | item :: rest => max_item (if (snd best <? snd item)%Z then item else best) rest
  end.

(** [max(d.items(), key=...) if d else (None, 0)] *)
Definition peak (d : counter) : option string * Z :=
  match d with
  | [] => (None, 0%Z)
  | item :: rest => let best := max_item item rest in (Some (fst best), snd best)
  end.

Record BurnAnalysis : Type := {
  total_burns : Z;
  unique_burners : Z;
  avg_burns_per_burner : py_num;
  peak_hour : option string * Z;
  peak_day : option string * Z;
  events_by_day : counter;
  events_by_hour : counter
}.

Section BurnPatterns.

(** The library's [datetime]: its values, [datetime.fromisoformat] ([None]
    standing for [ValueError]) and [strftime], taken to return a string for
    every parsed value. *)
Variable datetime : Type.
Variable fromisoformat : string -> option datetime.
Variable strftime : datetime -> string -> string.

(** The body of the loop over [processed_events]. The burner is added
    before the time stamp is parsed; [event['block']['time']] is [None]
    when the call had no block time, and [None.replace] raises. *)
Definition pattern_step (tb : PatternTables) (event : BurnEvent)
  : PatternResult PatternTables :=
  let timestamp := Block_Time (burn_block event) in
  let burner := Tx_From (burn_transaction event) in
  let burners := {[ burner ]} ∪ tb_unique_burners tb in
  match timestamp with
  | None => Fails AttributeError
  | Some ts =>
      match fromisoformat (replace_Z ts) with
      | None => Fails (Builtin ValueError)
      | Some dt =>
          let hour := strftime dt "%Y-%m-%d %H:00" in
          let day := strftime dt "%Y-%m-%d" in
          Done {| tb_events_by_hour := bump hour (tb_events_by_hour tb);
                  tb_events_by_day := bump day (tb_events_by_day tb);
                  tb_unique_burners := burners |}
      end
  end.

Fixpoint pattern_loop (tb : PatternTables) (processed_events : list BurnEvent)
  : PatternResult PatternTables :=
  match processed_events with
  | [] => Done tb
  | event :: rest =>
      match pattern_step tb event with
      | Done tb' => pattern_loop tb' rest
      | Fails e => Fails e
      end
  end.

(** [len(processed_events) / len(unique_burners) if unique_burners else 0] *)
Definition average (n m : Z) : PyResult py_num :=
  if negb (m =? 0)%Z then f ← int_truediv n m; Ret (PyFloat f)
  else Ret (PyInt 0).

Definition analyze_burn_patterns (processed_events : list BurnEvent)
  : PatternResult BurnAnalysis :=
  match pattern_loop PatternTables_init processed_events with
  | Fails e => Fails e
  | Done tb =>
      let peak_hour := peak (tb_events_by_hour tb) in
      let peak_day := peak (tb_events_by_day tb) in
      let n := Z.of_nat (length processed_events) in
      let m := Z.of_nat (size (tb_unique_burners tb)) in
      match average n m with
      | Raise e => Fails (Builtin e)
      | Ret avg =>
          Done {| total_burns := n;
                  unique_burners := m;
                  avg_burns_per_burner := avg;
                  peak_hour := peak_hour;
                  peak_day := peak_day;
                  events_by_day := tb_events_by_day tb;
                  events_by_hour := tb_events_by_hour tb |}
      end
  end.

(** The time stamp of an event is there and can be parsed. *)
Definition time_parses (event : BurnEvent) : bool :=
  match Block_Time (burn_block event) with
  | Some ts =>
      match fromisoformat (replace_Z ts) with
      | Some _ => true
      | None => false
      end
  | None => false
  end.

(** The exception the loop body raises on an event whose time stamp cannot
    be read. *)
Definition time_error (event : BurnEvent) : pattern_exn :=
  match Block_Time (burn_block event) with
  | Some _ => Builtin ValueError
  | None => AttributeError
  end.

End BurnPatterns.

(** ** Reference behaviour of the decimal resolver, in the words of its
    specification *)

(** The record [t] carries the identifier [a] with a decimal count. *)
Definition carries (a : string) (t : Currency) : bool :=
  match SmartContract t, Decimals t with
  | Some a', Some _ => String.eqb a' a
  | _, _ => false
  end.

(** The entry a record contributes. *)
Definition entry_of (t : Currency) : option TokenInfo :=
  d ← Decimals t;
  Some {| decimals := d; symbol := Symbol t; name := Currency_Name t |}.

(** Last-seen wins: the entry of the last record carrying [a]. *)
Definition last_seen (a : string) (transfers : list Currency) : option TokenInfo :=
  last (List.filter (carries a) transfers) ≫= entry_of.

(** ** Well-formed input

    A [bigInteger] is a big integer written as a string: where the
    sources pass one to [int] outside a [try], the input is expected to
    be an integer literal. *)

Definition is_Ret {A} (r : PyResult A) : bool :=
  match r with
  | Ret _ => true
  | Raise _ => false
  end.

(** An entry of [Returns] that reaches one of the two tick branches holds
    an integer literal. *)
Definition tick_entry_ok (e : Arg) : bool :=
  if (name_is e "tickLower" || name_is e "tickUpper") && has_key (bigInteger (Value e))
  then is_Ret (py_int (bigInteger (Value e)))
  else true.

Definition ticks_parse (call : Call) : bool :=
  forallb tick_entry_ok (Returns call).

(** The same for the arguments of a mint call (indices 3 and 4). *)
Definition tick_arg_ok (arg : Arg) : bool :=
  if (index_is arg 3 || index_is arg 4) && has_key (bigInteger (Value arg))
  then is_Ret (py_int (bigInteger (Value arg)))
  else true.

Definition tick_args_parse (call : Call) : bool :=
  forallb tick_arg_ok (Arguments call).

(** An entry of [Returns] that the [liquidity] branch reads. *)
Definition liquidity_entry (e : Arg) : bool :=
  name_is e "liquidity" && has_key (bigInteger (Value e)).

(** The call returns the liquidity [v]: some entry named [liquidity] holds
    the big integer [v], and no entry named [liquidity] holds another. *)
Definition returns_liquidity (v : string) (call : Call) : bool :=
  existsb liquidity_entry (Returns call) &&
  forallb (fun e => if liquidity_entry e
                    then bool_decide (bigInteger (Value e) = Some v)
                    else true) (Returns call).

(** No argument is named [tokenId]. *)
Definition no_tokenId_argument (call : Call) : bool :=
  forallb (fun arg => negb (name_is arg "tokenId")) (Arguments call).

(** No argument has index 0 and carries an address. *)
Definition lacks_token0 (call : Call) : bool :=
  forallb (fun arg => negb (index_is arg 0 && has_key (address (Value arg))))
          (Arguments call).

(** No argument named [tokenId] holds a non-empty big integer. *)
Definition lacks_token_id (call : Call) : bool :=
  forallb (fun arg => negb (name_is arg "tokenId" && truthy (bigInteger (Value arg))))
          (Arguments call).

(** ** What the specification asks of a ranking

    [r] ranks [stats] by [key]: it has [min(top_n, |stats|)] entries, each
    entry's key is at least the next entry's, the entries are entries of
    [stats] (each used once), and all of them are there when [top_n] is
    not below their number. *)
Definition ranking_ok {K} (ge : K -> K -> Prop) (key : string * CreatorStats -> K)
    (stats : list (string * CreatorStats)) (top_n : Z)
    (r : list (string * CreatorStats)) : Prop :=
  length r = Nat.min (Z.to_nat top_n) (length stats) /\
  (forall i a b, r !! i = Some a -> r !! S i = Some b -> ge (key a) (key b)) /\
  (exists rest, r ++ rest ≡ₚ stats) /\
  (length stats <= Z.to_nat top_n -> r ≡ₚ stats).

(** The same without the order: [r] is a selection of
    [min(top_n, |stats|)] entries of [stats]. *)
Definition selection_ok (stats : list (string * CreatorStats)) (top_n : Z)
    (r : list (string * CreatorStats)) : Prop :=
  length r = Nat.min (Z.to_nat top_n) (length stats) /\
  (exists rest, r ++ rest ≡ₚ stats) /\
  (length stats <= Z.to_nat top_n -> r ≡ₚ stats).

Definition Z_ge (x y : Z) : Prop := (y <= x)%Z.
Definition float_ge (x y : float) : Prop := float_geb x y = true.

(** ** Reference notions for the further properties *)

(** A record of the decimals response that the resolver keeps: it has a
    non-empty address and a decimals count. *)
Definition usable_record (t : Currency) : bool :=
  match SmartContract t, Decimals t with
  | Some addr, Some _ => truthy_str addr
  | _, _ => false
  end.

(** The statistics of a dictionary as returned. *)
Definition finished (d : list (string * Stats)) : list (string * CreatorStats) :=
  map (fun kv => (fst kv, finish_stats (snd kv))) d.

(** The events of a batch that come from the address [a], in batch order. *)
Definition events_of (a : string) (evs : list CreatorData) : list CreatorData :=
  List.filter (fun ev => String.eqb (creator_address ev) a) evs.

(** The distinct elements of a list in the order of their first
    occurrence. *)
Fixpoint first_occurrences (l : list string) : list string :=
  match l with
  | [] => []
  | x :: l' => x :: List.filter (fun y => negb (String.eqb y x)) (first_occurrences l')
  end.

(** The pair key an event contributes, if it has both token addresses. *)
Definition pair_of (ev : CreatorData) : option string :=
  match cd_token0_address ev, cd_token1_address ev with
  | Some a, Some b =>
      if truthy_str a && truthy_str b then Some (a +:+ "/" +:+ b)%string else None
  | _, _ => None
  end.

(** The time stamps of a list of events that the time-range update reads. *)
Definition timestamps (evs : list CreatorData) : list string :=
  omap (fun ev => match cd_timestamp ev with
                  | Some t => if truthy_str t then Some t else None
                  | None => None
                  end) evs.

(** The time range a creator's record must show for the time stamps [ts]
    of its events: nothing when there is none, else two of them with none
    before the first and none after the last. *)
Definition time_range_of (ts : list string) (first last : option string) : Prop :=
  match ts with
  | [] => first = None /\ last = None
  | _ :: _ =>
      exists t1 t2, first = Some t1 /\ last = Some t2 /\ In t1 ts /\ In t2 ts /\
        forall t, In t ts -> String.ltb t t1 = false /\ String.ltb t2 t = false
  end.

(** ** Reference notions for the ranker *)

(** What a ranking [r] with a negative [top_n] is, [full] being the full
    ranking: [full] without its last [-top_n] entries (without all of
    them, if there are fewer). *)
Definition drops_last (full : list (string * CreatorStats)) (top_n : Z)
    (r : list (string * CreatorStats)) : Prop :=
  exists dropped,
    r ++ dropped = full /\
    length dropped = Nat.min (Z.to_nat (- top_n)) (length full) /\
    length r = (length full - Z.to_nat (- top_n))%nat.

(** The same, where moreover no dropped entry has a key above that of a
    listed one. *)
Definition drops_lowest {K} (ge : K -> K -> Prop) (key : string * CreatorStats -> K)
    (full : list (string * CreatorStats)) (top_n : Z)
    (r : list (string * CreatorStats)) : Prop :=
  exists dropped,
    r ++ dropped = full /\
    length dropped = Nat.min (Z.to_nat (- top_n)) (length full) /\
    length r = (length full - Z.to_nat (- top_n))%nat /\
    forall a b, In a r -> In b dropped -> ge (key a) (key b).

(** The entries of [l] whose key is [k], in the order of [l]. *)
Definition tied (key : string * CreatorStats -> Z) (k : Z)
    (l : list (string * CreatorStats)) : list (string * CreatorStats) :=
  List.filter (fun x => Z.eqb (key x) k) l.

(** The sum of the counters of a dictionary. *)
Definition sum_counts (d : counter) : Z :=
  fold_right (fun kv s => (snd kv + s)%Z) 0%Z d.

(** [c] is the count of [k] in [d] and no count of [d] is above it. *)
Definition is_peak (d : counter) (p : option string * Z) : Prop :=
  exists k, fst p = Some k /\ od_lookup k d = Some (snd p) /\
            forall k' c', In (k', c') d -> (c' <= snd p)%Z.

(** All counts of a dictionary are positive. *)
Definition positive_counts (d : counter) : Prop :=
  forall k c, In (k, c) d -> (1 <= c)%Z.

(** What the loop keeps true of its tables after [n] events. *)
Definition tables_ok (n : nat) (tb : PatternTables) : Prop :=
  sum_counts (tb_events_by_hour tb) = Z.of_nat n /\
  sum_counts (tb_events_by_day tb) = Z.of_nat n /\
  NoDup (tb_events_by_hour tb).*1 /\ NoDup (tb_events_by_day tb).*1 /\
  positive_counts (tb_events_by_hour tb) /\ positive_counts (tb_events_by_day tb) /\
  (size (tb_unique_burners tb) <= n)%nat /\
  (n <> 0%nat -> tb_unique_burners tb <> ∅ /\ tb_events_by_hour tb <> []
                 /\ tb_events_by_day tb <> []).

(** ** Concrete data used by examples and tables *)

(** The digit string of [10 ** 309]. *)
Definition big_amount : string :=
  String "1" (string_of_list_ascii (repeat "0"%char 309)).

(** A digit string of 4301 digits. *)
Definition long_amount : string :=
  string_of_list_ascii (repeat "1"%char 4301).

(** [float(10 ** k)] is a finite double. *)
Definition pow10_ok (k : nat) : bool :=
  match float_of_Z (10 ^ Z.of_nat k) with
  | Ret f => valid_binary prec emax f
  | Raise _ => false
  end.

Definition no_transaction : TransactionInfo :=
  {| Tx_Hash := None; Tx_From := None; Tx_To := None;
     Tx_ValueInUSD := None; Tx_Time := None |}.

Definition no_block : BlockInfo := {| Block_Number := None; Block_Time := None |}.

Definition call_of (arguments returned : list Arg) : Call :=
  {| Arguments := arguments; Returns := returned; Signature_Name := None;
     Transaction := no_transaction; Block := no_block |}.

Definition addr_arg (i : Z) (n a : string) : Arg :=
  {| Index := Some i; Name := Some n;
     Value := {| address := Some a; bigInteger := None |} |}.

Definition bigint_arg (i : Z) (n b : string) : Arg :=
  {| Index := Some i; Name := Some n;
     Value := {| address := None; bigInteger := Some b |} |}.

(** A currency record without symbol, and a call returning its address as
    [token0]. *)
Definition nosym_transfer : Currency :=
  {| SmartContract := Some "0xA"%string; Decimals := Some 18%Z;
     Symbol := None; Currency_Name := None |}.

Definition nosym_call : Call :=
  call_of [] [addr_arg 0 "token0" "0xA"].

(** A currency record without decimal count. *)
Definition nodec_transfer : Currency :=
  {| SmartContract := Some "0xC"%string; Decimals := None;
     Symbol := Some "CCC"%string; Currency_Name := None |}.

Definition usdc_transfer : Currency :=
  {| SmartContract := Some "0xB"%string; Decimals := Some 6%Z;
     Symbol := Some "USDC"%string; Currency_Name := Some "USD Coin"%string |}.

(** A [positions] call returning only a liquidity, with no argument. *)
Definition liquidity_call : Call :=
  call_of [] [bigint_arg 2 "liquidity" "123456789"].

(** A complete mint call, and one without the argument of index 0. *)
Definition mint_call_full : Call :=
  call_of
    [ addr_arg 0 "token0" "0xA"; addr_arg 1 "token1" "0xB";
      bigint_arg 2 "fee" "3000"; bigint_arg 3 "tickLower" "-10";
      bigint_arg 4 "tickUpper" "10";
      bigint_arg 5 "amount0Desired" "1500000000000000000";
      bigint_arg 6 "amount0Min" "0";
      bigint_arg 7 "amount1Desired" "2500000"; bigint_arg 8 "amount1Min" "0";
      addr_arg 9 "recipient" "0xD"; bigint_arg 10 "deadline" "1700000000" ]
    [].

Definition mint_call_no_token0 : Call :=
  call_of [ addr_arg 1 "token1" "0xB"; bigint_arg 3 "tickLower" "-10" ] [].

(** Burn calls with and without a token id. *)
Definition burn_call (token_id : string) : Call :=
  call_of [ bigint_arg 0 "tokenId" token_id ] [].

(** A parser of floats that reads digit strings only; it stands for the
    runtime's [float] where an instance is needed. *)
Definition float_of_digits (s : string) : option float :=
  if digit_string s then
    match float_of_Z (digits_value s) with
    | Ret f => Some f
    | Raise _ => None
    end
  else None.

(** The double nearest to an integer. *)
Definition fl (z : Z) : float := binary_normalize prec emax z 0 false.

Definition creation_event (creator liq : string) (usd : float) : CreatorData :=
  {| creator_address := creator; cd_token_id := None;
     cd_token0_address := Some "0xA"%string; cd_token1_address := Some "0xB"%string;
     cd_fee := Some "3000"%string; cd_tick_lower := None; cd_tick_upper := None;
     cd_liquidity := Some liq; cd_amount0 := None; cd_amount1 := None;
     cd_transaction_hash := None; cd_transaction_value_usd := Some (UsdNum usd);
     cd_block_number := None; cd_timestamp := None |}.

(** The scenario of the specification: events from [X], [X], [Y]. *)
Definition scenario : list CreatorData :=
  [ creation_event "X" "100" (fl 10); creation_event "X" "50" (fl 5);
    creation_event "Y" "200" (fl 20) ].

Definition scenario_stats : list (string * CreatorStats) :=
  analyze_top_creators float_of_digits scenario.

(** Statistics whose only non-default field is the USD total. *)
Definition stats_with_usd (f : float) : CreatorStats :=
  finish_stats
    {| total_positions := 1; total_liquidity := 0; total_usd_value := f;
       unique_pairs := ∅; fee_tiers := ∅; positions := [];
       first_position_time := None; last_position_time := None |}.

(** Two creators whose USD totals are a NaN and [1.0]. *)
Definition nan_stats : list (string * CreatorStats) :=
  [ ("a"%string, stats_with_usd S754_nan); ("b"%string, stats_with_usd float_one) ].

(** A mint call whose arguments are named after the parameter struct. *)
Definition mint_call_named : Call :=
  call_of
    [ addr_arg 0 "INonfungiblePositionManagerMintParams.token0" "0xA";
      addr_arg 1 "INonfungiblePositionManagerMintParams.token1" "0xB";
      bigint_arg 5 "INonfungiblePositionManagerMintParams.amount0Desired" "1500" ]
    [].

(** A mint call with neither token address whose lower tick is not a
    number. *)
Definition mint_call_no_tokens_bad_tick : Call :=
  call_of [ bigint_arg 3 "tickLower" "low" ] [].

(** A [positions] call returning the liquidity ["123456789"] and a lower
    tick that is not a number, with no argument; and one returning two
    liquidities. *)
Definition liquidity_call_bad_tick : Call :=
  call_of [] [ bigint_arg 2 "liquidity" "123456789"; bigint_arg 5 "tickLower" "low" ].

Definition liquidity_call_twice : Call :=
  call_of [] [ bigint_arg 2 "liquidity" "123456789"; bigint_arg 2 "liquidity" "5" ].

(** A mint call whose lower tick is not a number. *)
Definition mint_call_bad_tick : Call :=
  call_of [ addr_arg 0 "token0" "0xA"; bigint_arg 3 "tickLower" "low" ] [].

(** A [positions] call returning two ticks. *)
Definition ticks_call : Call :=
  call_of [ bigint_arg 0 "tokenId" "7" ]
          [ bigint_arg 5 "tickLower" "-1"; bigint_arg 6 "tickUpper" "1" ].

(** A call sent by [sender] in a block of time [time], with one argument
    named [tokenId]. *)
Definition sent_call (sender : option string) (time : option string) : Call :=
  {| Arguments := [ bigint_arg 0 "tokenId" "42" ]; Returns := [];
     Signature_Name := None;
     Transaction := {| Tx_Hash := None; Tx_From := sender; Tx_To := None;
                       Tx_ValueInUSD := None; Tx_Time := None |};
     Block := {| Block_Number := None; Block_Time := time |} |}.

(** A creation event of [creator] with a time stamp. *)
Definition timed_event (creator time : string) : CreatorData :=
  {| creator_address := creator; cd_token_id := None;
     cd_token0_address := Some "0xA"%string; cd_token1_address := Some "0xB"%string;
     cd_fee := None; cd_tick_lower := None; cd_tick_upper := None;
     cd_liquidity := None; cd_amount0 := None; cd_amount1 := None;
     cd_transaction_hash := None; cd_transaction_value_usd := None;
     cd_block_number := None; cd_timestamp := Some time |}.

(** A stand-in for the [datetime] library where an instance is needed: a
    parsed value is the string itself, the empty string does not parse, and
    formatting keeps the first 10 characters for a day and the first 13 for
    an hour. *)
Definition sample_fromisoformat (s : string) : option string :=
  if truthy_str s then Some s else None.

Definition sample_strftime (dt : string) (format : string) : string :=
  if String.eqb format "%Y-%m-%d" then String.substring 0 10 dt
  else String.substring 0 13 dt.

(** Three burns, two of them in the same hour, by two senders. *)
Definition sample_burns : list BurnEvent :=
  process_burn_events
    [ sent_call (Some "0xS"%string) (Some "2024-05-01T10:15:00Z"%string);
      sent_call (Some "0xT"%string) (Some "2024-05-01T10:45:00Z"%string);
      sent_call (Some "0xS"%string) (Some "2024-05-02T09:00:00Z"%string) ].

(* ================================================================== *)
(** * Part III. Properties                                             *)
(* ================================================================== *)

(** ** Facts about binary64 rounding *)

Section FloatFacts.
Local Open Scope Z_scope.

Lemma digits2_pos_size p : digits2_pos p = Pos.size p.
Proof. induction p as [p IH|p IH|]; simpl; [rewrite IH..|]; reflexivity. Qed.

Lemma Zdigits2_log2 m : 0 < m -> Zdigits2 m = Z.log2 m + 1.
Proof.
  destruct m as [|p|p]; try lia. intros _.
  destruct p as [q|q|]; simpl; rewrite ?digits2_pos_size; lia.
Qed.

Lemma Zdigits2_nonneg m : 0 <= Zdigits2 m.
Proof. destruct m; simpl; lia. Qed.

(** [m < 2^k] exactly when [m] has at most [k] binary digits. *)
Lemma Zdigits2_le_iff m k : 0 <= m -> 0 <= k -> (Zdigits2 m <= k <-> m < 2 ^ k).
Proof.
  intros Hm Hk. destruct (Z.eq_dec m 0) as [->|Hne].
  - simpl. split; intros _; [apply Z.pow_pos_nonneg; lia | lia].
  - rewrite Zdigits2_log2 by lia. rewrite (Z.log2_lt_pow2 m k) by lia. lia.
Qed.

Lemma Zdigits2_lower m : 0 < m -> 2 ^ (Zdigits2 m - 1) <= m.
Proof.
  intros Hm. rewrite Zdigits2_log2 by lia.
  replace (Z.log2 m + 1 - 1) with (Z.log2 m) by lia.
  apply Z.log2_spec; lia.
Qed.

Lemma shr_1_div2 mrs : 0 <= shr_m mrs -> shr_m (shr_1 mrs) = shr_m mrs / 2.
Proof.
  destruct mrs as [m r s]. simpl. intros Hm.
  rewrite <- Z.div2_div.
  destruct m as [|p|p]; [reflexivity| |lia].
  destruct p; reflexivity.
Qed.

Lemma shr_iter_div p : forall mrs,
  0 <= shr_m mrs -> shr_m (SpecFloat.iter_pos shr_1 p mrs) = shr_m mrs / 2 ^ Zpos p.
Proof.
  induction p as [p IH|p IH|]; intros mrs Hm; simpl SpecFloat.iter_pos.
  - assert (H1 : 0 <= shr_m (shr_1 mrs)) by (rewrite shr_1_div2 by lia; apply Z.div_pos; lia).
    assert (H2 : 0 <= shr_m (SpecFloat.iter_pos shr_1 p (shr_1 mrs))) by (rewrite IH by lia; apply Z.div_pos; [lia|apply Z.pow_pos_nonneg; lia]).
    rewrite IH by lia. rewrite IH by lia. rewrite shr_1_div2 by lia.
    rewrite !Z.div_div by (try apply Z.pow_pos_nonneg; lia).
    f_equal. rewrite Pos2Z.inj_xI. rewrite <- Z.pow_add_r by lia.
    replace (2 * Z.pos p + 1) with (1 + (Z.pos p + Z.pos p)) by lia.
    rewrite (Z.pow_add_r 2 1) by lia. reflexivity.
  - assert (H2 : 0 <= shr_m (SpecFloat.iter_pos shr_1 p mrs)) by (rewrite IH by lia; apply Z.div_pos; [lia|apply Z.pow_pos_nonneg; lia]).
    rewrite IH by lia. rewrite IH by lia.
    rewrite !Z.div_div by (try apply Z.pow_pos_nonneg; lia).
    f_equal. rewrite Pos2Z.inj_xO. rewrite <- Z.pow_add_r by lia. f_equal. lia.
  - rewrite shr_1_div2 by lia. reflexivity.
Qed.

Lemma shr_record_of_loc_m m l : shr_m (shr_record_of_loc m l) = m.
Proof. destruct l as [|[]]; reflexivity. Qed.

(** What [shr_fexp] does to the mantissa and the exponent. *)
Lemma shr_fexp_spec m e l :
  0 <= m ->
  exists mrs e1, shr_fexp prec emax m e l = (mrs, e1) /\
    ((0 < e1 - e /\ e1 = Z.max (Zdigits2 m + e - 53) (-1074) /\ shr_m mrs = m / 2 ^ (e1 - e)) \/
     (Z.max (Zdigits2 m + e - 53) (-1074) <= e /\ e1 = e /\ shr_m mrs = m)).
Proof.
  intros Hm. unfold shr_fexp.
  change (fexp prec emax (Zdigits2 m + e)) with (Z.max (Zdigits2 m + e - 53) (-1074)).
  destruct (Z.max (Zdigits2 m + e - 53) (-1074) - e) as [|p|p] eqn:En; simpl.
  - eexists _, _; split; [reflexivity|]. right. rewrite shr_record_of_loc_m. lia.
  - eexists _, _; split; [reflexivity|]. left.
    rewrite shr_iter_div by (rewrite shr_record_of_loc_m; lia).
    rewrite shr_record_of_loc_m. replace (e + Z.pos p - e) with (Z.pos p) by lia. lia.
  - eexists _, _; split; [reflexivity|]. right. rewrite shr_record_of_loc_m. lia.
Qed.

Lemma round_nearest_even_bounds m l :
  m <= round_nearest_even m l <= m + 1.
Proof.
  unfold round_nearest_even. destruct l as [|[]]; try destruct (Z.even m); lia.
Qed.


Lemma pow2_pos k : 0 <= k -> 0 < 2 ^ k.
Proof. intros; apply Z.pow_pos_nonneg; lia. Qed.

Lemma pow2_le j k : 0 <= j <= k -> 2 ^ j <= 2 ^ k.
Proof. intros; apply Z.pow_le_mono_r; lia. Qed.

Lemma div_pow2_pos m n :
  0 < m -> 0 <= n <= Zdigits2 m - 1 -> 0 < m / 2 ^ n.
Proof.
  intros Hm Hn.
  assert (1 <= m / 2 ^ n); [|lia].
  apply Z.div_le_lower_bound; [apply pow2_pos; lia|].
  pose proof (Zdigits2_lower m Hm). pose proof (pow2_le n (Zdigits2 m - 1)). lia.
Qed.

Lemma div_pow2_lt m n k :
  0 <= m -> 0 <= n -> 0 <= k -> Zdigits2 m <= n + k -> m / 2 ^ n < 2 ^ k.
Proof.
  intros Hm Hn Hk Hd.
  apply Z.div_lt_upper_bound; [apply pow2_pos; lia|].
  rewrite <- Z.pow_add_r by lia.
  apply (Zdigits2_le_iff m (n + k)); lia.
Qed.

(** Rounding overflows as soon as the number has more than 1024 binary
    digits before the point. *)
Lemma binary_round_aux_overflow s m e l :
  0 < m -> 1025 <= Zdigits2 m + e ->
  binary_round_aux prec emax s m e l = S754_infinity s.
Proof.
  intros Hm HD. unfold binary_round_aux.
  destruct (shr_fexp_spec m e l) as (mrs1 & e1 & -> & H1); [lia|].
  set (m1' := round_nearest_even (shr_m mrs1) (loc_of_shr_record mrs1)).
  pose proof (round_nearest_even_bounds (shr_m mrs1) (loc_of_shr_record mrs1)) as Hr.
  fold m1' in Hr.
  assert (H1' : 0 < shr_m mrs1 /\ 972 <= e1).
  { destruct H1 as [(Hn & He1 & ->)|(Hn & He1 & ->)]; [|lia].
    split; [|lia]. apply div_pow2_pos; lia. }
  destruct H1' as [Hm1p He1p].
  assert (Hd1 : 1 <= Zdigits2 m1')
    by (rewrite Zdigits2_log2 by lia; pose proof (Z.log2_nonneg m1'); lia).
  destruct (shr_fexp_spec m1' e1 loc_Exact) as (mrs2 & e2 & -> & H2); [lia|].
  assert (H2' : 0 < shr_m mrs2 /\ 972 <= e2).
  { destruct H2 as [(Hn & He2 & ->)|(Hn & He2 & ->)]; [|lia].
    split; [|lia]. apply div_pow2_pos; lia. }
  destruct H2' as [Hm2p He2p].
  destruct (shr_m mrs2) as [|p|p]; try lia.
  replace (e2 <=? emax - prec) with false; [reflexivity|].
  symmetry. apply Z.leb_gt. unfold emax, prec. lia.
Qed.

(** Rounding stays finite when the number is below [2^1023], provided the
    mantissa carries enough digits for a single rounding. *)
Lemma binary_round_aux_finite s m e l :
  0 <= m -> e <= Z.max (Zdigits2 m + e - 53) (-1074) -> Zdigits2 m + e <= 1023 ->
  is_finite_float (binary_round_aux prec emax s m e l) = true.
Proof.
  intros Hm He HD. unfold binary_round_aux.
  destruct (shr_fexp_spec m e l) as (mrs1 & e1 & -> & H1); [lia|].
  set (m1' := round_nearest_even (shr_m mrs1) (loc_of_shr_record mrs1)).
  pose proof (round_nearest_even_bounds (shr_m mrs1) (loc_of_shr_record mrs1)) as Hr.
  fold m1' in Hr.
  pose proof (Zdigits2_nonneg m) as Hdm.
  assert (H1' : 0 <= shr_m mrs1 < 2 ^ 53 /\ e1 <= 970).
  { destruct H1 as [(Hn & He1 & ->)|(Hn & He1 & ->)].
    - split; [|lia]. split; [apply Z.div_pos; [lia|apply pow2_pos; lia]|].
      apply div_pow2_lt; lia.
    - split; [|lia]. split; [lia|]. apply (Zdigits2_le_iff m 53); lia. }
  destruct H1' as [Hm1b He1b].
  assert (Hm1' : 0 <= m1' < 2 ^ 54) by lia.
  assert (Hd1 : Zdigits2 m1' <= 54) by (apply Zdigits2_le_iff; lia).
  destruct (shr_fexp_spec m1' e1 loc_Exact) as (mrs2 & e2 & -> & H2); [lia|].
  assert (H2' : 0 <= shr_m mrs2 /\ e2 <= 971).
  { destruct H2 as [(Hn & He2 & ->)|(Hn & He2 & ->)]; [|lia].
    split; [|lia]. apply Z.div_pos; [lia|apply pow2_pos; lia]. }
  destruct H2' as [Hm2p He2p].
  destruct (shr_m mrs2) as [|p|p]; try lia; [reflexivity|].
  replace (e2 <=? emax - prec) with true; [reflexivity|].
  symmetry. apply Z.leb_le. unfold emax, prec. lia.
Qed.


Lemma float_of_Z_overflow n : 2 ^ 1024 <= n -> float_of_Z n = Raise OverflowError.
Proof.
  intros Hn. unfold float_of_Z.
  assert (Hpos : 0 < n) by (pose proof (pow2_pos 1024); lia).
  destruct n as [|p|p]; try lia.
  assert (Hd : 1025 <= Zdigits2 (Z.pos p)).
  { destruct (Z_lt_le_dec (Zdigits2 (Z.pos p)) 1025) as [Hlt|]; [|lia].
    assert (Z.pos p < 2 ^ 1024) by (apply Zdigits2_le_iff; lia). lia. }
  unfold binary_normalize, binary_round, shl_align.
  change (Z.pos (digits2_pos p)) with (Zdigits2 (Z.pos p)).
  change (fexp prec emax (Zdigits2 (Z.pos p) + 0))
    with (Z.max (Zdigits2 (Z.pos p) + 0 - 53) (-1074)).
  destruct (Z.max (Zdigits2 (Z.pos p) + 0 - 53) (-1074) - 0) as [|q|q] eqn:E; try lia;
    rewrite binary_round_aux_overflow by lia; reflexivity.
Qed.

Lemma SFdiv_core_props pa pb mz ez lz :
  SFdiv_core_binary prec emax (Z.pos pa) 0 (Z.pos pb) 0 = (mz, ez, lz) ->
  ez = Z.min (Z.max (Zdigits2 (Z.pos pa) - Zdigits2 (Z.pos pb) - 53) (-1074)) 0 /\
  mz = (Z.pos pa * 2 ^ (- ez)) / Z.pos pb.
Proof.
  unfold SFdiv_core_binary.
  change (fexp prec emax (Zdigits2 (Z.pos pa) + 0 - (Zdigits2 (Z.pos pb) + 0)))
    with (Z.max (Zdigits2 (Z.pos pa) + 0 - (Zdigits2 (Z.pos pb) + 0) - 53) (-1074)).
  replace (Zdigits2 (Z.pos pa) + 0 - (Zdigits2 (Z.pos pb) + 0) - 53)
    with (Zdigits2 (Z.pos pa) - Zdigits2 (Z.pos pb) - 53) by lia.
  replace (0 - 0) with 0 by lia.
  set (e' := Z.min (Z.max (Zdigits2 (Z.pos pa) - Zdigits2 (Z.pos pb) - 53) (-1074)) 0).
  assert (He' : e' <= 0) by lia.
  set (m' := match 0 - e' with
             | 0 => Z.pos pa
             | Z.pos _ => Z.shiftl (Z.pos pa) (0 - e')
             | Z.neg _ => 0
             end).
  assert (Hm' : m' = Z.pos pa * 2 ^ (- e')).
  { unfold m'. destruct (0 - e') as [|q|q] eqn:Es; try lia.
    - replace (- e') with 0 by lia. lia.
    - rewrite Z.shiftl_mul_pow2 by lia. f_equal. f_equal. lia. }
  clearbody m'.
  destruct (Z.div_eucl m' (Z.pos pb)) as [q r] eqn:Eq.
  intros H. injection H as <- <- _. split; [reflexivity|].
  rewrite <- Hm'. unfold Z.div. rewrite Eq. reflexivity.
Qed.

(** The quotient of two positive integers is a finite float as long as it
    stays below [2^1023]. *)
Lemma int_truediv_returns a b :
  0 <= a -> 0 < b -> a < 2 ^ 1023 * b ->
  exists f, int_truediv a b = Ret f /\ is_finite_float f = true.
Proof.
  intros Ha Hb Hab. unfold int_truediv.
  destruct (Z.eqb_spec b 0) as [|_]; [lia|].
  destruct (Z.eqb_spec a 0) as [|Hne]; [eexists; split; reflexivity|].
  destruct a as [|pa|pa]; try lia. destruct b as [|pb|pb]; try lia.
  change (SFdiv prec emax (Zfloat (Z.pos pa)) (Zfloat (Z.pos pb)))
    with (let '(mz, ez, lz) := SFdiv_core_binary prec emax (Z.pos pa) 0 (Z.pos pb) 0 in
          binary_round_aux prec emax false mz ez lz).
  destruct (SFdiv_core_binary prec emax (Z.pos pa) 0 (Z.pos pb) 0) as [[q e'] lz] eqn:Ecore.
  apply SFdiv_core_props in Ecore as [He' Hq].
  set (da := Zdigits2 (Z.pos pa)) in *. set (db := Zdigits2 (Z.pos pb)) in *.
  pose proof (pow2_pos (- e')) as Hp.
  assert (Hq0 : 0 <= q) by (subst q; apply Z.div_pos; nia).
  assert (Hda : 1 <= da) by (unfold da; rewrite Zdigits2_log2 by lia; pose proof (Z.log2_nonneg (Z.pos pa)); lia).
  assert (Hdb : 1 <= db) by (unfold db; rewrite Zdigits2_log2 by lia; pose proof (Z.log2_nonneg (Z.pos pb)); lia).
  assert (Hfin : is_finite_float (binary_round_aux prec emax false q e' lz) = true).
  { apply binary_round_aux_finite; [lia| |].
    - (* enough digits *)
      destruct (Z.eq_dec e' (-1074)) as [E|E]; [lia|].
      assert (He2 : e' <= da - db - 53) by lia.
      assert (Hlow : 2 ^ (da - db - e' - 1) <= q).
      { rewrite Hq. apply Z.div_le_lower_bound; [lia|].
        pose proof (Zdigits2_lower (Z.pos pa)) as Hl. fold da in Hl.
        assert (Hu : Z.pos pb < 2 ^ db) by (apply Zdigits2_le_iff; unfold db; lia).
        assert (Hsplit : 2 ^ (da - 1) * 2 ^ (- e') = 2 ^ db * 2 ^ (da - db - e' - 1)).
        { rewrite <- !Z.pow_add_r by lia. f_equal. lia. }
        pose proof (pow2_pos (da - db - e' - 1)). pose proof (pow2_pos (da - 1)).
        nia. }
      assert (Hqd : da - db - e' <= Zdigits2 q).
      { destruct (Z_lt_le_dec (Zdigits2 q) (da - db - e')) as [Hlt|]; [|lia].
        assert (q < 2 ^ (da - db - e' - 1)) by (apply Zdigits2_le_iff; lia). lia. }
      lia.
    - assert (Hlt : q < 2 ^ (1023 - e')); [|apply Zdigits2_le_iff in Hlt; lia].
      rewrite Hq. apply Z.div_lt_upper_bound; [lia|].
      replace (1023 - e') with (1023 + - e') by lia. rewrite Z.pow_add_r by lia.
      nia. }
  cbv zeta.
  destruct (binary_round_aux prec emax false q e' lz) as [| | |] eqn:Ef;
    try discriminate Hfin; simpl; eexists; split; reflexivity.
Qed.

(** Multiplying a double by [1.0] is exact. *)
Lemma float_mul_one f :
  valid_binary prec emax f = true -> float_mul float_one f = f.
Proof.
  destruct f as [s|s| |s m e]; try reflexivity.
  unfold valid_binary, bounded, canonical_mantissa. intros H.
  apply andb_prop in H as [Hc Hb]. apply Z.eqb_eq in Hc.
  unfold float_mul, float_one, SFmul. cbn [xorb].
  unfold binary_round_aux.
  assert (E1 : shr_fexp prec emax (Z.pos (4503599627370496 * m)) (-52 + e) loc_Exact
               = ({| shr_m := Z.pos m; shr_r := false; shr_s := false |}, e)).
  { unfold shr_fexp.
    assert (Hd : Zdigits2 (Z.pos (4503599627370496 * m)) = Z.pos (digits2_pos m) + 52).
    { change (Z.pos (digits2_pos m)) with (Zdigits2 (Z.pos m)).
      rewrite !Zdigits2_log2 by lia. rewrite Pos2Z.inj_mul, Z.mul_comm.
      change (Z.pos 4503599627370496) with (2 ^ 52).
      rewrite Z.log2_mul_pow2 by lia. lia. }
    rewrite Hd.
    replace (Z.pos (digits2_pos m) + 52 + (-52 + e)) with (Z.pos (digits2_pos m) + e) by lia.
    rewrite Hc. replace (e - (-52 + e)) with 52 by lia.
    unfold shr. apply pair_equal_spec. split; [reflexivity|lia]. }
  rewrite E1. cbn [shr_m loc_of_shr_record round_nearest_even].
  unfold shr_fexp. cbn [Zdigits2]. rewrite Hc, Z.sub_diag. cbn [shr shr_record_of_loc shr_m].
  rewrite Hb. reflexivity.
Qed.

End FloatFacts.

(** ** [int()] on digit strings *)

Section IntParsing.
Local Open Scope Z_scope.

Lemma is_digit_not_space c : is_digit c = true -> is_space c = false.
Proof.
  unfold is_digit, digit_of, is_space.
  destruct (_ && _) eqn:E; [|discriminate]. intros _.
  apply andb_prop in E as [E1 E2]. apply Z.leb_le in E1. apply Z.leb_le in E2.
  apply orb_false_intro; [apply andb_false_intro2, Z.leb_gt|apply Z.eqb_neq]; lia.
Qed.

Lemma is_digit_value c : is_digit c = true -> digit_of c = Some (ord c - 48).
Proof. unfold is_digit, digit_of. destruct (_ && _); [reflexivity|discriminate]. Qed.

Lemma is_digit_range c : is_digit c = true -> 48 <= ord c <= 57.
Proof.
  unfold is_digit, digit_of. destruct (_ && _) eqn:E; [|discriminate]. intros _.
  apply andb_prop in E as [E1 E2]. apply Z.leb_le in E1. apply Z.leb_le in E2. lia.
Qed.

Lemma lstrip_digit c l : is_digit c = true -> lstrip (c :: l) = c :: l.
Proof. intros H. simpl. rewrite (is_digit_not_space c H). reflexivity. Qed.

Lemma strip_digits l : forallb is_digit l = true -> strip l = l.
Proof.
  intros H. unfold strip.
  assert (H1 : lstrip l = l).
  { destruct l as [|c l]; [reflexivity|]. simpl in H. apply andb_prop in H as [Hc _].
    apply lstrip_digit, Hc. }
  rewrite H1.
  assert (H2 : lstrip (rev l) = rev l).
  { destruct (rev l) as [|c l'] eqn:E; [reflexivity|].
    apply lstrip_digit. rewrite forallb_forall in H. apply H.
    apply in_rev. rewrite E. left. reflexivity. }
  rewrite H2. apply rev_involutive.
Qed.

Lemma int_digits_all acc l :
  forallb is_digit l = true ->
  int_digits acc l = Some (fold_left (fun a c => 10 * a + (ord c - 48)) l acc).
Proof.
  revert acc. induction l as [|c l IH]; intros acc H; [reflexivity|].
  simpl in H. apply andb_prop in H as [Hc Hl].
  simpl. rewrite (is_digit_value c Hc). apply IH, Hl.
Qed.

Lemma count_digits_all l : forallb is_digit l = true -> count_digits l = Z.of_nat (length l).
Proof.
  intros H. unfold count_digits. f_equal.
  induction l as [|c l IH]; [reflexivity|].
  simpl in H. apply andb_prop in H as [Hc Hl]. simpl. rewrite Hc. simpl. f_equal. apply IH, Hl.
Qed.

Lemma length_list_ascii s : length (list_ascii_of_string s) = String.length s.
Proof. induction s as [|c s IH]; simpl; [reflexivity|]. f_equal. exact IH. Qed.

(** [int] reads a digit string within the limit as the integer it
    denotes. *)
Lemma int_of_str_digits s :
  digit_string s = true -> Z.of_nat (String.length s) <= int_max_str_digits ->
  int_of_str s = Ret (digits_value s).
Proof.
  unfold digit_string, int_of_str, int_of_chars, digits_value.
  rewrite <- length_list_ascii.
  destruct (list_ascii_of_string s) as [|c l] eqn:E; [discriminate|]. intros H Hlen.
  cbv zeta. rewrite (strip_digits _ H), (count_digits_all _ H).
  destruct (Z.ltb_spec int_max_str_digits (Z.of_nat (length (c :: l)))) as [|_]; [lia|].
  simpl in H. apply andb_prop in H as [Hc Hl].
  pose proof (is_digit_range c Hc) as Hr.
  destruct (Z.eqb_spec (ord c) 45) as [|_]; [lia|].
  destruct (Z.eqb_spec (ord c) 43) as [|_]; [lia|].
  unfold int_unsigned. rewrite (is_digit_value c Hc).
  rewrite (int_digits_all _ _ Hl). simpl. reflexivity.
Qed.

(** [int] rejects a digit string beyond the limit. *)
Lemma int_of_str_long s :
  digit_string s = true -> int_max_str_digits < Z.of_nat (String.length s) ->
  int_of_str s = Raise ValueError.
Proof.
  unfold digit_string, int_of_str, int_of_chars.
  rewrite <- length_list_ascii.
  destruct (list_ascii_of_string s) as [|c l] eqn:E; [discriminate|]. intros H Hlen.
  cbv zeta. rewrite (strip_digits _ H), (count_digits_all _ H).
  destruct (Z.ltb_spec int_max_str_digits (Z.of_nat (length (c :: l)))) as [_|]; [|lia].
  reflexivity.
Qed.

Lemma digits_value_nonneg s : digit_string s = true -> 0 <= digits_value s.
Proof.
  unfold digit_string, digits_value.
  destruct (list_ascii_of_string s) as [|c l]; [discriminate|].
  generalize (c :: l). clear. intros l H.
  assert (G : forall acc, 0 <= acc -> 0 <= fold_left (fun a c => 10 * a + (ord c - 48)) l acc); [|apply G; lia].
  induction l as [|c l IH]; intros acc Hacc; [exact Hacc|].
  simpl in H. apply andb_prop in H as [Hc Hl]. simpl. apply IH; [exact Hl|].
  pose proof (is_digit_range c Hc). lia.
Qed.

End IntParsing.

Section NumericProps.
Local Open Scope Z_scope.
Variable lm : libm.

Lemma int_truediv_exn a b e :
  int_truediv a b = Raise e -> e = OverflowError \/ e = ZeroDivisionError.
Proof.
  unfold int_truediv. destruct (b =? 0); [intros [= <-]; auto|].
  destruct (a =? 0); [discriminate|].
  destruct (is_inf _); [intros [= <-]; auto|discriminate].
Qed.

Lemma float_of_Z_exn n e : float_of_Z n = Raise e -> e = OverflowError.
Proof. unfold float_of_Z. destruct (is_inf _); [intros [= <-]; auto|discriminate]. Qed.

Lemma float_pow_exn x y e :
  float_pow lm x y = Raise e -> e = OverflowError \/ e = ValueError.
Proof.
  unfold float_pow. destruct (is_zero y); [discriminate|].
  destruct (libm_pow lm x y) as [ix en].
  destruct (adjust_erange ix en); [discriminate|intros [= <-]; auto..].
Qed.

Lemma float_pow_valid x y r :
  float_pow lm x y = Ret r -> valid_binary prec emax r = true.
Proof.
  unfold float_pow. destruct (is_zero y); [intros [= <-]; reflexivity|].
  pose proof (libm_pow_double lm x y) as Hv.
  destruct (libm_pow lm x y) as [ix en].
  destruct (adjust_erange ix en); [intros [= <-]; exact Hv|discriminate..].
Qed.

Lemma int_pow_exn b k e :
  int_pow lm b k = Raise e -> e = OverflowError \/ e = ValueError.
Proof.
  unfold int_pow. destruct (0 <=? k); [discriminate|].
  destruct (float_of_Z b) as [fb|e1] eqn:Eb; simpl; [|intros [= <-]; left; eapply float_of_Z_exn; eauto].
  destruct (float_of_Z k) as [fk|e2] eqn:Ek; simpl; [|intros [= <-]; left; eapply float_of_Z_exn; eauto].
  destruct (float_pow lm fb fk) as [r|e3] eqn:Ep; simpl; [discriminate|].
  intros [= <-]. eapply float_pow_exn; eauto.
Qed.

Lemma float_mul_num_exn x v e : float_mul_num x v = Raise e -> e = OverflowError.
Proof.
  destruct v as [z|f]; simpl; [|discriminate].
  destruct (float_of_Z z) eqn:E; simpl; [discriminate|intros [= <-]; eapply float_of_Z_exn; eauto].
Qed.

Lemma price_body_exn tick d0 d1 e :
  price_body lm tick d0 d1 = Raise e -> e = OverflowError \/ e = ValueError.
Proof.
  unfold price_body, float_pow_int.
  destruct (float_of_Z tick) as [ft|e1] eqn:Et; simpl; [|intros [= <-]; left; eapply float_of_Z_exn; eauto].
  destruct (float_pow lm f_1_0001 ft) as [pu|e2] eqn:Ep; simpl; [|intros [= <-]; eapply float_pow_exn; eauto].
  destruct (int_pow lm 10 (d0 - d1)) as [da|e3] eqn:Ed; simpl; [|intros [= <-]; eapply int_pow_exn; eauto].
  destruct (float_mul_num pu da) as [fp|e4] eqn:Em; simpl; [discriminate|].
  intros [= <-]. left. eapply float_mul_num_exn; eauto.
Qed.

Lemma price_returns tick d0 d1 :
  exists f, calculate_price_from_tick lm tick d0 d1 = Ret f.
Proof.
  unfold calculate_price_from_tick.
  destruct (price_body lm tick d0 d1) as [g|e] eqn:E; [eauto|].
  apply price_body_exn in E as [-> | ->]; eauto.
Qed.

(** Claim C3. [calculate_price_from_tick] is total: for all integers
    [tick], [d0], [d1] it returns a float and never raises. When the
    [try] block returns a value, that value is returned; any exception the
    block can raise is an [OverflowError] or a [ValueError], is caught,
    and the result is [0.0]. *)
Theorem calculate_price_from_tick_total tick d0 d1 :
  exists f, calculate_price_from_tick lm tick d0 d1 = Ret f /\
    (forall g, price_body lm tick d0 d1 = Ret g -> f = g) /\
    (forall e, price_body lm tick d0 d1 = Raise e -> f = float_zero).
Proof.
  unfold calculate_price_from_tick.
  destruct (price_body lm tick d0 d1) as [g|e] eqn:E.
  - exists g. split; [reflexivity|]. split; [intros ? [= <-]; reflexivity|discriminate].
  - exists float_zero. apply price_body_exn in E.
    split; [destruct E as [-> | ->]; reflexivity|].
    split; [discriminate|reflexivity].
Qed.


Lemma int_pow_nonneg b k : 0 <= k -> int_pow lm b k = Ret (PyInt (b ^ k)).
Proof. intros H. unfold int_pow. destruct (Z.leb_spec 0 k); [reflexivity|lia]. Qed.

(** On a digit string within the limit of [int] the function is the
    integer division itself: parsing succeeds and no [except] clause
    applies. *)
Lemma convert_amount_digits s d :
  0 <= d -> digit_string s = true -> Z.of_nat (String.length s) <= int_max_str_digits ->
  convert_amount lm (Some s) d = int_truediv (digits_value s) (10 ^ d).
Proof.
  intros Hd Hs Hlen. unfold convert_amount, py_int.
  rewrite (int_of_str_digits s Hs Hlen). simpl.
  rewrite (int_pow_nonneg 10 d Hd). simpl.
  destruct (int_truediv (digits_value s) (10 ^ d)) as [f|e] eqn:E; [reflexivity|].
  apply int_truediv_exn in E as [-> | ->]; reflexivity.
Qed.

(** Claim C1, as amended. For every [d >= 0] and every digit string [s]
    of at most 4300 digits, [convert_amount(s, d)] behaves as the
    expression [int(s) / 10**d]: it returns the correctly rounded
    quotient, and it does return one (a finite float) whenever
    [int(s) < 2^1023 * 10^d]; a quotient too large for a float makes the
    division raise [OverflowError], which the function does not catch.
    For every [d], a string that [int] rejects, in particular a digit
    string of more than 4300 digits, and a missing amount give [0.0]. *)
Theorem convert_amount_normalizes :
  (forall s d, 0 <= d -> digit_string s = true ->
     Z.of_nat (String.length s) <= int_max_str_digits ->
     convert_amount lm (Some s) d = int_truediv (digits_value s) (10 ^ d) /\
     (digits_value s < 2 ^ 1023 * 10 ^ d ->
      exists f, convert_amount lm (Some s) d = Ret f /\ is_finite_float f = true)) /\
  (forall s d, int_of_str s = Raise ValueError ->
     convert_amount lm (Some s) d = Ret float_zero) /\
  (forall s d, digit_string s = true ->
     int_max_str_digits < Z.of_nat (String.length s) ->
     convert_amount lm (Some s) d = Ret float_zero) /\
  (forall d, convert_amount lm None d = Ret float_zero).
Proof.
  split; [|split; [|split]].
  - intros s d Hd Hs Hlen. split; [apply convert_amount_digits; assumption|].
    intros Hb. rewrite convert_amount_digits by assumption.
    apply int_truediv_returns; [apply digits_value_nonneg, Hs| |exact Hb].
    apply Z.pow_pos_nonneg; lia.
  - intros s d H. unfold convert_amount, py_int. rewrite H. reflexivity.
  - intros s d Hs Hlen. unfold convert_amount, py_int.
    rewrite (int_of_str_long s Hs Hlen). reflexivity.
  - intros d. reflexivity.
Qed.

Lemma pow10_table : forallb pow10_ok (seq 0 309) = true.
Proof. vm_compute. reflexivity. Qed.

Lemma float_of_Z_pow10 k :
  0 <= k <= 308 ->
  exists f, float_of_Z (10 ^ k) = Ret f /\ valid_binary prec emax f = true.
Proof.
  intros Hk. pose proof pow10_table as T. rewrite forallb_forall in T.
  specialize (T (Z.to_nat k)). unfold pow10_ok in T.
  rewrite Z2Nat.id in T by lia.
  destruct (float_of_Z (10 ^ k)) as [f|e]; [|discriminate T; apply in_seq; lia].
  exists f. split; [reflexivity|]. apply T. apply in_seq. lia.
Qed.

Lemma pow10_overflow k : 309 <= k -> float_of_Z (10 ^ k) = Raise OverflowError.
Proof.
  intros Hk. apply float_of_Z_overflow.
  transitivity (10 ^ 309); [vm_compute; discriminate|].
  apply Z.pow_le_mono_r; lia.
Qed.

Lemma bind_Ret {A B} (a : A) (k : A -> PyResult B) : (Ret a ≫= k) = k a.
Proof. reflexivity. Qed.

Lemma float_mul_num_one_int z f :
  float_of_Z z = Ret f -> valid_binary prec emax f = true ->
  float_mul_num float_one (PyInt z) = Ret f.
Proof.
  intros Hf Hv. unfold float_mul_num. rewrite Hf, bind_Ret.
  rewrite (float_mul_one f Hv). reflexivity.
Qed.

Lemma float_mul_num_one_float f :
  valid_binary prec emax f = true -> float_mul_num float_one (PyFloat f) = Ret f.
Proof. intros Hv. unfold float_mul_num. rewrite (float_mul_one f Hv). reflexivity. Qed.

Lemma price_body_tick_zero d0 d1 :
  price_body lm 0 d0 d1 =
  (decimal_adjustment ← int_pow lm 10 (d0 - d1); float_mul_num float_one decimal_adjustment).
Proof.
  unfold price_body. simpl.
  destruct (int_pow lm 10 (d0 - d1)) as [v|e]; simpl; [|reflexivity].
  destruct (float_mul_num float_one v); reflexivity.
Qed.

(** Claim C2, as amended. With [k = d0 - d1]:
    [calculate_price_from_tick(0, d0, d1)] is [0.0] for [k >= 309]
    (converting [10**k] to a float overflows and the error is mapped to
    [0.0]); it is the double nearest to [10**k] for [0 <= k <= 308]; and for
    [k < 0] it is the float that [10 ** k] evaluates to, or [0.0] when that
    evaluation raises. *)
Theorem price_at_tick_zero d0 d1 :
  (309 <= d0 - d1 -> calculate_price_from_tick lm 0 d0 d1 = Ret float_zero) /\
  (0 <= d0 - d1 <= 308 ->
     exists f, float_of_Z (10 ^ (d0 - d1)) = Ret f /\
               calculate_price_from_tick lm 0 d0 d1 = Ret f) /\
  (d0 - d1 < 0 ->
     calculate_price_from_tick lm 0 d0 d1 =
     match int_pow lm 10 (d0 - d1) with
     | Ret (PyFloat f) => Ret f
     | _ => Ret float_zero
     end).
Proof.
  unfold calculate_price_from_tick. rewrite price_body_tick_zero.
  split; [|split]; intros Hk.
  - rewrite int_pow_nonneg, bind_Ret by lia. unfold float_mul_num.
    rewrite pow10_overflow by lia. reflexivity.
  - rewrite int_pow_nonneg, bind_Ret by lia.
    destruct (float_of_Z_pow10 (d0 - d1) Hk) as (f & Hf & Hv).
    exists f. split; [exact Hf|].
    rewrite (float_mul_num_one_int _ f Hf Hv). reflexivity.
  - unfold int_pow. destruct (Z.leb_spec 0 (d0 - d1)); [lia|].
    destruct (float_of_Z 10) as [fb|e1] eqn:Eb;
      [rewrite bind_Ret|apply float_of_Z_exn in Eb as ->; reflexivity].
    destruct (float_of_Z (d0 - d1)) as [fk|e2] eqn:Ek;
      [rewrite bind_Ret|apply float_of_Z_exn in Ek as ->; reflexivity].
    destruct (float_pow lm fb fk) as [r|e3] eqn:Ep.
    + rewrite !bind_Ret.
      rewrite float_mul_num_one_float by (eapply float_pow_valid; eauto). reflexivity.
    + apply float_pow_exn in Ep as [-> | ->]; reflexivity.
Qed.

End NumericProps.

(** The amount [10 ** 309] with [0] decimals: the quotient does not fit a
    float and the function raises. The amount of 4301 digits [1] with 4301
    decimals: [int] rejects the string and the function returns [0.0],
    while the quotient of the integer it denotes by [10 ** 4301] is the
    double nearest to [1/9]. *)
Lemma convert_amount_overflow_cex :
  (digit_string big_amount = true /\
   convert_amount ref_libm (Some big_amount) 0 = Raise OverflowError) /\
  (digit_string long_amount = true /\
   convert_amount ref_libm (Some long_amount) 4301 = Ret float_zero /\
   int_truediv (digits_value long_amount) (10 ^ 4301)
   = Ret (S754_finite false 8006399337547548 (-56))).
Proof. repeat split; vm_compute; reflexivity. Qed.

(** [1.5 * 10**18] with 18 decimals. *)
Lemma convert_amount_normalizes_witness :
  exists f, convert_amount ref_libm (Some "1500000000000000000"%string) 18 = Ret f /\
            is_finite_float f = true.
Proof.
  apply (proj1 (convert_amount_normalizes ref_libm) "1500000000000000000"%string 18%Z);
    [lia | reflexivity | vm_compute; discriminate | vm_compute; reflexivity].
Defined.

(** Tick [0] with decimals [309] and [0]: the result is [0.0] while
    [10 ** 309] is the integer [10^309]. *)
Lemma price_at_tick_zero_cex :
  calculate_price_from_tick ref_libm 0 309 0 = Ret float_zero /\
  int_pow ref_libm 10 (309 - 0) = Ret (PyInt (10 ^ 309)) /\
  py_eqb float_zero (PyInt (10 ^ 309)) = false.
Proof. repeat split; vm_compute; reflexivity. Qed.

(** Tick [0] with decimals [18] and [6]. *)
Lemma price_at_tick_zero_witness :
  exists f, float_of_Z (10 ^ (18 - 6)) = Ret f /\
            calculate_price_from_tick ref_libm 0 18 6 = Ret f.
Proof.
  apply (proj1 (proj2 (price_at_tick_zero ref_libm 18 6))). lia.
Defined.

(** ** The decimal resolver *)

Lemma create_lookup_snoc ts t :
  create_token_decimals_lookup (ts ++ [t]) = lookup_step (create_token_decimals_lookup ts) t.
Proof. unfold create_token_decimals_lookup. rewrite fold_left_app. reflexivity. Qed.

Lemma last_seen_snoc a ts t :
  last_seen a (ts ++ [t]) = if carries a t then entry_of t else last_seen a ts.
Proof.
  unfold last_seen. rewrite List.filter_app. simpl.
  destruct (carries a t); [|rewrite app_nil_r; reflexivity].
  rewrite last_snoc. reflexivity.
Qed.

Lemma truthy_str_nonempty s : truthy_str s = true <-> s <> EmptyString.
Proof. destruct s; simpl; split; intros; congruence. Qed.

Lemma lookup_step_lookup m t a :
  lookup_step m t !! a =
  if truthy_str a && carries a t then entry_of t else m !! a.
Proof.
  unfold lookup_step, carries, entry_of.
  destruct (SmartContract t) as [a'|]; [|rewrite andb_false_r; reflexivity].
  destruct (Decimals t) as [d|]; [|rewrite andb_false_r; reflexivity].
  destruct (String.eqb_spec a' a) as [->|Hne].
  - rewrite andb_true_r. destruct (truthy_str a); [|reflexivity].
    simpl. apply lookup_insert_eq.
  - rewrite andb_false_r. destruct (truthy_str a'); [|reflexivity].
    apply lookup_insert_ne. exact Hne.
Qed.

Lemma lookup_last_seen transfers a :
  create_token_decimals_lookup transfers !! a =
  if truthy_str a then last_seen a transfers else None.
Proof.
  induction transfers as [|t ts IH] using rev_ind.
  - unfold create_token_decimals_lookup. simpl. rewrite lookup_empty.
    destruct (truthy_str a); reflexivity.
  - rewrite create_lookup_snoc, lookup_step_lookup, IH, last_seen_snoc.
    destruct (truthy_str a); simpl; [|reflexivity].
    destruct (carries a t); reflexivity.
Qed.

(** Claim C5. The lookup built from the empty sequence is empty; for
    every sequence of transfers and every identifier [a], the lookup maps
    [a] to the decimals, symbol and name of the last record that carries
    [a] with a decimal count (and has no entry for the empty identifier);
    an identifier whose records all lack a decimal count has no entry.
    The construction is a total function: it cannot raise. *)
Theorem create_token_decimals_lookup_spec :
  create_token_decimals_lookup [] = ∅ /\
  (forall transfers a,
     create_token_decimals_lookup transfers !! a =
     if truthy_str a then last_seen a transfers else None) /\
  (forall transfers a,
     (forall t, In t transfers -> SmartContract t = Some a -> Decimals t = None) ->
     create_token_decimals_lookup transfers !! a = None).
Proof.
  split; [reflexivity|]. split; [apply lookup_last_seen|].
  intros transfers a Hno. rewrite lookup_last_seen.
  destruct (truthy_str a); [|reflexivity].
  unfold last_seen.
  replace (List.filter (carries a) transfers) with (@nil Currency); [reflexivity|].
  symmetry. induction transfers as [|t ts IH]; [reflexivity|]. simpl.
  assert (Hc : carries a t = false).
  { unfold carries. destruct (SmartContract t) as [a'|] eqn:Ea; [|reflexivity].
    destruct (Decimals t) as [d|] eqn:Ed; [|reflexivity].
    destruct (String.eqb_spec a' a) as [->|]; [|reflexivity].
    specialize (Hno t (or_introl eq_refl) Ea). congruence. }
  rewrite Hc. apply IH. intros t' Hin. apply Hno. right. exact Hin.
Qed.

Lemma position_of_call_symbols lm td call p :
  position_of_call lm td call = Ret p ->
  td_symbol (pos_token0 p) = info_symbol (token_info td (td_address (pos_token0 p))) /\
  td_symbol (pos_token1 p) = info_symbol (token_info td (td_address (pos_token1 p))).
Proof.
  unfold position_of_call.
  destruct (for_each returns_step PosFields_init (Returns call)) as [st|]; [|discriminate].
  simpl. destruct (price_band_of lm _ _ _ _) as [band|]; [|discriminate].
  simpl. intros [= <-]. simpl. split; reflexivity.
Qed.

(** What the lookup stores and what the extractor reports. A token
    entered into the lookup from a record without symbol has no symbol in
    the lookup: the key is written with the value [None]. The extractor
    reports for each token what [get] finds at its address. ["Unknown"] is
    reported exactly for a token that is not in the lookup, where [get]
    falls back on its default, and for one whose stored symbol is that
    very string. *)
Lemma symbol_is_stored_as_given transfers :
  (forall a t, truthy_str a = true ->
     last (List.filter (carries a) transfers) = Some t -> Symbol t = None ->
     exists info, create_token_decimals_lookup transfers !! a = Some info /\
                  symbol info = None /\
                  info_symbol (token_info (create_token_decimals_lookup transfers) (Some a))
                  = None) /\
  (forall lm call p,
     position_of_call lm (create_token_decimals_lookup transfers) call = Ret p ->
     td_symbol (pos_token0 p) =
       info_symbol (token_info (create_token_decimals_lookup transfers)
                               (td_address (pos_token0 p))) /\
     td_symbol (pos_token1 p) =
       info_symbol (token_info (create_token_decimals_lookup transfers)
                               (td_address (pos_token1 p)))) /\
  (forall a, info_symbol (token_info (create_token_decimals_lookup transfers) a)
             = Some "Unknown"%string <->
     token_info (create_token_decimals_lookup transfers) a = None \/
     exists info, token_info (create_token_decimals_lookup transfers) a = Some info /\
                  symbol info = Some "Unknown"%string).
Proof.
  split; [|split].
  - intros a t Ha Hlast Hsym.
    pose proof (lookup_last_seen transfers a) as Hl.
    rewrite Ha in Hl. unfold last_seen in Hl. rewrite Hlast in Hl. simpl in Hl.
    assert (Hc : carries a t = true).
    { assert (Hin : In t (List.filter (carries a) transfers)).
      { apply list_elem_of_In. apply last_Some_elem_of. exact Hlast. }
      apply List.filter_In in Hin as [_ Hc]. exact Hc. }
    unfold carries in Hc. unfold entry_of in Hl.
    destruct (SmartContract t); [|discriminate].
    destruct (Decimals t) as [d|]; [|discriminate]. simpl in Hl.
    eexists. split; [exact Hl|]. split; [exact Hsym|].
    simpl. rewrite Hl. simpl. exact Hsym.
  - intros lm call p. apply position_of_call_symbols.
  - intros a. destruct (token_info (create_token_decimals_lookup transfers) a) as [i|];
      cbn [info_symbol].
    + split; [intros H; right; exists i; auto|].
      intros [H|(i' & [= <-] & H)]; [discriminate H|exact H].
    + split; [auto|reflexivity].
Qed.

(** Claim C6: the code at a failing input. The decimals response holds one
    record, for the address [0xA], with 18 decimals and no symbol; a
    [positions] call returns [0xA] as [token0]. The lookup stores the
    symbol [None] for [0xA], and the snapshot of the call reports the
    symbol [None] for it, not ["Unknown"]: [get('symbol', 'Unknown')]
    finds the key. *)
Theorem missing_symbol_is_reported_as_none :
  create_token_decimals_lookup [nosym_transfer] !! "0xA"%string
  = Some {| decimals := 18; symbol := None; name := None |} /\
  exists p, position_of_call ref_libm (create_token_decimals_lookup [nosym_transfer])
              nosym_call = Ret p /\
            td_address (pos_token0 p) = Some "0xA"%string /\
            td_symbol (pos_token0 p) = None /\
            td_symbol (pos_token0 p) <> Some "Unknown"%string.
Proof.
  split; [reflexivity|]. eexists. split; [reflexivity|].
  split; [reflexivity|]. split; [reflexivity|discriminate].
Qed.

(** ** Position snapshots *)

Section PositionProps.
Variable lm : libm.

Lemma name_is_inj a l1 l2 : name_is a l1 = true -> l1 <> l2 -> name_is a l2 = false.
Proof.
  unfold name_is. destruct (Name a) as [n|]; [|discriminate].
  intros H1 Hne. apply String.eqb_eq in H1. subst n.
  apply String.eqb_neq. exact Hne.
Qed.

(** What one entry of [Returns] does to the variable [liquidity]. *)
Lemma returns_step_liquidity st e st' :
  returns_step st e = Ret st' ->
  liquidity st' = if liquidity_entry e then bigInteger (Value e) else liquidity st.
Proof.
  unfold returns_step, liquidity_entry.
  destruct (name_is e "token0") eqn:N0.
  { rewrite (name_is_inj e "token0" "liquidity" N0) by discriminate. simpl.
    destruct (has_key (address (Value e))); simpl; [intros [= <-]; reflexivity|].
    rewrite (name_is_inj e "token0" "token1" N0) by discriminate.
    rewrite (name_is_inj e "token0" "fee" N0) by discriminate.
    rewrite (name_is_inj e "token0" "tickLower" N0) by discriminate.
    rewrite (name_is_inj e "token0" "tickUpper" N0) by discriminate.
    simpl. intros [= <-]; reflexivity. }
  destruct (name_is e "token1") eqn:N1.
  { rewrite (name_is_inj e "token1" "liquidity" N1) by discriminate. simpl.
    destruct (has_key (address (Value e))); simpl; [intros [= <-]; reflexivity|].
    rewrite (name_is_inj e "token1" "fee" N1) by discriminate.
    rewrite (name_is_inj e "token1" "tickLower" N1) by discriminate.
    rewrite (name_is_inj e "token1" "tickUpper" N1) by discriminate.
    simpl. intros [= <-]; reflexivity. }
  simpl.
  destruct (name_is e "liquidity" && has_key (bigInteger (Value e))) eqn:NL;
    [intros [= <-]; reflexivity|].
  destruct (name_is e "fee" && has_key (bigInteger (Value e)));
    [intros [= <-]; reflexivity|].
  destruct (name_is e "tickLower" && has_key (bigInteger (Value e))).
  { destruct (py_int (bigInteger (Value e))); simpl; [intros [= <-]; reflexivity|discriminate]. }
  destruct (name_is e "tickUpper" && has_key (bigInteger (Value e))).
  { destruct (py_int (bigInteger (Value e))); simpl; [intros [= <-]; reflexivity|discriminate]. }
  intros [= <-]; reflexivity.
Qed.

(** An entry of well-formed input never makes the loop raise. *)
Lemma returns_step_returns st e :
  tick_entry_ok e = true -> exists st', returns_step st e = Ret st'.
Proof.
  unfold tick_entry_ok, returns_step. intros Hok.
  destruct (name_is e "token0" && has_key (address (Value e))); [eauto|].
  destruct (name_is e "token1" && has_key (address (Value e))); [eauto|].
  destruct (name_is e "liquidity" && has_key (bigInteger (Value e))); [eauto|].
  destruct (name_is e "fee" && has_key (bigInteger (Value e))); [eauto|].
  destruct (name_is e "tickLower" && has_key (bigInteger (Value e))) eqn:TL.
  { apply andb_prop in TL as [TL HK]. rewrite TL, HK in Hok. simpl in Hok.
    destruct (py_int (bigInteger (Value e))); [simpl; eauto|discriminate]. }
  destruct (name_is e "tickUpper" && has_key (bigInteger (Value e))) eqn:TU.
  { apply andb_prop in TU as [TU HK]. rewrite TU, HK, orb_true_r in Hok. simpl in Hok.
    destruct (py_int (bigInteger (Value e))); [simpl; eauto|discriminate]. }
  eauto.
Qed.

Lemma returns_loop_returns l : forall st,
  forallb tick_entry_ok l = true -> exists st', for_each returns_step st l = Ret st'.
Proof.
  induction l as [|e l IH]; intros st H; simpl; [eauto|].
  simpl in H. apply andb_prop in H as [He Hl].
  destruct (returns_step_returns st e He) as [st1 ->]. simpl. apply IH, Hl.
Qed.

Lemma returns_loop_liquidity v l : forall st st',
  forallb (fun e => if liquidity_entry e
                    then bool_decide (bigInteger (Value e) = Some v)
                    else true) l = true ->
  for_each returns_step st l = Ret st' ->
  liquidity st' = if existsb liquidity_entry l then Some v else liquidity st.
Proof.
  induction l as [|e l IH]; intros st st' Hall Hrun; simpl in *.
  - injection Hrun as <-. reflexivity.
  - apply andb_prop in Hall as [He Hl].
    destruct (returns_step st e) as [st1|] eqn:E1; [|discriminate]. simpl in Hrun.
    rewrite (IH st1 st' Hl Hrun).
    destruct (existsb liquidity_entry l); [rewrite orb_true_r; reflexivity|].
    rewrite orb_false_r. rewrite (returns_step_liquidity _ _ _ E1).
    destruct (liquidity_entry e); [|reflexivity].
    apply bool_decide_eq_true in He. exact He.
Qed.

Lemma find_token_id_none args :
  forallb (fun arg => negb (name_is arg "tokenId")) args = true ->
  find_token_id args = None.
Proof.
  induction args as [|a args IH]; simpl; [reflexivity|]. intros H.
  apply andb_prop in H as [Ha Hl]. apply negb_true_iff in Ha. rewrite Ha. apply IH, Hl.
Qed.

Lemma price_band_of_returns tl tu d0 d1 :
  exists band, price_band_of lm tl tu d0 d1 = Ret band.
Proof.
  unfold price_band_of. destruct tl as [l|]; [|eauto]. destruct tu as [u|]; [|eauto].
  destruct (price_returns lm l d0 d1) as [pl ->].
  destruct (price_returns lm u d0 d1) as [pu ->]. simpl. eauto.
Qed.

(** The extractor on one well-formed call: it returns, with the liquidity
    and the token id read as the loops leave them. *)
Lemma position_of_call_fields td v call :
  ticks_parse call = true -> returns_liquidity v call = true ->
  no_tokenId_argument call = true ->
  exists p, position_of_call lm td call = Ret p /\
            pos_liquidity p = Some v /\ pos_tokenId p = None.
Proof.
  intros Ht Hl Hn. unfold position_of_call.
  destruct (returns_loop_returns (Returns call) PosFields_init Ht) as [st Hst].
  rewrite Hst. simpl.
  destruct (price_band_of_returns (tick_lower st) (tick_upper st)
              (info_decimals (token_info td (token0_address st)))
              (info_decimals (token_info td (token1_address st)))) as [band ->].
  simpl. eexists. split; [reflexivity|]. simpl.
  apply andb_prop in Hl as [Hex Hall].
  rewrite (returns_loop_liquidity v _ _ _ Hall Hst), Hex.
  split; [reflexivity|]. apply find_token_id_none, Hn.
Qed.

Lemma position_of_call_returns td call :
  ticks_parse call = true -> exists p, position_of_call lm td call = Ret p.
Proof.
  intros Ht. unfold position_of_call.
  destruct (returns_loop_returns (Returns call) PosFields_init Ht) as [st ->]. simpl.
  destruct (price_band_of_returns (tick_lower st) (tick_upper st)
              (info_decimals (token_info td (token0_address st)))
              (info_decimals (token_info td (token1_address st)))) as [band ->].
  simpl. eauto.
Qed.

(** On well-formed input the loop returns one snapshot per call, in
    order. *)
Lemma process_position_calls_returns td calls :
  forallb ticks_parse calls = true ->
  exists out, process_position_calls lm td calls = Ret out /\
              Forall2 (fun call p => position_of_call lm td call = Ret p) calls out.
Proof.
  induction calls as [|c calls IH]; intros H; simpl.
  - exists []. split; [reflexivity|constructor].
  - simpl in H. apply andb_prop in H as [Hc Hl].
    destruct (position_of_call_returns td c Hc) as [p Hp]. rewrite Hp. simpl.
    destruct (IH Hl) as (out & -> & HF). simpl.
    exists (p :: out). split; [reflexivity|]. constructor; assumption.
Qed.

(** Claim C7, as amended. In a batch whose tick entries are integer
    literals, a call whose [Returns] hold the liquidity ["123456789"] and
    no other liquidity, and whose [Arguments] hold no [tokenId], yields a
    snapshot with [liquidity = "123456789"] and [tokenId = None], and that
    snapshot is in the output at the position of the call: the loop
    returns one snapshot per call. *)
Theorem snapshot_without_token_id_is_kept td before call after :
  forallb ticks_parse (before ++ call :: after) = true ->
  returns_liquidity "123456789" call = true ->
  no_tokenId_argument call = true ->
  exists out p,
    process_position_calls lm td (before ++ call :: after) = Ret out /\
    length out = length (before ++ call :: after) /\
    out !! length before = Some p /\
    position_of_call lm td call = Ret p /\
    pos_liquidity p = Some "123456789"%string /\
    pos_tokenId p = None.
Proof.
  intros Hwf Hl Hn.
  destruct (process_position_calls_returns td _ Hwf) as (out & Hout & HF).
  assert (Hc : ticks_parse call = true).
  { rewrite forallb_app in Hwf. apply andb_prop in Hwf as [_ Hwf].
    simpl in Hwf. apply andb_prop in Hwf as [Hc _]. exact Hc. }
  destruct (position_of_call_fields td "123456789" call Hc Hl Hn) as (p & Hp & Hliq & Htok).
  exists out, p. split; [exact Hout|].
  split; [symmetry; eapply Forall2_length; exact HF|].
  split; [|auto].
  apply Forall2_app_inv_l in HF as (o1 & o2 & HF1 & HF2 & ->).
  inversion HF2 as [|c p' l1 l2 Hp' HF3]; subst.
  rewrite Hp in Hp'. injection Hp' as <-.
  rewrite (Forall2_length _ _ _ HF1).
  rewrite lookup_app_r by lia. rewrite Nat.sub_diag. reflexivity.
Qed.

End PositionProps.

(** A call returning the liquidity ["123456789"], without [tokenId], whose
    lower tick is not a number: [int] raises, no snapshot is built and
    the processor raises. A call returning that liquidity and then the
    liquidity ["5"]: the snapshot reports ["5"]. *)
Lemma snapshot_without_token_id_is_kept_cex :
  (existsb (fun e => liquidity_entry e
                     && bool_decide (bigInteger (Value e) = Some "123456789"%string))
           (Returns liquidity_call_bad_tick) = true /\
   no_tokenId_argument liquidity_call_bad_tick = true /\
   position_of_call ref_libm ∅ liquidity_call_bad_tick = Raise ValueError /\
   process_positions_with_decimals ref_libm [liquidity_call_bad_tick] [usdc_transfer]
   = Raise ValueError) /\
  (existsb (fun e => liquidity_entry e
                     && bool_decide (bigInteger (Value e) = Some "123456789"%string))
           (Returns liquidity_call_twice) = true /\
   no_tokenId_argument liquidity_call_twice = true /\
   exists p, position_of_call ref_libm ∅ liquidity_call_twice = Ret p /\
             pos_liquidity p = Some "5"%string).
Proof.
  split; [repeat split; vm_compute; reflexivity|].
  split; [vm_compute; reflexivity|]. split; [reflexivity|].
  eexists. split; [vm_compute; reflexivity|reflexivity].
Qed.

(** ** Mint events *)

Section MintProps.
Variable lm : libm.

(** An argument that is not "index 0 with an address" leaves [token0]
    as it is. *)
Lemma mint_arg_step_token0 params arg params' :
  negb (index_is arg 0 && has_key (address (Value arg))) = true ->
  mint_arg_step params arg = Ret params' ->
  p_token0 params' = p_token0 params.
Proof.
  intros H0. apply negb_true_iff in H0.
  destruct params. unfold mint_arg_step. rewrite H0.
  repeat match goal with
  | |- context [if ?c && ?d then _ else _] => destruct (c && d)
  end;
  try (intros [= <-]; reflexivity);
  destruct (py_int (bigInteger (Value arg))); simpl;
  try discriminate; intros [= <-]; reflexivity.
Qed.

Lemma mint_arg_step_returns params arg :
  tick_arg_ok arg = true -> exists params', mint_arg_step params arg = Ret params'.
Proof.
  unfold tick_arg_ok. intros Hok. destruct params. unfold mint_arg_step.
  destruct (index_is arg 0 && _); [eauto|].
  destruct (index_is arg 1 && _); [eauto|].
  destruct (index_is arg 2 && _); [eauto|].
  destruct (index_is arg 3 && has_key (bigInteger (Value arg))) eqn:T3.
  { apply andb_prop in T3 as [T3 HK]. rewrite T3, HK in Hok. simpl in Hok.
    destruct (py_int (bigInteger (Value arg))); [simpl; eauto|discriminate]. }
  destruct (index_is arg 4 && has_key (bigInteger (Value arg))) eqn:T4.
  { apply andb_prop in T4 as [T4 HK]. rewrite T4, HK, orb_true_r in Hok. simpl in Hok.
    destruct (py_int (bigInteger (Value arg))); [simpl; eauto|discriminate]. }
  repeat match goal with
  | |- context [if ?c && ?d then _ else _] => destruct (c && d)
  end; eauto.
Qed.

Lemma parse_mint_loop args : forall params,
  forallb tick_arg_ok args = true ->
  forallb (fun arg => negb (index_is arg 0 && has_key (address (Value arg)))) args = true ->
  exists params', for_each mint_arg_step params args = Ret params' /\
                  p_token0 params' = p_token0 params.
Proof.
  induction args as [|arg args IH]; intros params Hok Hno; simpl.
  - eauto.
  - simpl in Hok, Hno. apply andb_prop in Hok as [Ha Hok]. apply andb_prop in Hno as [Hn Hno].
    destruct (mint_arg_step_returns params arg Ha) as [p1 Hp1]. rewrite Hp1. simpl.
    destruct (IH p1 Hok Hno) as (p2 & -> & Heq).
    exists p2. split; [reflexivity|].
    rewrite Heq. eapply mint_arg_step_token0; eauto.
Qed.

Lemma mint_event_skipped td call :
  tick_args_parse call = true -> lacks_token0 call = true ->
  mint_event_of_call lm td call = Ret None.
Proof.
  intros Hok Hno. unfold mint_event_of_call, parse_mint_burn_arguments.
  destruct (parse_mint_loop (Arguments call) MintParams_empty Hok Hno) as (params & -> & H0).
  simpl in H0. simpl. rewrite H0. reflexivity.
Qed.

(** Claim C4, as amended. In a batch of mint calls, a call whose tick
    arguments, if any, are integer literals and that has no argument of
    index 0 carrying an address (in particular a call with neither token
    address) yields no event, and the loop goes on: the processed list is
    the one obtained from the batch without that call. *)
Theorem mint_without_token0_is_skipped td before call after :
  tick_args_parse call = true -> lacks_token0 call = true ->
  mint_event_of_call lm td call = Ret None /\
  process_mint_calls lm td (before ++ call :: after) =
  process_mint_calls lm td (before ++ after).
Proof.
  intros Hok Hno. pose proof (mint_event_skipped td call Hok Hno) as Hskip.
  split; [exact Hskip|].
  induction before as [|c before IH]; simpl.
  - rewrite Hskip. simpl.
    destruct (process_mint_calls lm td after); reflexivity.
  - rewrite IH. reflexivity.
Qed.

End MintProps.

(** A mint call with neither token address whose lower tick is not a
    number: the arguments are parsed before the addresses are tested,
    [int] raises, and the error leaves the processor, which returns
    nothing for the batch. *)
Lemma mint_without_token0_is_skipped_cex :
  lacks_token0 mint_call_no_tokens_bad_tick = true /\
  mint_event_of_call ref_libm ∅ mint_call_no_tokens_bad_tick = Raise ValueError /\
  process_mint_calls ref_libm ∅
    ([mint_call_named] ++ mint_call_no_tokens_bad_tick :: [mint_call_named])
  = Raise ValueError /\
  process_mint_events_with_decimals ref_libm
    ([mint_call_named] ++ mint_call_no_tokens_bad_tick :: [mint_call_named])
    [usdc_transfer]
  = Raise ValueError.
Proof. repeat split; vm_compute; reflexivity. Qed.

(** ** Burn events *)

Lemma burn_loop_found args : forall cur v,
  fold_left burn_arg_step args cur = Some v ->
  cur = Some v \/
  exists arg, In arg args /\ name_is arg "tokenId" = true /\ bigInteger (Value arg) = Some v.
Proof.
  induction args as [|a args IH]; intros cur v H; simpl in H; [left; exact H|].
  apply IH in H as [H|(arg & Hin & Hn & Hv)].
  - unfold burn_arg_step in H.
    destruct (name_is a "tokenId" && has_key (bigInteger (Value a))) eqn:E; [|left; exact H].
    apply andb_prop in E as [En _]. right. exists a. split; [left; reflexivity|]. split; assumption.
  - right. exists arg. split; [right; exact Hin|]. split; assumption.
Qed.

Lemma burn_loop_falsy args : forall cur,
  truthy cur = false ->
  forallb (fun arg => negb (name_is arg "tokenId" && truthy (bigInteger (Value arg)))) args = true ->
  truthy (fold_left burn_arg_step args cur) = false.
Proof.
  induction args as [|a args IH]; intros cur Hcur H; simpl; [exact Hcur|].
  simpl in H. apply andb_prop in H as [Ha Hl]. apply IH; [|exact Hl].
  unfold burn_arg_step. apply negb_true_iff in Ha.
  destruct (name_is a "tokenId"); simpl in *; [|exact Hcur].
  destruct (has_key (bigInteger (Value a))); [exact Ha|exact Hcur].
Qed.

Lemma process_burn_events_app l1 l2 :
  process_burn_events (l1 ++ l2) = process_burn_events l1 ++ process_burn_events l2.
Proof.
  induction l1 as [|c l1 IH]; simpl; [reflexivity|].
  destruct (burn_event_of_call c); simpl; rewrite IH; reflexivity.
Qed.

Lemma burn_event_token_id call ev :
  burn_event_of_call call = Some ev ->
  burn_tokenId ev = parse_burn_arguments (Arguments call) /\
  truthy (burn_tokenId ev) = true.
Proof.
  unfold burn_event_of_call.
  destruct (truthy (parse_burn_arguments (Arguments call))) eqn:E; simpl; [|discriminate].
  intros [= <-]. simpl. split; [reflexivity|exact E].
Qed.

Lemma truthy_Some o : truthy o = true -> exists s, o = Some s /\ s <> EmptyString.
Proof.
  destruct o as [s|]; simpl; [|discriminate]. intros H. exists s. split; [reflexivity|].
  destruct s; [discriminate|congruence].
Qed.

(** The loop keeps the big integer of the last argument named [tokenId]
    that has one. *)
Lemma burn_loop_last before arg after : forall cur,
  name_is arg "tokenId" = true -> has_key (bigInteger (Value arg)) = true ->
  forallb (fun a => negb (name_is a "tokenId" && has_key (bigInteger (Value a)))) after
    = true ->
  fold_left burn_arg_step (before ++ arg :: after) cur = bigInteger (Value arg).
Proof.
  intros cur Hn Hk Ha. rewrite fold_left_app. simpl.
  generalize (fold_left burn_arg_step before cur). intros cur'.
  assert (Hs : burn_arg_step cur' arg = bigInteger (Value arg))
    by (unfold burn_arg_step; rewrite Hn, Hk; reflexivity).
  rewrite Hs. generalize (bigInteger (Value arg)). clear -Ha.
  induction after as [|a after IH]; intros v; simpl; [reflexivity|].
  simpl in Ha. apply andb_prop in Ha as [H1 H2]. apply negb_true_iff in H1.
  unfold burn_arg_step at 2. rewrite H1. apply IH, H2.
Qed.

(** Claim C10. The token id of a burn call is searched among its
    arguments: what is found is the big integer of an argument named
    [tokenId], and it is the one of the last such argument that has a big
    integer. A call in which no such argument holds a non-empty big
    integer yields no event while the rest of the batch is processed as
    before; a call for which a non-empty token id is found yields an event
    with that token id, at its place in the output; every emitted event
    carries a non-empty [tokenId]. *)
Theorem burn_events_carry_token_id :
  (forall args v, parse_burn_arguments args = Some v ->
     exists arg, In arg args /\ name_is arg "tokenId" = true /\
                 bigInteger (Value arg) = Some v) /\
  (forall before arg after,
     name_is arg "tokenId" = true -> has_key (bigInteger (Value arg)) = true ->
     forallb (fun a => negb (name_is a "tokenId" && has_key (bigInteger (Value a))))
       after = true ->
     parse_burn_arguments (before ++ arg :: after) = bigInteger (Value arg)) /\
  (forall before call after, lacks_token_id call = true ->
     burn_event_of_call call = None /\
     process_burn_events (before ++ call :: after) =
     process_burn_events before ++ process_burn_events after) /\
  (forall before call after v,
     parse_burn_arguments (Arguments call) = Some v -> v <> EmptyString ->
     process_burn_events (before ++ call :: after) =
     process_burn_events before
       ++ {| burn_event_type := default "burn"%string (Signature_Name call);
             burn_tokenId := Some v;
             burn_transaction := Transaction call;
             burn_block := Block call |}
       :: process_burn_events after) /\
  (forall calls ev, In ev (process_burn_events calls) ->
     exists s, burn_tokenId ev = Some s /\ s <> EmptyString).
Proof.
  split; [|split; [|split; [|split]]].
  - intros args v H. unfold parse_burn_arguments in H.
    apply burn_loop_found in H as [H|H]; [discriminate|exact H].
  - intros before arg after Hn Hk Ha. apply burn_loop_last; assumption.
  - intros before call after Hno.
    assert (Hskip : burn_event_of_call call = None).
    { unfold burn_event_of_call, parse_burn_arguments.
      rewrite (burn_loop_falsy (Arguments call) None eq_refl Hno). reflexivity. }
    split; [exact Hskip|].
    rewrite process_burn_events_app. simpl. rewrite Hskip. reflexivity.
  - intros before call after v Hv Hne.
    rewrite process_burn_events_app. cbn [process_burn_events].
    unfold burn_event_of_call. rewrite Hv.
    assert (Ht : truthy (Some v) = true)
      by (apply truthy_str_nonempty, Hne).
    rewrite Ht. reflexivity.
  - intros calls ev. induction calls as [|c calls IH]; simpl; [intros []|].
    destruct (burn_event_of_call c) as [ev'|] eqn:E; [|exact IH].
    intros [<-|Hin]; [|apply IH, Hin].
    apply burn_event_token_id in E as [_ Ht]. apply truthy_Some, Ht.
Qed.

(** ** The aggregator *)

Section OrderedDict.
Context {V : Type}.
Implicit Types (d : list (string * V)) (k : string) (v : V).

Lemma od_lookup_set_eq k v d : od_lookup k (od_set k v d) = Some v.
Proof.
  induction d as [|[k' v'] d IH]; simpl.
  - rewrite String.eqb_refl. reflexivity.
  - destruct (String.eqb_spec k' k) as [->|Hne]; simpl.
    + rewrite String.eqb_refl. reflexivity.
    + destruct (String.eqb_spec k' k); [contradiction|exact IH].
Qed.

Lemma od_lookup_set_ne k k' v d : k <> k' -> od_lookup k' (od_set k v d) = od_lookup k' d.
Proof.
  intros Hne. induction d as [|[k0 v0] d IH]; simpl.
  - destruct (String.eqb_spec k k'); [contradiction|reflexivity].
  - destruct (String.eqb_spec k0 k) as [->|Hk]; simpl.
    + destruct (String.eqb_spec k k'); [contradiction|reflexivity].
    + rewrite IH. reflexivity.
Qed.

Lemma od_lookup_None k d : od_lookup k d = None <-> k ∉ d.*1.
Proof.
  induction d as [|[k0 v0] d IH]; simpl.
  - split; [intros _; apply not_elem_of_nil|reflexivity].
  - rewrite not_elem_of_cons. destruct (String.eqb_spec k0 k) as [->|Hk].
    + split; [discriminate|intros [H _]; contradiction].
    + rewrite IH. split; [intros H; split; [congruence|exact H]|intros [_ H]; exact H].
Qed.

Lemma od_set_keys k v d :
  (od_set k v d).*1 = if decide (k ∈ d.*1) then d.*1 else d.*1 ++ [k].
Proof.
  induction d as [|[k0 v0] d IH].
  - rewrite decide_False by apply not_elem_of_nil. reflexivity.
  - cbn [od_set]. destruct (String.eqb_spec k0 k) as [->|Hk].
    + rewrite fmap_cons. cbn [fst]. rewrite fmap_cons. cbn [fst].
      rewrite decide_True by left. reflexivity.
    + rewrite !fmap_cons. cbn [fst]. rewrite IH.
      destruct (decide (k ∈ d.*1)) as [Hin|Hnin].
      * rewrite decide_True by (right; exact Hin). reflexivity.
      * rewrite decide_False; [reflexivity|].
        intros H. apply elem_of_cons in H as [->|H]; contradiction.
Qed.

Lemma od_lookup_map {W} (f : V -> W) k d :
  od_lookup k (map (fun kv => (fst kv, f (snd kv))) d) = f <$> od_lookup k d.
Proof.
  induction d as [|[k0 v0] d IH]; simpl; [reflexivity|].
  destruct (String.eqb k0 k); [reflexivity|exact IH].
Qed.

End OrderedDict.

Section AggregatorProps.
Variable float_of_str : string -> option float.

Lemma fold_events_snoc evs ev :
  fold_events float_of_str (evs ++ [ev]) =
  fold_event float_of_str (fold_events float_of_str evs) ev.
Proof. unfold fold_events. rewrite fold_left_app. reflexivity. Qed.

Lemma fold_event_keys cs ev :
  (fold_event float_of_str cs ev).*1 =
  if decide (creator_address ev ∈ cs.*1) then cs.*1 else cs.*1 ++ [creator_address ev].
Proof. unfold fold_event. apply od_set_keys. Qed.

Lemma fold_event_lookup cs ev a :
  od_lookup a (fold_event float_of_str cs ev) =
  if String.eqb (creator_address ev) a
  then Some (update_stats float_of_str (default Stats_default (od_lookup a cs)) ev)
  else od_lookup a cs.
Proof.
  unfold fold_event. destruct (String.eqb_spec (creator_address ev) a) as [->|Hne].
  - apply od_lookup_set_eq.
  - apply od_lookup_set_ne, Hne.
Qed.

Lemma fold_events_keys evs :
  NoDup (fold_events float_of_str evs).*1 /\
  forall a, a ∈ (fold_events float_of_str evs).*1 <-> a ∈ creator_address <$> evs.
Proof.
  induction evs as [|ev evs [IHn IHk]] using rev_ind.
  - split; [constructor|]. intros a. reflexivity.
  - rewrite fold_events_snoc, fold_event_keys, fmap_app.
    change (creator_address <$> [ev]) with [creator_address ev].
    destruct (decide (creator_address ev ∈ (fold_events float_of_str evs).*1)) as [Hin|Hnin].
    + split; [exact IHn|]. intros a. rewrite elem_of_app, <- IHk.
      rewrite list_elem_of_singleton. split; [auto|]. intros [H| ->]; assumption.
    + split.
      * apply NoDup_app. split; [exact IHn|]. split; [|apply NoDup_singleton].
        intros x Hx Hx'. apply list_elem_of_singleton in Hx'. subst x. contradiction.
      * intros a. rewrite !elem_of_app, IHk. reflexivity.
Qed.

(** The counter of an address is the number of its events so far. *)
Lemma fold_events_count evs a :
  total_positions (default Stats_default (od_lookup a (fold_events float_of_str evs))) =
  Z.of_nat (length (List.filter (fun ev => String.eqb (creator_address ev) a) evs)).
Proof.
  induction evs as [|ev evs IH] using rev_ind; [reflexivity|].
  rewrite fold_events_snoc, List.filter_app, length_app, fold_event_lookup. simpl.
  destruct (String.eqb (creator_address ev) a); simpl; rewrite IH; lia.
Qed.

(** Claim C8. For a non-empty batch of [N] events that all come from one
    address, the result holds [total_positions = N] for that address; and
    for every batch the keys of the result are distinct and as many as
    the distinct addresses of the batch. *)
Theorem aggregator_counts_events_and_addresses evs :
  (forall a, evs <> [] -> Forall (fun ev => creator_address ev = a) evs ->
     exists st, od_lookup a (analyze_top_creators float_of_str evs) = Some st /\
                total_positions (acc st) = Z.of_nat (length evs)) /\
  NoDup (analyze_top_creators float_of_str evs).*1 /\
  length (analyze_top_creators float_of_str evs) =
  size (list_to_set (creator_address <$> evs) : gset string).
Proof.
  destruct (fold_events_keys evs) as [Hnd Hk].
  assert (Hkeys : (analyze_top_creators float_of_str evs).*1 = (fold_events float_of_str evs).*1).
  { unfold analyze_top_creators. rewrite <- list_fmap_compose. reflexivity. }
  split; [|split].
  - intros a Hne Hall. unfold analyze_top_creators. rewrite od_lookup_map.
    destruct (od_lookup a (fold_events float_of_str evs)) as [st|] eqn:E.
    + exists (finish_stats st). split; [reflexivity|]. simpl.
      pose proof (fold_events_count evs a) as Hc. rewrite E in Hc. simpl in Hc. rewrite Hc.
      f_equal. f_equal. clear -Hall. induction Hall as [|ev evs Hev _ IH]; [reflexivity|].
      simpl. rewrite Hev, String.eqb_refl. simpl. f_equal. exact IH.
    + exfalso. apply od_lookup_None in E. apply E, Hk.
      destruct evs as [|ev evs]; [contradiction|].
      inversion Hall; subst. left.
  - rewrite Hkeys. exact Hnd.
  - rewrite <- (length_fmap fst), Hkeys.
    rewrite <- (size_list_to_set (C:=gset string)) by exact Hnd.
    f_equal. apply set_eq. intros a. rewrite !elem_of_list_to_set. apply Hk.
Qed.

End AggregatorProps.

(** ** The ranker *)

Section SortedProps.
Context {A K : Type} (ltb : K -> K -> bool) (key : A -> K).
Context (ge : K -> K -> Prop) (ok : A -> Prop).

(** The two facts about the comparison that sorting relies on: a key
    strictly below another is not above it, and of two comparable keys
    one that is not strictly below the other is at least the other. *)
Hypothesis lt_ge : forall x y, ltb (key x) (key y) = true -> ge (key y) (key x).
Hypothesis nlt_ge : forall x y, ok x -> ok y -> ltb (key x) (key y) = false -> ge (key x) (key y).

Let desc (a b : A) : Prop := ge (key a) (key b).

Lemma insert_desc_Permutation x l : insert_desc ltb key x l ≡ₚ x :: l.
Proof.
  induction l as [|y l IH]; simpl; [reflexivity|].
  destruct (ltb (key x) (key y)); [|reflexivity].
  rewrite IH. apply Permutation_swap.
Qed.

Lemma sorted_desc_Permutation l : sorted_desc ltb key l ≡ₚ l.
Proof.
  induction l as [|x l IH]; simpl; [reflexivity|].
  rewrite insert_desc_Permutation, IH. reflexivity.
Qed.

Lemma insert_desc_HdRel x y l :
  desc y x -> HdRel desc y l -> HdRel desc y (insert_desc ltb key x l).
Proof.
  intros Hyx Hl. destruct l as [|z l]; simpl; [constructor; exact Hyx|].
  destruct (ltb (key x) (key z)); constructor; [|exact Hyx].
  inversion Hl; assumption.
Qed.

Lemma insert_desc_Sorted x l :
  ok x -> Forall ok l -> Sorted desc l -> Sorted desc (insert_desc ltb key x l).
Proof.
  intros Hx Hok Hs. induction Hs as [|y l Hs IH Hhd]; simpl.
  - constructor; constructor.
  - inversion Hok as [|? ? Hy Hl]; subst.
    destruct (ltb (key x) (key y)) eqn:E.
    + constructor; [apply IH, Hl|].
      apply insert_desc_HdRel; [apply lt_ge, E|exact Hhd].
    + constructor; [constructor; assumption|].
      constructor. apply nlt_ge; assumption.
Qed.

Lemma sorted_desc_Sorted l : Forall ok l -> Sorted desc (sorted_desc ltb key l).
Proof.
  induction l as [|x l IH]; intros Hok; simpl; [constructor|].
  inversion Hok as [|? ? Hx Hl]; subst.
  apply insert_desc_Sorted; [exact Hx| |apply IH, Hl].
  rewrite sorted_desc_Permutation. exact Hl.
Qed.

Lemma Sorted_take (R : A -> A -> Prop) n l : Sorted R l -> Sorted R (take n l).
Proof.
  intros Hs. revert n. induction Hs as [|x l Hs IH Hhd]; intros [|n]; simpl; try constructor.
  - apply IH.
  - destruct Hhd as [|y l' Hxy]; [destruct n; constructor|].
    destruct n; constructor. exact Hxy.
Qed.

Lemma Sorted_adjacent (R : A -> A -> Prop) l :
  Sorted R l -> forall i a b, l !! i = Some a -> l !! S i = Some b -> R a b.
Proof.
  induction 1 as [|x l Hs IH Hhd]; intros i a b Ha Hb; [discriminate|].
  destruct i as [|i]; simpl in *.
  - injection Ha as <-. destruct Hhd as [|y l' Hxy]; [discriminate|].
    simpl in Hb. injection Hb as <-. exact Hxy.
  - eapply IH; eauto.
Qed.

(** The ranking of the first [n] entries in descending key order. *)
Lemma top_sorted_desc (n : Z) l :
  (0 < n)%Z -> Forall ok l ->
  let r := slice_to n (sorted_desc ltb key l) in
  length r = Nat.min (Z.to_nat n) (length l) /\
  (forall i a b, r !! i = Some a -> r !! S i = Some b -> ge (key a) (key b)) /\
  (exists rest, r ++ rest ≡ₚ l) /\
  (length l <= Z.to_nat n -> r ≡ₚ l).
Proof.
  intros Hn Hok r.
  assert (Hr : r = take (Z.to_nat n) (sorted_desc ltb key l)).
  { unfold r, slice_to. destruct (Z.leb_spec 0 n); [reflexivity|lia]. }
  pose proof (sorted_desc_Permutation l) as Hp.
  rewrite Hr. split; [|split; [|split]].
  - rewrite length_take, (Permutation_length Hp). reflexivity.
  - apply (Sorted_adjacent desc). apply Sorted_take. apply sorted_desc_Sorted, Hok.
  - exists (drop (Z.to_nat n) (sorted_desc ltb key l)). rewrite take_drop. exact Hp.
  - intros Hlen. rewrite take_ge by (rewrite (Permutation_length Hp); exact Hlen). exact Hp.
Qed.

End SortedProps.

Lemma SFcompare_antisym x y :
  SFcompare y x = CompOpp <$> SFcompare x y.
Proof.
  destruct x as [sx|sx| |sx mx ex], y as [sy|sy| |sy my ey]; simpl;
    try reflexivity; try (destruct sx; reflexivity); try (destruct sy; reflexivity);
    try (destruct sx, sy; reflexivity).
  destruct sx, sy; simpl; try reflexivity;
    rewrite (Z.compare_antisym ey ex); destruct (ey ?= ex)%Z; simpl; try reflexivity;
    rewrite Pos.compare_cont_antisym; rewrite ?CompOpp_involutive; reflexivity.
Qed.

Lemma float_ltb_geb x y : float_ltb x y = true -> float_geb y x = true.
Proof.
  unfold float_ltb, float_geb, SFltb, SFleb.
  destruct (SFcompare x y) as [[]|]; try discriminate. reflexivity.
Qed.

Lemma float_not_ltb_geb x y :
  is_nan x = false -> is_nan y = false -> float_ltb x y = false -> float_geb x y = true.
Proof.
  unfold float_ltb, float_geb, SFltb, SFleb. intros Hx Hy.
  rewrite (SFcompare_antisym x y).
  destruct (SFcompare x y) as [[]|] eqn:E; simpl; try reflexivity; try discriminate.
  destruct x, y; simpl in *; discriminate.
Qed.

(** A slice of a rearrangement of [l] by a positive bound. *)
Lemma top_selection {A} (n : Z) (l l' : list A) :
  (0 < n)%Z -> l' ≡ₚ l ->
  length (slice_to n l') = Nat.min (Z.to_nat n) (length l) /\
  (exists rest, slice_to n l' ++ rest ≡ₚ l) /\
  (length l <= Z.to_nat n -> slice_to n l' ≡ₚ l).
Proof.
  intros Hn Hp. unfold slice_to. destruct (Z.leb_spec 0 n); [|lia].
  split; [|split].
  - rewrite length_take, (Permutation_length Hp). reflexivity.
  - exists (drop (Z.to_nat n) l'). rewrite take_drop. exact Hp.
  - intros Hlen. rewrite take_ge by (rewrite (Permutation_length Hp); exact Hlen). exact Hp.
Qed.

Lemma no_nan_forallb (stats : list (string * CreatorStats)) :
  Forall (fun x => is_nan (m_usd_value x) = false) stats ->
  forallb (fun x => negb (is_nan (m_usd_value x))) stats = true.
Proof.
  intros H. apply forallb_forall. intros x Hx.
  rewrite List.Forall_forall in H. rewrite (H x Hx). reflexivity.
Qed.

(** Claim C9, as amended. For every list of statistics and every positive
    [top_n], each of the four rankings has [min(top_n, |stats|)] entries
    taken from [stats], and holds all of them when [top_n] is not below
    [|stats|]. In the rankings by positions, by liquidity and by unique
    pairs every entry's metric is at least the next entry's; so it is in
    the ranking by USD value when no USD total is a NaN. *)
Theorem rank_creators_ranks fs stats top_n :
  (0 < top_n)%Z ->
  ranking_ok Z_ge m_positions stats top_n (by_positions (rank_creators fs stats top_n)) /\
  ranking_ok Z_ge m_liquidity stats top_n (by_liquidity (rank_creators fs stats top_n)) /\
  ranking_ok Z_ge m_unique_pairs stats top_n
    (by_unique_pairs (rank_creators fs stats top_n)) /\
  selection_ok stats top_n (by_usd_value (rank_creators fs stats top_n)) /\
  (Forall (fun x => is_nan (m_usd_value x) = false) stats ->
   ranking_ok float_ge m_usd_value stats top_n
     (by_usd_value (rank_creators fs stats top_n))).
Proof.
  intros Hn. unfold rank_creators.
  cbn [by_positions by_liquidity by_usd_value by_unique_pairs].
  assert (HT : Forall (fun _ : string * CreatorStats => True) stats)
    by (apply Forall_forall; auto).
  assert (HZ : forall key : string * CreatorStats -> Z,
            ranking_ok Z_ge key stats top_n (slice_to top_n (sorted_desc Z.ltb key stats))).
  { intros key. apply (top_sorted_desc Z.ltb key Z_ge (fun _ => True)); auto;
      unfold Z_ge; intros x y; rewrite ?Z.ltb_lt, ?Z.ltb_ge; lia. }
  split; [apply HZ|]. split; [apply HZ|]. split; [apply HZ|]. split.
  - apply top_selection; [exact Hn|apply sorted_by_float_perm].
  - intros Hnan. rewrite (sorted_by_float_total fs _ _ _ (no_nan_forallb _ Hnan)).
    apply (top_sorted_desc float_ltb m_usd_value float_ge
             (fun x => is_nan (m_usd_value x) = false)); auto;
      unfold float_ge; intros x y; [apply float_ltb_geb|apply float_not_ltb_geb].
Qed.

(** Two creators whose USD totals are a NaN and [1.0]: however the two
    are sorted, the first entry's total is not at least the second's, as
    no comparison with a NaN holds. *)
Lemma rank_creators_nan_cex :
  ~ exists fs, ranking_ok float_ge m_usd_value nan_stats 2
                 (by_usd_value (rank_creators fs nan_stats 2)).
Proof.
  intros [fs (_ & Hord & _)]. unfold rank_creators in Hord. cbn [by_usd_value] in Hord.
  pose proof (sorted_by_float_perm fs _ m_usd_value nan_stats) as Hp.
  symmetry in Hp. unfold nan_stats in Hp at 1.
  apply Permutation_length_2_inv in Hp as [Hp|Hp]; rewrite Hp in Hord.
  - specialize (Hord 0%nat _ _ eq_refl eq_refl). discriminate Hord.
  - specialize (Hord 0%nat _ _ eq_refl eq_refl). discriminate Hord.
Qed.

(** ** The embedded functions on sample data *)

Example convert_amount_one_and_a_half :
  convert_amount ref_libm (Some "1500000000000000000"%string) 18
  = Ret (S754_finite false 6755399441055744 (-52)).
Proof. vm_compute. reflexivity. Qed.

Example convert_amount_not_a_number :
  convert_amount ref_libm (Some "not-a-number"%string) 18 = Ret float_zero.
Proof. vm_compute. reflexivity. Qed.

Example literal_1_0001 :
  int_truediv 10001 10000 = Ret f_1_0001.
Proof. vm_compute. reflexivity. Qed.

Example price_at_tick_one :
  calculate_price_from_tick ref_libm 1 18 18 = Ret f_1_0001.
Proof. vm_compute. reflexivity. Qed.

Example mint_batch :
  exists ev1 ev2,
    process_mint_calls ref_libm (create_token_decimals_lookup [nosym_transfer; usdc_transfer])
      [mint_call_full; mint_call_no_token0; mint_call_full] = Ret [ev1; ev2] /\
    amount0_desired (mint_amounts ev1) = S754_finite false 6755399441055744 (-52) /\
    td_symbol (mint_token1 ev1) = Some "USDC"%string /\
    td_symbol (mint_token0 ev1) = None.
Proof. eexists _, _. split; [vm_compute; reflexivity|]. repeat split. Qed.

Example burn_batch :
  map burn_tokenId (process_burn_events [burn_call "42"; burn_call ""; nosym_call; burn_call "7"])
  = [Some "42"%string; Some "7"%string].
Proof. reflexivity. Qed.

Example scenario_totals :
  map (fun kv => (fst kv, total_positions (acc (snd kv)), total_liquidity (acc (snd kv)),
                  total_usd_value (acc (snd kv)), unique_pairs_count (snd kv)))
      (analyze_top_creators float_of_digits scenario)
  = [ ("X"%string, 2%Z, 150%Z, fl 15, 1%Z); ("Y"%string, 1%Z, 200%Z, fl 20, 1%Z) ].
Proof. vm_compute. reflexivity. Qed.

Example scenario_top_liquidity :
  map fst (by_liquidity (rank_creators stable_float_sort
                           (analyze_top_creators float_of_digits scenario) 1))
  = ["Y"%string].
Proof. vm_compute. reflexivity. Qed.

(** The double nearest to [10 ** 23] is not the integer [10 ** 23]: under
    Python's exact comparison of a float with an integer they differ. *)
Example price_at_tick_zero_23 :
  calculate_price_from_tick ref_libm 0 23 0 = Ret (S754_finite false 5960464477539062 24) /\
  py_eqb (S754_finite false 5960464477539062 24) (PyInt (10 ^ 23)) = false.
Proof. split; vm_compute; reflexivity. Qed.

(** The enclosing functions run their loop only on a non-empty batch with
    a non-empty lookup. *)
Example positions_need_a_lookup :
  process_positions_with_decimals ref_libm [liquidity_call] [] = Ret None /\
  exists p, process_positions_with_decimals ref_libm [liquidity_call] [usdc_transfer]
            = Ret (Some [p]) /\ pos_liquidity p = Some "123456789"%string.
Proof.
  split; [vm_compute; reflexivity|].
  eexists. split; [vm_compute; reflexivity|reflexivity].
Qed.

(** ** The theorems at concrete inputs *)

Lemma mint_without_token0_is_skipped_witness :
  mint_event_of_call ref_libm ∅ mint_call_no_token0 = Ret None /\
  process_mint_calls ref_libm ∅ ([mint_call_full] ++ mint_call_no_token0 :: [mint_call_full]) =
  process_mint_calls ref_libm ∅ ([mint_call_full] ++ [mint_call_full]).
Proof.
  apply (mint_without_token0_is_skipped ref_libm ∅ [mint_call_full]
           mint_call_no_token0 [mint_call_full]); reflexivity.
Defined.

Lemma create_token_decimals_lookup_spec_witness :
  create_token_decimals_lookup [usdc_transfer; nodec_transfer] !! "0xC"%string = None.
Proof.
  apply (proj2 (proj2 create_token_decimals_lookup_spec)
           [usdc_transfer; nodec_transfer] "0xC"%string).
  intros t [<-|[<-|[]]] H; [discriminate H|reflexivity].
Defined.

Lemma snapshot_without_token_id_is_kept_witness :
  exists out p,
    process_position_calls ref_libm ∅ ([nosym_call] ++ liquidity_call :: [nosym_call]) = Ret out /\
    length out = length ([nosym_call] ++ liquidity_call :: [nosym_call]) /\
    out !! length [nosym_call] = Some p /\
    position_of_call ref_libm ∅ liquidity_call = Ret p /\
    pos_liquidity p = Some "123456789"%string /\
    pos_tokenId p = None.
Proof.
  apply (snapshot_without_token_id_is_kept ref_libm ∅ [nosym_call] liquidity_call
           [nosym_call]); reflexivity.
Defined.

Lemma aggregator_counts_events_and_addresses_witness :
  exists st,
    od_lookup "X"%string
      (analyze_top_creators float_of_digits
         [creation_event "X" "100" (fl 10); creation_event "X" "50" (fl 5)]) = Some st /\
    total_positions (acc st) =
    Z.of_nat (length [creation_event "X" "100" (fl 10); creation_event "X" "50" (fl 5)]).
Proof.
  apply (proj1 (aggregator_counts_events_and_addresses float_of_digits
                  [creation_event "X" "100" (fl 10); creation_event "X" "50" (fl 5)])
           "X"%string); [discriminate|repeat constructor].
Defined.

Lemma rank_creators_ranks_witness :
  ranking_ok Z_ge m_positions scenario_stats 1
    (by_positions (rank_creators stable_float_sort scenario_stats 1)) /\
  ranking_ok Z_ge m_liquidity scenario_stats 1
    (by_liquidity (rank_creators stable_float_sort scenario_stats 1)) /\
  ranking_ok Z_ge m_unique_pairs scenario_stats 1
    (by_unique_pairs (rank_creators stable_float_sort scenario_stats 1)) /\
  selection_ok scenario_stats 1
    (by_usd_value (rank_creators stable_float_sort scenario_stats 1)) /\
  ranking_ok float_ge m_usd_value scenario_stats 1
    (by_usd_value (rank_creators stable_float_sort scenario_stats 1)).
Proof.
  destruct (rank_creators_ranks stable_float_sort scenario_stats 1)
    as (H1 & H2 & H3 & H4 & H5); [reflexivity|].
  split; [exact H1|]. split; [exact H2|]. split; [exact H3|]. split; [exact H4|].
  apply H5. vm_compute. repeat constructor.
Defined.

Lemma burn_events_carry_token_id_witness :
  (burn_event_of_call (burn_call "") = None /\
   process_burn_events ([burn_call "42"] ++ burn_call "" :: [burn_call "7"]) =
   process_burn_events [burn_call "42"] ++ process_burn_events [burn_call "7"]) /\
  process_burn_events ([burn_call ""] ++ burn_call "42" :: [burn_call "7"]) =
  process_burn_events [burn_call ""]
    ++ {| burn_event_type := default "burn"%string (Signature_Name (burn_call "42"));
          burn_tokenId := Some "42"%string;
          burn_transaction := Transaction (burn_call "42");
          burn_block := Block (burn_call "42") |}
    :: process_burn_events [burn_call "7"].
Proof.
  split.
  - apply (proj1 (proj2 (proj2 burn_events_carry_token_id)) [burn_call "42"]
             (burn_call "") [burn_call "7"]); reflexivity.
  - apply (proj1 (proj2 (proj2 (proj2 burn_events_carry_token_id))) [burn_call ""]
             (burn_call "42") [burn_call "7"] "42"%string); [reflexivity|discriminate].
Defined.

(* ================================================================== *)
(** * Part IV. Further properties of the sources                      *)
(* ================================================================== *)

Section MoreNumeric.
Local Open Scope Z_scope.
Variable lm : libm.

Lemma SFmul_comm x y : SFmul prec emax x y = SFmul prec emax y x.
Proof.
  destruct x as [sx|sx| |sx mx ex], y as [sy|sy| |sy my ey]; simpl;
    rewrite ?(xorb_comm sx sy); try reflexivity.
  rewrite (Pos.mul_comm mx my), (Z.add_comm ex ey). reflexivity.
Qed.

Lemma float_mul_one_r f :
  valid_binary prec emax f = true -> float_mul f float_one = f.
Proof. intros H. unfold float_mul. rewrite SFmul_comm. apply float_mul_one, H. Qed.

Lemma float_pow_int_exn x n e :
  float_pow_int lm x n = Raise e -> e = OverflowError \/ e = ValueError.
Proof.
  unfold float_pow_int.
  destruct (float_of_Z n) as [fn|e1] eqn:En; simpl;
    [apply float_pow_exn|intros [= <-]; left; eapply float_of_Z_exn; eauto].
Qed.

Lemma float_pow_int_valid x n r :
  float_pow_int lm x n = Ret r -> valid_binary prec emax r = true.
Proof.
  unfold float_pow_int.
  destruct (float_of_Z n) as [fn|e1]; simpl; [apply float_pow_valid|discriminate].
Qed.

(** Property X1. When both tokens have the same number of decimals the
    decimal adjustment is exactly [1]: the price at a tick is the power
    [1.0001 ** tick] itself when that power can be computed, and [0.0]
    when computing it raises. *)
Theorem price_with_equal_decimals tick d :
  calculate_price_from_tick lm tick d d =
  match float_pow_int lm f_1_0001 tick with
  | Ret p => Ret p
  | Raise _ => Ret float_zero
  end.
Proof.
  unfold calculate_price_from_tick, price_body. rewrite Z.sub_diag.
  destruct (float_pow_int lm f_1_0001 tick) as [p|e] eqn:E.
  - rewrite bind_Ret. rewrite (int_pow_nonneg lm 10 0) by lia. rewrite bind_Ret.
    change (float_mul_num p (PyInt (10 ^ 0))) with (@Ret float (float_mul p float_one)).
    rewrite float_mul_one_r by (eapply float_pow_int_valid; eauto). reflexivity.
  - apply float_pow_int_exn in E as [-> | ->]; reflexivity.
Qed.

Lemma py_int_exn x e : py_int x = Raise e -> e = ValueError \/ e = TypeError.
Proof.
  destruct x as [s|]; simpl; [|intros [= <-]; auto].
  unfold int_of_str. destruct (int_of_chars _); [discriminate|intros [= <-]; auto].
Qed.

Lemma convert_amount_exn x d e :
  convert_amount lm x d = Raise e -> e = OverflowError \/ e = ZeroDivisionError.
Proof.
  unfold convert_amount.
  destruct (py_int x) as [n|e1] eqn:Ei.
  - rewrite bind_Ret.
    destruct (int_pow lm 10 d) as [p|e2] eqn:Ep.
    + rewrite bind_Ret.
      destruct (int_truediv_num n p) as [f|e3] eqn:Ed; [discriminate|].
      assert (He3 : e3 = OverflowError \/ e3 = ZeroDivisionError).
      { destruct p as [b|fb]; simpl in Ed.
        - eapply int_truediv_exn; eauto.
        - destruct (float_of_Z n) as [fa|e4] eqn:Ea; simpl in Ed.
          + unfold float_truediv in Ed. destruct (is_zero fb); [|discriminate].
            injection Ed as <-. auto.
          + injection Ed as <-. left. eapply float_of_Z_exn; eauto. }
      destruct He3 as [-> | ->]; intros [= <-]; auto.
    + apply int_pow_exn in Ep as [-> | ->]; [intros [= <-]; auto|discriminate].
  - apply py_int_exn in Ei as [-> | ->]; discriminate.
Qed.

(** Property X2. For a non-negative number of decimals [convert_amount]
    either returns a float or raises [OverflowError]: a missing or
    malformed amount gives [0.0], the divisor is never zero, and only a
    quotient too large for a float escapes. *)
Theorem convert_amount_returns_or_overflows x d :
  0 <= d ->
  (exists f, convert_amount lm x d = Ret f) \/
  convert_amount lm x d = Raise OverflowError.
Proof.
  intros Hd. destruct (convert_amount lm x d) as [f|e] eqn:E; [eauto|right].
  f_equal. pose proof E as E'. apply convert_amount_exn in E' as [-> | ->]; [reflexivity|].
  exfalso. unfold convert_amount in E.
  destruct (py_int x) as [n|e1] eqn:Ei;
    [|apply py_int_exn in Ei as [-> | ->]; discriminate E].
  rewrite bind_Ret, (int_pow_nonneg lm 10 d Hd), bind_Ret in E. simpl in E.
  unfold int_truediv in E.
  destruct (Z.eqb_spec (10 ^ d) 0) as [H0|_].
  - pose proof (Z.pow_pos_nonneg 10 d). lia.
  - destruct (n =? 0); [discriminate|]. destruct (is_inf _); discriminate.
Qed.

End MoreNumeric.

(** ** More on the decimal resolver *)

Lemma last_seen_app a ts1 ts2 :
  last_seen a (ts1 ++ ts2) =
  match last_seen a ts2 with
  | Some i => Some i
  | None => last_seen a ts1
  end.
Proof.
  induction ts2 as [|t ts2 IH] using rev_ind.
  - rewrite app_nil_r. reflexivity.
  - rewrite app_assoc, !last_seen_snoc, IH.
    destruct (carries a t) eqn:E; [|reflexivity].
    unfold carries in E. unfold entry_of.
    destruct (SmartContract t); [|discriminate].
    destruct (Decimals t); [reflexivity|discriminate].
Qed.

(** Property X3. The lookup built from two lists of records, one after the
    other, is the lookup of the second list completed by that of the
    first: a later record overrides an earlier one at the same address. *)
Theorem lookup_of_concatenation ts1 ts2 :
  create_token_decimals_lookup (ts1 ++ ts2) =
  create_token_decimals_lookup ts2 ∪ create_token_decimals_lookup ts1.
Proof.
  apply map_eq. intros a. rewrite lookup_union, !lookup_last_seen, last_seen_app.
  destruct (truthy_str a); [|reflexivity].
  destruct (last_seen a ts2), (last_seen a ts1); reflexivity.
Qed.

Lemma lookup_step_size m t : size (lookup_step m t) <= S (size m).
Proof.
  unfold lookup_step. destruct (SmartContract t) as [a|]; [|lia].
  destruct (Decimals t) as [d|]; [|lia]. destruct (truthy_str a); [|lia].
  destruct (m !! a) eqn:E.
  - rewrite map_size_insert_Some by eauto. lia.
  - rewrite map_size_insert_None by exact E. lia.
Qed.

(** Property X4. The lookup has at most as many entries as there are
    records, it has no entry at the empty address, and each of its entries
    repeats the decimals, symbol and name of a record with that address. *)
Theorem lookup_entries_come_from_records transfers :
  size (create_token_decimals_lookup transfers) <= length transfers /\
  forall a info, create_token_decimals_lookup transfers !! a = Some info ->
    a <> EmptyString /\
    exists t, In t transfers /\ SmartContract t = Some a /\
              Decimals t = Some (decimals info) /\
              symbol info = Symbol t /\ name info = Currency_Name t.
Proof.
  split.
  - induction transfers as [|t ts IH] using rev_ind; [reflexivity|].
    rewrite create_lookup_snoc, length_app. simpl.
    pose proof (lookup_step_size (create_token_decimals_lookup ts) t). lia.
  - intros a info H. rewrite lookup_last_seen in H.
    destruct (truthy_str a) eqn:Ha; [|discriminate].
    split; [apply truthy_str_nonempty, Ha|].
    unfold last_seen in H.
    destruct (last (List.filter (carries a) transfers)) as [t|] eqn:El; [|discriminate].
    simpl in H. exists t.
    assert (Hin : In t (List.filter (carries a) transfers)).
    { apply list_elem_of_In. apply last_Some_elem_of. exact El. }
    apply List.filter_In in Hin as [Hin Hc]. split; [exact Hin|].
    unfold carries in Hc. unfold entry_of in H.
    destruct (SmartContract t) as [a'|]; [|discriminate].
    destruct (Decimals t) as [d|]; [|discriminate].
    apply String.eqb_eq in Hc. subst a'. simpl in H. injection H as <-. simpl. auto.
Qed.

(** ** More on position snapshots *)

Lemma token_addresses_step_mono acc e : acc ⊆ token_addresses_step acc e.
Proof.
  unfold token_addresses_step. destruct (_ && _); [|reflexivity].
  destruct (address (Value e)); set_solver.
Qed.

Lemma token_addresses_loop_mono l : forall acc, acc ⊆ fold_left token_addresses_step l acc.
Proof.
  induction l as [|e l IH]; intros acc; simpl; [reflexivity|].
  etransitivity; [apply token_addresses_step_mono|apply IH].
Qed.

Lemma token_addresses_loop_elem l : forall acc e a,
  In e l -> (name_is e "token0" || name_is e "token1") = true ->
  address (Value e) = Some a -> a ∈ fold_left token_addresses_step l acc.
Proof.
  induction l as [|e' l IH]; intros acc e a Hin Hn Ha; [destruct Hin|].
  simpl. destruct Hin as [->|Hin]; [|eapply IH; eauto].
  apply token_addresses_loop_mono. unfold token_addresses_step.
  rewrite Hn, Ha. simpl. set_solver.
Qed.

Lemma position_token_set_mono calls : forall acc,
  acc ⊆ fold_left (fun acc call => fold_left token_addresses_step (Returns call) acc) calls acc.
Proof.
  induction calls as [|c calls IH]; intros acc; simpl; [reflexivity|].
  etransitivity; [apply token_addresses_loop_mono|apply IH].
Qed.

Lemma position_token_set_elem calls call e a :
  In call calls -> In e (Returns call) ->
  (name_is e "token0" || name_is e "token1") = true ->
  address (Value e) = Some a -> a ∈ position_token_set calls.
Proof.
  unfold position_token_set. generalize (∅ : gset string).
  induction calls as [|c calls IH]; intros acc Hin He Hn Ha; [destruct Hin|].
  simpl. destruct Hin as [->|Hin]; [|eapply IH; eauto].
  apply position_token_set_mono. eapply token_addresses_loop_elem; eauto.
Qed.

(** Where the two address variables of the [Returns] loop come from. *)
Lemma returns_step_addresses st e st' :
  returns_step st e = Ret st' ->
  (forall a, token0_address st' = Some a ->
     token0_address st = Some a \/
     (name_is e "token0" = true /\ address (Value e) = Some a)) /\
  (forall a, token1_address st' = Some a ->
     token1_address st = Some a \/
     (name_is e "token1" = true /\ address (Value e) = Some a)).
Proof.
  unfold returns_step.
  destruct (name_is e "token0" && has_key (address (Value e))) eqn:C0.
  { apply andb_prop in C0 as [N0 _]. intros [= <-]. simpl. split; auto. }
  destruct (name_is e "token1" && has_key (address (Value e))) eqn:C1.
  { apply andb_prop in C1 as [N1 _]. intros [= <-]. simpl. split; auto. }
  destruct (name_is e "liquidity" && _); [intros [= <-]; simpl; split; auto|].
  destruct (name_is e "fee" && _); [intros [= <-]; simpl; split; auto|].
  destruct (name_is e "tickLower" && _).
  { destruct (py_int _); simpl; [intros [= <-]; simpl; split; auto|discriminate]. }
  destruct (name_is e "tickUpper" && _).
  { destruct (py_int _); simpl; [intros [= <-]; simpl; split; auto|discriminate]. }
  intros [= <-]. split; auto.
Qed.

Lemma returns_loop_addresses l : forall st st',
  for_each returns_step st l = Ret st' ->
  (forall a, token0_address st' = Some a ->
     token0_address st = Some a \/
     exists e, In e l /\ name_is e "token0" = true /\ address (Value e) = Some a) /\
  (forall a, token1_address st' = Some a ->
     token1_address st = Some a \/
     exists e, In e l /\ name_is e "token1" = true /\ address (Value e) = Some a).
Proof.
  induction l as [|e l IH]; intros st st' H; simpl in H.
  - injection H as <-. split; auto.
  - destruct (returns_step st e) as [st1|] eqn:E1; [|discriminate]. simpl in H.
    destruct (IH _ _ H) as [I0 I1]. destruct (returns_step_addresses _ _ _ E1) as [S0 S1].
    split; intros a Ha.
    + destruct (I0 a Ha) as [H1|(e' & Hin & Hn & Hv)].
      * destruct (S0 a H1) as [H2|[Hn Hv]]; [auto|].
        right. exists e. split; [left; reflexivity|auto].
      * right. exists e'. split; [right; exact Hin|auto].
    + destruct (I1 a Ha) as [H1|(e' & Hin & Hn & Hv)].
      * destruct (S1 a H1) as [H2|[Hn Hv]]; [auto|].
        right. exists e. split; [left; reflexivity|auto].
      * right. exists e'. split; [right; exact Hin|auto].
Qed.

Section MorePositions.
Variable lm : libm.

Lemma position_of_call_inv td call p :
  position_of_call lm td call = Ret p ->
  exists st band,
    for_each returns_step PosFields_init (Returns call) = Ret st /\
    price_band_of lm (tick_lower st) (tick_upper st)
      (info_decimals (token_info td (token0_address st)))
      (info_decimals (token_info td (token1_address st))) = Ret band /\
    p = {| pos_tokenId := find_token_id (Arguments call);
           pos_token0 := {| td_address := token0_address st;
                            td_symbol := info_symbol (token_info td (token0_address st));
                            td_decimals := info_decimals (token_info td (token0_address st)) |};
           pos_token1 := {| td_address := token1_address st;
                            td_symbol := info_symbol (token_info td (token1_address st));
                            td_decimals := info_decimals (token_info td (token1_address st)) |};
           pos_liquidity := liquidity st;
           pos_fee := fee st;
           pos_ticks := (tick_lower st, tick_upper st);
           pos_price_band := band;
           pos_block := Block_Number (Block call);
           pos_timestamp := Block_Time (Block call) |}.
Proof.
  unfold position_of_call.
  destruct (for_each returns_step PosFields_init (Returns call)) as [st|]; [|discriminate].
  rewrite bind_Ret.
  destruct (price_band_of lm _ _ _ _) as [band|] eqn:Eb; [|discriminate].
  rewrite bind_Ret. intros [= <-]. exists st, band. auto.
Qed.

(** Property X5. The list of addresses extracted from a batch of
    [positions] calls has no duplicates and contains both token addresses
    of every snapshot built from a call of the batch. *)
Theorem extracted_addresses_cover_snapshots td calls call p :
  In call calls -> position_of_call lm td call = Ret p ->
  NoDup (extract_token_addresses_from_positions_response calls) /\
  (forall a, td_address (pos_token0 p) = Some a ->
     a ∈ extract_token_addresses_from_positions_response calls) /\
  (forall a, td_address (pos_token1 p) = Some a ->
     a ∈ extract_token_addresses_from_positions_response calls).
Proof.
  intros Hin Hp. apply position_of_call_inv in Hp as (st & band & Hst & _ & ->).
  destruct (returns_loop_addresses _ _ _ Hst) as [H0 H1].
  unfold extract_token_addresses_from_positions_response.
  split; [apply NoDup_elements|]. simpl.
  split; intros a Ha; apply elem_of_elements.
  - destruct (H0 a Ha) as [Hi|(e & He & Hn & Hv)]; [discriminate|].
    eapply position_token_set_elem; eauto. rewrite Hn. reflexivity.
  - destruct (H1 a Ha) as [Hi|(e & He & Hn & Hv)]; [discriminate|].
    eapply position_token_set_elem; eauto. rewrite Hn. apply orb_true_r.
Qed.

(** A loop over [Returns] that meets a malformed tick raises. *)
Lemma returns_step_raises st e :
  tick_entry_ok e = false -> returns_step st e = Raise ValueError.
Proof.
  unfold tick_entry_ok. intros H.
  destruct ((name_is e "tickLower" || name_is e "tickUpper")
            && has_key (bigInteger (Value e))) eqn:C; [|discriminate].
  apply andb_prop in C as [Hn Hk].
  assert (Hr : py_int (bigInteger (Value e)) = Raise ValueError).
  { destruct (py_int (bigInteger (Value e))) as [n|ex] eqn:Ei; [discriminate|].
    destruct (bigInteger (Value e)) as [b|]; [|discriminate].
    simpl in Ei. unfold int_of_str in Ei. destruct (int_of_chars _); [discriminate|].
    injection Ei as <-. reflexivity. }
  unfold returns_step. rewrite Hk, !andb_true_r.
  apply orb_prop in Hn as [Hn|Hn].
  - rewrite (name_is_inj e "tickLower" "token0" Hn) by discriminate.
    rewrite (name_is_inj e "tickLower" "token1" Hn) by discriminate.
    rewrite (name_is_inj e "tickLower" "liquidity" Hn) by discriminate.
    rewrite (name_is_inj e "tickLower" "fee" Hn) by discriminate.
    rewrite !andb_false_l, Hn, Hr. reflexivity.
  - rewrite (name_is_inj e "tickUpper" "token0" Hn) by discriminate.
    rewrite (name_is_inj e "tickUpper" "token1" Hn) by discriminate.
    rewrite (name_is_inj e "tickUpper" "liquidity" Hn) by discriminate.
    rewrite (name_is_inj e "tickUpper" "fee" Hn) by discriminate.
    rewrite (name_is_inj e "tickUpper" "tickLower" Hn) by discriminate.
    rewrite !andb_false_l, Hn, Hr. reflexivity.
Qed.

Lemma returns_loop_raises l : forall st,
  forallb tick_entry_ok l = false -> for_each returns_step st l = Raise ValueError.
Proof.
  induction l as [|e l IH]; intros st H; simpl in H; [discriminate|]. simpl.
  destruct (tick_entry_ok e) eqn:He.
  - destruct (returns_step_returns st e He) as [st1 ->]. rewrite bind_Ret. apply IH, H.
  - rewrite (returns_step_raises st e He). reflexivity.
Qed.

Lemma position_of_call_raises td call :
  ticks_parse call = false -> position_of_call lm td call = Raise ValueError.
Proof.
  intros H. unfold position_of_call.
  rewrite (returns_loop_raises _ _ H). reflexivity.
Qed.

Lemma process_position_calls_length td calls out :
  process_position_calls lm td calls = Ret out -> length out = length calls.
Proof.
  revert out. induction calls as [|c calls IH]; intros out; simpl.
  - intros [= <-]. reflexivity.
  - destruct (position_of_call lm td c) as [p|]; [|intros H; discriminate H].
    rewrite bind_Ret.
    destruct (process_position_calls lm td calls) as [o|]; [|intros H; discriminate H].
    rewrite bind_Ret. intros [= <-]. simpl. rewrite (IH o eq_refl). reflexivity.
Qed.

(** Property X7. A batch of [positions] calls is processed as a whole:
    when every tick of every call is an integer literal there is one
    snapshot per call, and otherwise [ValueError] is raised and no
    snapshot is returned. *)
Theorem position_batch_all_or_nothing td calls :
  (forallb ticks_parse calls = true /\
   exists out, process_position_calls lm td calls = Ret out /\
               length out = length calls) \/
  (forallb ticks_parse calls = false /\
   process_position_calls lm td calls = Raise ValueError).
Proof.
  destruct (forallb ticks_parse calls) eqn:H.
  - left. split; [reflexivity|].
    destruct (process_position_calls_returns lm td calls H) as (out & Hout & HF).
    exists out. split; [exact Hout|]. symmetry. eapply Forall2_length; eauto.
  - right. split; [reflexivity|].
    induction calls as [|c calls IH]; [discriminate|]. simpl in H. simpl.
    destruct (ticks_parse c) eqn:Hc.
    + destruct (position_of_call_returns lm td c Hc) as [p ->]. rewrite bind_Ret.
      rewrite (IH H). reflexivity.
    + rewrite (position_of_call_raises td c Hc). reflexivity.
Qed.

End MorePositions.

(** Property X8. The token id of a snapshot is the value of the first
    argument named [tokenId], where the search stops, whether or not that
    value holds a big integer. *)
Theorem find_token_id_takes_first before arg after :
  forallb (fun a => negb (name_is a "tokenId")) before = true ->
  name_is arg "tokenId" = true ->
  find_token_id (before ++ arg :: after) = bigInteger (Value arg).
Proof.
  intros Hb Hn. induction before as [|a before IH]; simpl.
  - rewrite Hn. reflexivity.
  - simpl in Hb. apply andb_prop in Hb as [Ha Hb]. apply negb_true_iff in Ha.
    rewrite Ha. apply IH, Hb.
Qed.

Ltac by_raise := simpl; let H := fresh in intros H; discriminate H.

Section MoreExtraction.
Variable lm : libm.

Lemma price_band_of_inv tl tu d0 d1 band :
  price_band_of lm tl tu d0 d1 = Ret band ->
  match tl, tu with
  | Some l, Some u =>
      exists pl pu, calculate_price_from_tick lm l d0 d1 = Ret pl /\
                    calculate_price_from_tick lm u d0 d1 = Ret pu /\
                    band = (Some pl, Some pu)
  | _, _ => band = (None, None)
  end.
Proof.
  unfold price_band_of. destruct tl as [l|]; [|intros [= <-]; reflexivity].
  destruct tu as [u|]; [|intros [= <-]; reflexivity].
  destruct (calculate_price_from_tick lm l d0 d1) as [pl|]; [|discriminate].
  rewrite bind_Ret.
  destruct (calculate_price_from_tick lm u d0 d1) as [pu|]; [|discriminate].
  rewrite bind_Ret. intros [= <-]. eauto.
Qed.

(** What a returned mint event is made of. *)
Lemma mint_event_of_call_inv td call ev :
  mint_event_of_call lm td call = Ret (Some ev) ->
  exists params band,
    parse_mint_burn_arguments (Arguments call) = Ret params /\
    truthy (p_token0 params) = true /\ truthy (p_token1 params) = true /\
    price_band_of lm (p_tickLower params) (p_tickUpper params)
      (info_decimals (token_info td (p_token0 params)))
      (info_decimals (token_info td (p_token1 params))) = Ret band /\
    mint_token0 ev = {| td_address := p_token0 params;
                        td_symbol := info_symbol (token_info td (p_token0 params));
                        td_decimals := info_decimals (token_info td (p_token0 params)) |} /\
    mint_token1 ev = {| td_address := p_token1 params;
                        td_symbol := info_symbol (token_info td (p_token1 params));
                        td_decimals := info_decimals (token_info td (p_token1 params)) |} /\
    mint_ticks ev = (p_tickLower params, p_tickUpper params) /\
    mint_price_band ev = band /\
    mint_transaction ev = Transaction call /\ mint_block ev = Block call.
Proof.
  unfold mint_event_of_call.
  cbv zeta.
  destruct (parse_mint_burn_arguments (Arguments call)) as [params|]; [|by_raise].
  rewrite bind_Ret.
  destruct (truthy (p_token0 params)) eqn:T0; [|by_raise].
  destruct (truthy (p_token1 params)) eqn:T1; cbn [negb orb]; [|intros [=]].
  destruct (convert_amount lm (amount_or_zero (p_amount0Desired params)) _) as [a0d|];
    [|by_raise]. rewrite bind_Ret.
  destruct (convert_amount lm (amount_or_zero (p_amount1Desired params)) _) as [a1d|];
    [|by_raise]. rewrite bind_Ret.
  destruct (price_band_of lm _ _ _ _) as [band|] eqn:Eb; [|by_raise]. rewrite bind_Ret.
  destruct (convert_amount lm (amount_or_zero (p_amount0Min params)) _) as [a0m|];
    [|by_raise]. rewrite bind_Ret.
  destruct (convert_amount lm (amount_or_zero (p_amount1Min params)) _) as [a1m|];
    [|by_raise]. rewrite bind_Ret.
  intros [= <-]. exists params, band. simpl. auto 12.
Qed.

(** Property X9. In a snapshot and in a mint event the decimals of a token
    are those of the lookup at its address (18 without an entry), and the
    price band is there exactly when both ticks are, each bound being
    [calculate_price_from_tick] of its tick with these decimals. *)
Theorem price_band_follows_ticks td call :
  (forall p, position_of_call lm td call = Ret p ->
     td_decimals (pos_token0 p) = info_decimals (token_info td (td_address (pos_token0 p))) /\
     td_decimals (pos_token1 p) = info_decimals (token_info td (td_address (pos_token1 p))) /\
     match pos_ticks p with
     | (Some l, Some u) =>
         exists pl pu,
           calculate_price_from_tick lm l (td_decimals (pos_token0 p))
             (td_decimals (pos_token1 p)) = Ret pl /\
           calculate_price_from_tick lm u (td_decimals (pos_token0 p))
             (td_decimals (pos_token1 p)) = Ret pu /\
           pos_price_band p = (Some pl, Some pu)
     | _ => pos_price_band p = (None, None)
     end) /\
  (forall ev, mint_event_of_call lm td call = Ret (Some ev) ->
     td_decimals (mint_token0 ev) = info_decimals (token_info td (td_address (mint_token0 ev))) /\
     td_decimals (mint_token1 ev) = info_decimals (token_info td (td_address (mint_token1 ev))) /\
     match mint_ticks ev with
     | (Some l, Some u) =>
         exists pl pu,
           calculate_price_from_tick lm l (td_decimals (mint_token0 ev))
             (td_decimals (mint_token1 ev)) = Ret pl /\
           calculate_price_from_tick lm u (td_decimals (mint_token0 ev))
             (td_decimals (mint_token1 ev)) = Ret pu /\
           mint_price_band ev = (Some pl, Some pu)
     | _ => mint_price_band ev = (None, None)
     end).
Proof.
  split.
  - intros p Hp. apply position_of_call_inv in Hp as (st & band & _ & Hb & ->). simpl.
    split; [reflexivity|]. split; [reflexivity|].
    apply price_band_of_inv in Hb.
    destruct (tick_lower st) as [l|]; [|exact Hb]. destruct (tick_upper st) as [u|]; exact Hb.
  - intros ev Hev.
    apply mint_event_of_call_inv in Hev
      as (params & band & _ & _ & _ & Hb & -> & -> & -> & -> & _). simpl.
    split; [reflexivity|]. split; [reflexivity|].
    apply price_band_of_inv in Hb.
    destruct (p_tickLower params) as [l|]; [|exact Hb].
    destruct (p_tickUpper params) as [u|]; exact Hb.
Qed.

(** Property X10. Processing the concatenation of two batches is
    processing the first, then the second, and concatenating the results;
    an exception of the first batch comes first. *)
Theorem batches_compose td l1 l2 :
  process_position_calls lm td (l1 ++ l2) =
    (o1 ← process_position_calls lm td l1;
     o2 ← process_position_calls lm td l2; Ret (o1 ++ o2)) /\
  process_mint_calls lm td (l1 ++ l2) =
    (o1 ← process_mint_calls lm td l1;
     o2 ← process_mint_calls lm td l2; Ret (o1 ++ o2)).
Proof.
  split.
  - induction l1 as [|c l1 IH]; simpl.
    + destruct (process_position_calls lm td l2); reflexivity.
    + destruct (position_of_call lm td c) as [p|]; [|reflexivity]. rewrite !bind_Ret.
      rewrite IH. destruct (process_position_calls lm td l1) as [o1|]; [|reflexivity].
      rewrite !bind_Ret.
      destruct (process_position_calls lm td l2) as [o2|]; reflexivity.
  - induction l1 as [|c l1 IH]; simpl.
    + destruct (process_mint_calls lm td l2); reflexivity.
    + destruct (mint_event_of_call lm td c) as [ev|]; [|reflexivity]. rewrite !bind_Ret.
      rewrite IH. destruct (process_mint_calls lm td l1) as [o1|]; [|reflexivity].
      rewrite !bind_Ret.
      destruct (process_mint_calls lm td l2) as [o2|]; [|reflexivity].
      rewrite !bind_Ret. destruct ev; reflexivity.
Qed.

Lemma lookup_step_empty m t :
  lookup_step m t = ∅ <-> m = ∅ /\ usable_record t = false.
Proof.
  unfold lookup_step, usable_record.
  destruct (SmartContract t) as [a|]; [|tauto].
  destruct (Decimals t) as [d|]; [|tauto].
  destruct (truthy_str a); [|tauto].
  split; [intros H; destruct (insert_non_empty _ _ _ H)|intros [_ [=]]].
Qed.

Lemma lookup_empty_iff transfers :
  create_token_decimals_lookup transfers = ∅ <->
  forallb (fun t => negb (usable_record t)) transfers = true.
Proof.
  induction transfers as [|t ts IH] using rev_ind; [split; reflexivity|].
  rewrite create_lookup_snoc, lookup_step_empty, IH, forallb_app. cbn [forallb].
  rewrite !andb_true_iff, negb_true_iff. tauto.
Qed.

(** Property X11. Both processors return [None] exactly when there is no
    call or no record of the decimals response has a non-empty address
    together with a decimals count; and when the positions processor
    returns a list, it holds one snapshot per call. *)
Theorem nothing_processed_without_usable_record all_calls decimals_response :
  (process_positions_with_decimals lm all_calls decimals_response = Ret None <->
     all_calls = [] \/
     forallb (fun t => negb (usable_record t)) decimals_response = true) /\
  (process_mint_events_with_decimals lm all_calls decimals_response = Ret None <->
     all_calls = [] \/
     forallb (fun t => negb (usable_record t)) decimals_response = true) /\
  (forall out, process_positions_with_decimals lm all_calls decimals_response
               = Ret (Some out) -> length out = length all_calls).
Proof.
  rewrite <- lookup_empty_iff.
  unfold process_positions_with_decimals, process_mint_events_with_decimals.
  destruct all_calls as [|c calls].
  - split; [|split]; [split; auto..|discriminate].
  - destruct (decide (create_token_decimals_lookup decimals_response = ∅)) as [He|Hne].
    + split; [|split]; [split; auto..|discriminate].
    + split; [|split].
      * split; [destruct (process_position_calls lm _ _); discriminate|].
        intros [H|H]; [discriminate|contradiction].
      * split; [destruct (process_mint_calls lm _ _); discriminate|].
        intros [H|H]; [discriminate|contradiction].
      * intros out H.
        destruct (process_position_calls lm _ (c :: calls)) as [o|] eqn:Ho;
          [|discriminate H].
        rewrite bind_Ret in H. injection H as <-.
        apply (process_position_calls_length _ _ _ _ Ho).
Qed.

(** Property X12. When a batch of mint calls is processed there are at
    most as many events as calls, and every event has two non-empty token
    addresses. *)
Theorem mint_events_have_both_tokens td calls out :
  process_mint_calls lm td calls = Ret out ->
  (length out <= length calls)%nat /\
  forall ev, In ev out ->
    truthy (td_address (mint_token0 ev)) = true /\
    truthy (td_address (mint_token1 ev)) = true.
Proof.
  revert out. induction calls as [|c calls IH]; intros out H; simpl in H.
  - injection H as <-. split; [reflexivity|intros ev []].
  - destruct (mint_event_of_call lm td c) as [ev'|] eqn:E; [|discriminate].
    rewrite bind_Ret in H.
    destruct (process_mint_calls lm td calls) as [o|]; [|discriminate].
    rewrite bind_Ret in H. injection H as <-.
    destruct (IH o eq_refl) as [Hlen Hall].
    destruct ev' as [ev'|].
    + split; [simpl; lia|]. intros ev [<-|Hin]; [|apply Hall, Hin].
      apply mint_event_of_call_inv in E
        as (params & band & _ & T0 & T1 & _ & -> & -> & _). simpl. auto.
    + split; [simpl; lia|exact Hall].
Qed.

End MoreExtraction.

Lemma py_int_key_raises o :
  has_key o = true -> is_Ret (py_int o) = false -> py_int o = Raise ValueError.
Proof.
  destruct o as [b|]; [|discriminate]. intros _. simpl. unfold int_of_str.
  destruct (int_of_chars _); [discriminate|reflexivity].
Qed.

Lemma index_is_inj arg i j : index_is arg i = true -> i <> j -> index_is arg j = false.
Proof.
  unfold index_is. intros H Hne. apply Z.eqb_eq in H. apply Z.eqb_neq. congruence.
Qed.

Lemma mint_arg_step_raises params arg :
  tick_arg_ok arg = false -> mint_arg_step params arg = Raise ValueError.
Proof.
  unfold tick_arg_ok. intros H.
  destruct ((index_is arg 3 || index_is arg 4) && has_key (bigInteger (Value arg))) eqn:C;
    [|discriminate].
  apply andb_prop in C as [Hi Hk].
  pose proof (py_int_key_raises _ Hk H) as Hr.
  destruct params. unfold mint_arg_step. rewrite Hk, !andb_true_r.
  apply orb_prop in Hi as [Hi|Hi].
  - rewrite (index_is_inj arg 3 0 Hi), (index_is_inj arg 3 1 Hi), (index_is_inj arg 3 2 Hi)
      by discriminate.
    rewrite !andb_false_l, Hi, Hr. reflexivity.
  - rewrite (index_is_inj arg 4 0 Hi), (index_is_inj arg 4 1 Hi), (index_is_inj arg 4 2 Hi),
      (index_is_inj arg 4 3 Hi) by discriminate.
    rewrite !andb_false_l, Hi, Hr. reflexivity.
Qed.

Lemma parse_mint_loop_raises args : forall params,
  forallb tick_arg_ok args = false ->
  for_each mint_arg_step params args = Raise ValueError.
Proof.
  induction args as [|arg args IH]; intros params H; simpl in H; [discriminate|]. simpl.
  destruct (tick_arg_ok arg) eqn:Ha.
  - destruct (mint_arg_step_returns params arg Ha) as [p1 ->]. rewrite bind_Ret. apply IH, H.
  - rewrite (mint_arg_step_raises params arg Ha). reflexivity.
Qed.

Section MintAbort.
Variable lm : libm.

(** Property X13. A mint call one of whose ticks is not an integer literal
    raises [ValueError], also when it has no token address and would be
    skipped, and no batch that contains it returns. *)
Theorem malformed_tick_aborts_mint_batch td before call after :
  tick_args_parse call = false ->
  mint_event_of_call lm td call = Raise ValueError /\
  forall out, process_mint_calls lm td (before ++ call :: after) <> Ret out.
Proof.
  intros H.
  assert (Hc : mint_event_of_call lm td call = Raise ValueError).
  { unfold mint_event_of_call, parse_mint_burn_arguments.
    rewrite (parse_mint_loop_raises _ _ H). reflexivity. }
  split; [exact Hc|].
  induction before as [|c before IH]; intros out; simpl.
  - rewrite Hc. discriminate.
  - destruct (mint_event_of_call lm td c) as [ev|]; [|discriminate]. rewrite bind_Ret.
    destruct (process_mint_calls lm td (before ++ call :: after)) as [o|] eqn:E;
      [exfalso; eapply IH; reflexivity|discriminate].
Qed.

End MintAbort.

(** Property X14. The token id of a burn call is the big integer of the
    last argument named [tokenId] that has one. *)
Theorem parse_burn_arguments_takes_last before arg after :
  name_is arg "tokenId" = true -> has_key (bigInteger (Value arg)) = true ->
  forallb (fun a => negb (name_is a "tokenId" && has_key (bigInteger (Value a)))) after = true ->
  parse_burn_arguments (before ++ arg :: after) = bigInteger (Value arg).
Proof.
  intros Hn Hk Ha. unfold parse_burn_arguments. rewrite fold_left_app. simpl.
  generalize (fold_left burn_arg_step before None). intros cur.
  assert (Hs : burn_arg_step cur arg = bigInteger (Value arg))
    by (unfold burn_arg_step; rewrite Hn, Hk; reflexivity).
  rewrite Hs. generalize (bigInteger (Value arg)). clear -Ha.
  induction after as [|a after IH]; intros v; simpl; [reflexivity|].
  simpl in Ha. apply andb_prop in Ha as [H1 H2]. apply negb_true_iff in H1.
  unfold burn_arg_step at 2. rewrite H1. apply IH, H2.
Qed.

(** ** The token addresses of a batch of mint calls *)

Lemma mint_addresses_step_elem acc arg a :
  a ∈ mint_addresses_step acc arg <->
  a ∈ acc \/ (String.prefix mint_params_prefix (default ""%string (Name arg)) = true /\
              address (Value arg) = Some a).
Proof.
  unfold mint_addresses_step.
  destruct (String.prefix _ _); cbn [andb].
  - destruct (address (Value arg)) as [a'|]; cbn [has_key].
    + rewrite elem_of_union, elem_of_singleton. split.
      * intros [->|H]; auto.
      * intros [H|[_ [= ->]]]; auto.
    + split; [auto|]. intros [H|[_ [=]]]. exact H.
  - split; [auto|]. intros [H|[[=] _]]. exact H.
Qed.

Lemma mint_addresses_loop_elem args : forall acc a,
  a ∈ fold_left mint_addresses_step args acc <->
  a ∈ acc \/ exists arg, In arg args /\
    String.prefix mint_params_prefix (default ""%string (Name arg)) = true /\
    address (Value arg) = Some a.
Proof.
  induction args as [|arg args IH]; intros acc a; cbn [fold_left].
  - split; [auto|]. intros [H|(arg & [] & _)]. exact H.
  - rewrite IH, mint_addresses_step_elem. split.
    + intros [[H|[Hp Ha]]|(arg' & Hin & Hp & Ha)]; [auto| |].
      * right. exists arg. split; [left; reflexivity|auto].
      * right. exists arg'. split; [right; exact Hin|auto].
    + intros [H|(arg' & [<-|Hin] & Hp & Ha)]; [auto|auto|].
      right. exists arg'. auto.
Qed.

Lemma mint_token_set_elem calls a :
  a ∈ mint_token_set calls <->
  exists call arg, In call calls /\ In arg (Arguments call) /\
    String.prefix mint_params_prefix (default ""%string (Name arg)) = true /\
    address (Value arg) = Some a.
Proof.
  unfold mint_token_set.
  assert (G : forall acc,
    a ∈ fold_left (fun acc call => fold_left mint_addresses_step (Arguments call) acc)
          calls acc <->
    a ∈ acc \/ exists call arg, In call calls /\ In arg (Arguments call) /\
      String.prefix mint_params_prefix (default ""%string (Name arg)) = true /\
      address (Value arg) = Some a).
  { induction calls as [|c calls IH]; intros acc; cbn [fold_left].
    - split; [auto|]. intros [H|(call & arg & [] & _)]. exact H.
    - rewrite IH, mint_addresses_loop_elem. split.
      + intros [[H|(arg & Hin & Hp & Ha)]|(call & arg & Hc & Hin & Hp & Ha)]; [auto| |].
        * right. exists c, arg. split; [left; reflexivity|auto].
        * right. exists call, arg. split; [right; exact Hc|auto].
      + intros [H|(call & arg & [<-|Hc] & Hin & Hp & Ha)]; [auto| |].
        * left. right. exists arg. auto.
        * right. exists call, arg. auto. }
  rewrite G. split; [intros [H|H]; [|exact H]|auto].
  apply elem_of_empty in H. destruct H.
Qed.

(** Where the two token addresses of the parsed parameters come from. *)
Lemma mint_arg_step_tokens params arg params' :
  mint_arg_step params arg = Ret params' ->
  (forall a, p_token0 params' = Some a ->
     p_token0 params = Some a \/ (index_is arg 0 = true /\ address (Value arg) = Some a)) /\
  (forall a, p_token1 params' = Some a ->
     p_token1 params = Some a \/ (index_is arg 1 = true /\ address (Value arg) = Some a)).
Proof.
  destruct params. unfold mint_arg_step.
  destruct (index_is arg 0 && has_key (address (Value arg))) eqn:C0.
  { apply andb_prop in C0 as [N0 _]. intros [= <-]. cbn. split; auto. }
  destruct (index_is arg 1 && has_key (address (Value arg))) eqn:C1.
  { apply andb_prop in C1 as [N1 _]. intros [= <-]. cbn. split; auto. }
  repeat match goal with
  | |- context [if ?c && ?d then _ else _] => destruct (c && d)
  end;
  try (intros [= <-]; cbn; split; auto);
  destruct (py_int (bigInteger (Value arg))); cbn;
  try discriminate; intros [= <-]; cbn; split; auto.
Qed.

Lemma parse_mint_loop_tokens args : forall params params',
  for_each mint_arg_step params args = Ret params' ->
  (forall a, p_token0 params' = Some a ->
     p_token0 params = Some a \/
     exists arg, In arg args /\ index_is arg 0 = true /\ address (Value arg) = Some a) /\
  (forall a, p_token1 params' = Some a ->
     p_token1 params = Some a \/
     exists arg, In arg args /\ index_is arg 1 = true /\ address (Value arg) = Some a).
Proof.
  induction args as [|arg args IH]; intros params params'; cbn [for_each].
  - intros [= <-]. split; auto.
  - destruct (mint_arg_step params arg) as [p1|] eqn:E; [|by_raise].
    rewrite bind_Ret. intros H. destruct (IH _ _ H) as [I0 I1].
    destruct (mint_arg_step_tokens _ _ _ E) as [S0 S1].
    split; intros a Ha.
    + destruct (I0 a Ha) as [Hp|(arg' & Hin & Hi & Hv)].
      * destruct (S0 a Hp) as [?|[? ?]]; [auto|]. right. exists arg.
        split; [left; reflexivity|auto].
      * right. exists arg'. split; [right; exact Hin|auto].
    + destruct (I1 a Ha) as [Hp|(arg' & Hin & Hi & Hv)].
      * destruct (S1 a Hp) as [?|[? ?]]; [auto|]. right. exists arg.
        split; [left; reflexivity|auto].
      * right. exists arg'. split; [right; exact Hin|auto].
Qed.

Section MintAddresses.
Variable lm : libm.

(** Property X6. The list of addresses extracted from a batch of mint
    calls has no duplicates; it holds exactly the addresses of the
    arguments whose name starts with
    [INonfungiblePositionManagerMintParams]; and when all arguments of a
    call are so named, both token addresses of its mint event are in the
    list. *)
Theorem mint_addresses_are_those_of_named_arguments td calls :
  NoDup (extract_token_addresses_from_mint_burn_response calls) /\
  (forall a, a ∈ extract_token_addresses_from_mint_burn_response calls <->
     exists call arg, In call calls /\ In arg (Arguments call) /\
       String.prefix mint_params_prefix (default ""%string (Name arg)) = true /\
       address (Value arg) = Some a) /\
  (forall call ev, In call calls ->
     mint_event_of_call lm td call = Ret (Some ev) ->
     Forall (fun arg => String.prefix mint_params_prefix
                          (default ""%string (Name arg)) = true) (Arguments call) ->
     exists a0 a1,
       td_address (mint_token0 ev) = Some a0 /\
       td_address (mint_token1 ev) = Some a1 /\
       a0 ∈ extract_token_addresses_from_mint_burn_response calls /\
       a1 ∈ extract_token_addresses_from_mint_burn_response calls).
Proof.
  unfold extract_token_addresses_from_mint_burn_response.
  split; [apply NoDup_elements|]. split.
  - intros a. rewrite elem_of_elements. apply mint_token_set_elem.
  - intros call ev Hc Hev Hnames.
    apply mint_event_of_call_inv in Hev
      as (params & band & Hp & T0 & T1 & _ & E0 & E1 & _).
    unfold parse_mint_burn_arguments in Hp.
    destruct (parse_mint_loop_tokens _ _ _ Hp) as [I0 I1].
    apply truthy_Some in T0 as (a0 & Ha0 & _). apply truthy_Some in T1 as (a1 & Ha1 & _).
    exists a0, a1. rewrite E0, E1. cbn [td_address].
    split; [exact Ha0|]. split; [exact Ha1|].
    rewrite List.Forall_forall in Hnames.
    split; rewrite elem_of_elements; apply mint_token_set_elem.
    + destruct (I0 a0 Ha0) as [H|(arg & Hin & _ & Hv)]; [discriminate|].
      exists call, arg. auto.
    + destruct (I1 a1 Ha1) as [H|(arg & Hin & _ & Hv)]; [discriminate|].
      exists call, arg. auto.
Qed.

End MintAddresses.

(** ** More on the creation events *)

Lemma creator_of_call_inv call cd :
  creator_of_call call = Ret (Some cd) ->
  Tx_From (Transaction call) = Some (creator_address cd) /\
  truthy_str (creator_address cd) = true /\
  cd_transaction_hash cd = Tx_Hash (Transaction call) /\
  cd_transaction_value_usd cd = Tx_ValueInUSD (Transaction call) /\
  cd_block_number cd = Block_Number (Block call) /\
  cd_timestamp cd = Block_Time (Block call).
Proof.
  unfold creator_of_call.
  destruct (Tx_From (Transaction call)) as [creator|]; [|intros [=]].
  destruct (truthy_str creator) eqn:T; [|intros [=]].
  destruct (for_each creator_args_step CreatorArgs_init (Arguments call)) as [args|];
    [|by_raise].
  rewrite bind_Ret. intros [= <-]. simpl. auto 10.
Qed.

Lemma creator_of_call_no_sender call :
  truthy (Tx_From (Transaction call)) = false -> creator_of_call call = Ret None.
Proof.
  unfold creator_of_call, truthy.
  destruct (Tx_From (Transaction call)) as [creator|]; [|reflexivity].
  intros ->. reflexivity.
Qed.

Section MoreCreators.
Variable float_of_str : string -> option float.

(** Property X15. A call without sender yields no creation event, whatever
    its arguments, and the batch is extracted as if the call were not
    there. Every extracted event has a non-empty creator address, which
    is the sender of a call of the batch, and that call's block time; so
    the aggregator never records the empty address for such a batch. *)
Theorem creators_are_senders calls :
  (forall before call after,
     calls = before ++ call :: after ->
     truthy (Tx_From (Transaction call)) = false ->
     creator_of_call call = Ret None /\
     extract_position_creators_from_response calls =
     extract_position_creators_from_response (before ++ after)) /\
  (forall evs, extract_position_creators_from_response calls = Ret evs ->
     (length evs <= length calls)%nat /\
     (forall cd, In cd evs ->
        creator_address cd <> EmptyString /\
        exists call, In call calls /\
          Tx_From (Transaction call) = Some (creator_address cd) /\
          cd_timestamp cd = Block_Time (Block call)) /\
     (forall a, a ∈ (analyze_top_creators float_of_str evs).*1 -> a <> EmptyString)).
Proof.
  split.
  - intros before call after -> Hno.
    pose proof (creator_of_call_no_sender call Hno) as Hskip. split; [exact Hskip|].
    induction before as [|c before IH]; simpl.
    + rewrite Hskip, bind_Ret.
      destruct (extract_position_creators_from_response after); reflexivity.
    + rewrite IH. reflexivity.
  - assert (G : forall evs, extract_position_creators_from_response calls = Ret evs ->
      (length evs <= length calls)%nat /\
      (forall cd, In cd evs ->
        creator_address cd <> EmptyString /\
        exists call, In call calls /\
          Tx_From (Transaction call) = Some (creator_address cd) /\
          cd_timestamp cd = Block_Time (Block call))).
    { induction calls as [|c calls IH]; intros evs H; simpl in H.
      - injection H as <-. split; [reflexivity|intros cd []].
      - destruct (creator_of_call c) as [o|] eqn:E; [|discriminate H].
        rewrite bind_Ret in H.
        destruct (extract_position_creators_from_response calls) as [rest|]; [|discriminate H].
        rewrite bind_Ret in H. injection H as <-.
        destruct (IH rest eq_refl) as [Hlen Hall].
        assert (Hrest : forall cd, In cd rest ->
                  creator_address cd <> EmptyString /\
                  exists call, In call (c :: calls) /\
                    Tx_From (Transaction call) = Some (creator_address cd) /\
                    cd_timestamp cd = Block_Time (Block call)).
        { intros cd Hin. destruct (Hall cd Hin) as (Hne & call & Hc & Hf & Ht).
          split; [exact Hne|]. exists call. split; [right; exact Hc|auto]. }
        destruct o as [cd0|]; [|split; [simpl; lia|exact Hrest]].
        split; [simpl; lia|]. intros cd [<-|Hin]; [|apply Hrest, Hin].
        apply creator_of_call_inv in E as (Hf & Ht & _ & _ & _ & Hts).
        split; [apply truthy_str_nonempty, Ht|].
        exists c. split; [left; reflexivity|auto]. }
    intros evs H. destruct (G evs H) as [Hlen Hall].
    split; [exact Hlen|]. split; [exact Hall|].
    intros a Ha.
    assert (Hkeys : (analyze_top_creators float_of_str evs).*1
                    = (fold_events float_of_str evs).*1).
    { unfold analyze_top_creators. rewrite <- list_fmap_compose. reflexivity. }
    rewrite Hkeys in Ha. apply (proj2 (fold_events_keys float_of_str evs)) in Ha.
    apply list_elem_of_fmap in Ha as (cd & -> & Hin).
    apply list_elem_of_In in Hin. apply Hall, Hin.
Qed.

(** Folding the events of one creator, from given statistics. *)
Lemma add_pair_pair_of pairs ev :
  add_pair pairs (cd_token0_address ev) (cd_token1_address ev) =
  match pair_of ev with
  | Some p => {[ p ]} ∪ pairs
  | None => pairs
  end.
Proof.
  unfold add_pair, pair_of.
  destruct (cd_token0_address ev) as [a|]; [|reflexivity].
  destruct (cd_token1_address ev) as [b|]; [|reflexivity].
  destruct (truthy_str a && truthy_str b); reflexivity.
Qed.

Lemma update_stats_fold l : forall st,
  total_positions (fold_left (update_stats float_of_str) l st)
    = (total_positions st + Z.of_nat (length l))%Z /\
  positions (fold_left (update_stats float_of_str) l st) = positions st ++ l /\
  unique_pairs (fold_left (update_stats float_of_str) l st)
    = list_to_set (omap pair_of l) ∪ unique_pairs st.
Proof.
  induction l as [|ev l IH]; intros st.
  - cbn [fold_left length]. split; [lia|]. split; [rewrite app_nil_r; reflexivity|].
    change (omap pair_of []) with (@nil string).
    rewrite list_to_set_nil, union_empty_l_L. reflexivity.
  - cbn [fold_left length]. destruct (IH (update_stats float_of_str st ev)) as (H1 & H2 & H3).
    rewrite H1, H2, H3. cbn [update_stats total_positions positions unique_pairs].
    split; [lia|]. split; [rewrite <- app_assoc; reflexivity|].
    rewrite add_pair_pair_of.
    change (omap pair_of (ev :: l))
      with (match pair_of ev with Some p => p :: omap pair_of l | None => omap pair_of l end).
    destruct (pair_of ev) as [p|]; [|reflexivity].
    rewrite list_to_set_cons, (comm_L (∪) {[p]} (list_to_set (omap pair_of l))),
      <- (assoc_L (∪)). reflexivity.
Qed.

(** The record of an address after a batch: none if the batch has no event
    from it, else the fold of its events in batch order. *)
Lemma fold_events_lookup evs a :
  od_lookup a (fold_events float_of_str evs) =
  match events_of a evs with
  | [] => None
  | l => Some (fold_left (update_stats float_of_str) l Stats_default)
  end.
Proof.
  induction evs as [|ev evs IH] using rev_ind; [reflexivity|].
  rewrite fold_events_snoc, fold_event_lookup. unfold events_of in *.
  rewrite List.filter_app. simpl.
  destruct (String.eqb (creator_address ev) a).
  - rewrite IH. destruct (List.filter _ evs) as [|e l]; [reflexivity|].
    simpl. rewrite fold_left_app. reflexivity.
  - rewrite app_nil_r. exact IH.
Qed.

Lemma creator_stats_of evs a st :
  od_lookup a (analyze_top_creators float_of_str evs) = Some st ->
  events_of a evs <> [] /\
  st = finish_stats (fold_left (update_stats float_of_str) (events_of a evs) Stats_default).
Proof.
  unfold analyze_top_creators. rewrite od_lookup_map, fold_events_lookup.
  destruct (events_of a evs) as [|e l]; [intros [=]|].
  intros [= <-]. split; [discriminate|reflexivity].
Qed.

(** Property X16. The record of a creator depends on the events of that
    creator only: two batches with the same events from an address, in
    the same order, give it the same record. *)
Theorem creators_are_independent evs1 evs2 a :
  events_of a evs1 = events_of a evs2 ->
  od_lookup a (analyze_top_creators float_of_str evs1) =
  od_lookup a (analyze_top_creators float_of_str evs2).
Proof.
  intros H. unfold analyze_top_creators.
  rewrite !od_lookup_map, !fold_events_lookup, H. reflexivity.
Qed.

End MoreCreators.

Lemma first_occurrences_elem l x : x ∈ first_occurrences l <-> x ∈ l.
Proof.
  induction l as [|y l IH]; simpl; [reflexivity|].
  assert (F : x ∈ List.filter (fun y0 => negb (String.eqb y0 y)) (first_occurrences l)
              <-> x ∈ l /\ x <> y).
  { rewrite <- IH, !list_elem_of_In, filter_In, negb_true_iff, String.eqb_neq.
    reflexivity. }
  rewrite !elem_of_cons, F.
  destruct (String.eqb_spec x y) as [->|Hne]; tauto.
Qed.

Lemma first_occurrences_snoc l x :
  first_occurrences (l ++ [x]) =
  if decide (x ∈ first_occurrences l) then first_occurrences l
  else first_occurrences l ++ [x].
Proof.
  induction l as [|y l IH].
  - destruct (decide (x ∈ first_occurrences [])) as [H|H]; [inversion H|reflexivity].
  - cbn [app first_occurrences]. rewrite IH. clear IH.
    assert (F : forall z, z ∈ List.filter (fun y0 => negb (String.eqb y0 y))
                                (first_occurrences l)
                <-> z ∈ first_occurrences l /\ z <> y).
    { intros z. rewrite !list_elem_of_In, filter_In, negb_true_iff, String.eqb_neq.
      reflexivity. }
    destruct (decide (x ∈ y :: List.filter (fun y0 => negb (String.eqb y0 y))
                                 (first_occurrences l))) as [Hin|Hnin];
      destruct (decide (x ∈ first_occurrences l)) as [Hin'|Hnin'].
    + reflexivity.
    + apply elem_of_cons in Hin as [->|Hin]; [|apply F in Hin; tauto].
      rewrite List.filter_app. simpl. rewrite String.eqb_refl. simpl.
      rewrite app_nil_r. reflexivity.
    + exfalso. apply Hnin. destruct (String.eqb_spec x y) as [->|Hne]; [left|].
      right. apply F. auto.
    + rewrite List.filter_app. simpl.
      destruct (String.eqb_spec x y) as [->|Hne]; [exfalso; apply Hnin; left|].
      reflexivity.
Qed.

Section MoreAggregator.
Variable float_of_str : string -> option float.

Lemma analyze_keys evs :
  (analyze_top_creators float_of_str evs).*1 = (fold_events float_of_str evs).*1.
Proof. unfold analyze_top_creators. rewrite <- list_fmap_compose. reflexivity. Qed.

Lemma analyze_keys_order evs :
  (analyze_top_creators float_of_str evs).*1 =
  first_occurrences (creator_address <$> evs).
Proof.
  rewrite analyze_keys.
  induction evs as [|ev evs IH] using rev_ind; [reflexivity|].
  rewrite fold_events_snoc, fold_event_keys, fmap_app. simpl.
  rewrite first_occurrences_snoc, <- IH.
  destruct (decide (creator_address ev ∈ (fold_events float_of_str evs).*1));
    reflexivity.
Qed.

(** Property X18. The creators come in the order of their first event, and
    an address has a record exactly when an event of the batch comes from
    it. *)
Theorem creators_in_order_of_first_event evs :
  (analyze_top_creators float_of_str evs).*1 =
  first_occurrences (creator_address <$> evs) /\
  forall a, od_lookup a (analyze_top_creators float_of_str evs) <> None <->
            exists ev, In ev evs /\ creator_address ev = a.
Proof.
  split; [apply analyze_keys_order|].
  intros a. rewrite od_lookup_None, analyze_keys_order.
  split.
  - intros H. destruct (decide (a ∈ first_occurrences (creator_address <$> evs)))
      as [Hin|Hnin]; [|contradiction].
    apply first_occurrences_elem, list_elem_of_fmap in Hin as (ev & -> & Hin).
    exists ev. split; [apply list_elem_of_In, Hin|reflexivity].
  - intros (ev & Hin & <-) Hn. apply Hn, first_occurrences_elem, list_elem_of_fmap.
    exists ev. split; [reflexivity|apply list_elem_of_In, Hin].
Qed.

Lemma sum_positions_from (cs : list (string * CreatorStats)) : forall z,
  fold_left (fun total kv => (total + total_positions (acc (snd kv)))%Z) cs z
  = (z + summary_total_positions cs)%Z.
Proof.
  unfold summary_total_positions.
  induction cs as [|kv cs IH]; intros z; simpl; [lia|].
  rewrite (IH (z + _)%Z), (IH (0 + _)%Z). lia.
Qed.

Lemma summary_cons kv cs :
  summary_total_positions (kv :: cs) =
  (total_positions (acc (snd kv)) + summary_total_positions cs)%Z.
Proof. unfold summary_total_positions at 1. simpl. apply sum_positions_from. Qed.

Lemma summary_od_set k v d :
  summary_total_positions (finished (od_set k v d)) =
  (summary_total_positions (finished d) + total_positions v
   - total_positions (default Stats_default (od_lookup k d)))%Z.
Proof.
  induction d as [|[k0 v0] d IH]; simpl.
  - unfold finished. simpl. rewrite summary_cons. simpl.
    unfold summary_total_positions. simpl. lia.
  - destruct (String.eqb k0 k); simpl.
    + unfold finished. simpl. rewrite !summary_cons. simpl. lia.
    + unfold finished in *. simpl. rewrite !summary_cons, IH. simpl. lia.
Qed.

(** Property X17. The summary counts every event once: the position counts
    of all creators add up to the number of events, and there are at most
    as many creators as events. *)
Theorem summary_counts_every_event evs :
  summary_total_positions (analyze_top_creators float_of_str evs)
    = Z.of_nat (length evs) /\
  (summary_total_creators (analyze_top_creators float_of_str evs)
    <= Z.of_nat (length evs))%Z.
Proof.
  split.
  - unfold analyze_top_creators. fold (finished (fold_events float_of_str evs)).
    induction evs as [|ev evs IH] using rev_ind; [reflexivity|].
    rewrite fold_events_snoc. unfold fold_event. rewrite summary_od_set, IH.
    rewrite length_app. simpl. lia.
  - unfold summary_total_creators.
    rewrite <- (length_fmap fst), analyze_keys_order.
    apply inj_le.
    assert (G : forall l, (length (first_occurrences l) <= length l)%nat).
    { induction l as [|x l IHl]; simpl; [lia|].
      pose proof (List.filter_length_le (fun y => negb (String.eqb y x))
                    (first_occurrences l)). lia. }
    rewrite <- (length_fmap creator_address evs). apply G.
Qed.

Lemma omap_length_le {A B} (f : A -> option B) l : (length (omap f l) <= length l)%nat.
Proof. induction l as [|x l IH]; csimpl; [lia|]. destruct (f x); simpl; lia. Qed.

Lemma size_list_to_set_le `{Countable A} (l : list A) :
  (size (list_to_set l : gset A) <= length l)%nat.
Proof.
  induction l as [|x l IH]; [rewrite list_to_set_nil, size_empty; simpl; lia|].
  rewrite list_to_set_cons, size_union_alt, size_singleton. simpl.
  assert (size (list_to_set l ∖ {[x]} : gset A) <= size (list_to_set l : gset A))%nat
    by (apply subseteq_size, subseteq_difference_l; reflexivity).
  lia.
Qed.

(** Property X19. In the record of a creator, [positions] lists the events
    of that creator in batch order and [total_positions] is their number,
    which is positive; the pairs are those of its events that have both
    token addresses, listed without duplicates, and their count is at most
    [total_positions]. *)
Theorem creator_record_lists_its_events evs a st :
  od_lookup a (analyze_top_creators float_of_str evs) = Some st ->
  positions (acc st) = events_of a evs /\
  total_positions (acc st) = Z.of_nat (length (positions (acc st))) /\
  (0 < total_positions (acc st))%Z /\
  unique_pairs (acc st) = list_to_set (omap pair_of (events_of a evs)) /\
  NoDup (unique_pairs_list st) /\
  unique_pairs_count st = Z.of_nat (length (unique_pairs_list st)) /\
  (unique_pairs_count st <= total_positions (acc st))%Z.
Proof.
  intros H. apply creator_stats_of in H as [Hne ->].
  destruct (update_stats_fold float_of_str (events_of a evs) Stats_default)
    as (H1 & H2 & H3).
  unfold finish_stats. cbn [acc unique_pairs_list unique_pairs_count].
  rewrite H1, H2, H3. cbn [positions total_positions unique_pairs Stats_default].
  rewrite app_nil_l, union_empty_r_L.
  assert (Hlen : (0 < length (events_of a evs))%nat).
  { destruct (events_of a evs); [contradiction|simpl; lia]. }
  split; [reflexivity|]. split; [lia|]. split; [lia|]. split; [reflexivity|].
  split; [apply NoDup_elements|]. split; [reflexivity|].
  pose proof (size_list_to_set_le (omap pair_of (events_of a evs))).
  pose proof (omap_length_le pair_of (events_of a evs)). lia.
Qed.

End MoreAggregator.

(** ** The order of strings *)

Lemma string_ltb_lt a b : String.ltb a b = true <-> OrdersEx.String_as_OT.lt a b.
Proof.
  unfold String.ltb, OrdersEx.String_as_OT.lt.
  change (OrdersEx.String_as_OT.compare a b) with (String.compare a b).
  destruct (String.compare a b); split; congruence.
Qed.

Lemma string_ltb_irrefl a : String.ltb a a = false.
Proof.
  destruct (String.ltb a a) eqn:E; [|reflexivity].
  apply string_ltb_lt in E.
  destruct (StrictOrder_Irreflexive (R:=OrdersEx.String_as_OT.lt) a E).
Qed.

Lemma string_ltb_trans a b c :
  String.ltb a b = true -> String.ltb b c = true -> String.ltb a c = true.
Proof.
  rewrite !string_ltb_lt. apply (StrictOrder_Transitive (R:=OrdersEx.String_as_OT.lt)).
Qed.

Lemma timestamps_truthy evs t : In t (timestamps evs) -> truthy_str t = true.
Proof.
  unfold timestamps. intros H. apply list_elem_of_In, list_elem_of_omap in H.
  destruct H as (ev & _ & H). destruct (cd_timestamp ev) as [t'|]; [|discriminate].
  destruct (truthy_str t') eqn:E; [|discriminate]. injection H as <-. exact E.
Qed.

Section TimeRange.
Variable float_of_str : string -> option float.

Lemma time_range_fold l :
  let st := fold_left (update_stats float_of_str) l Stats_default in
  time_range_of (timestamps l) (first_position_time st) (last_position_time st).
Proof.
  induction l as [|ev l IH] using rev_ind; [split; reflexivity|].
  cbv zeta in *. rewrite fold_left_app. cbn [fold_left].
  set (st := fold_left (update_stats float_of_str) l Stats_default) in *.
  unfold timestamps in *. rewrite omap_app. cbn [omap list_omap].
  cbn [update_stats first_position_time last_position_time].
  destruct (cd_timestamp ev) as [t|]; [|rewrite app_nil_r; exact IH].
  destruct (truthy_str t) eqn:Ht; [|rewrite app_nil_r; exact IH].
  fold (timestamps l) in *.
  destruct (timestamps l) as [|t0 ts] eqn:E.
  - destruct IH as [-> ->]. simpl. exists t, t.
    split; [reflexivity|]. split; [reflexivity|].
    split; [left; reflexivity|]. split; [left; reflexivity|].
    intros t' [<-|[]]. split; apply string_ltb_irrefl.
  - destruct IH as (t1 & t2 & -> & -> & H1 & H2 & Hall).
    assert (T1 : truthy_str t1 = true) by (apply (timestamps_truthy l); rewrite E; exact H1).
    assert (T2 : truthy_str t2 = true) by (apply (timestamps_truthy l); rewrite E; exact H2).
    unfold earlier, later, truthy. rewrite T1, T2. cbn [negb].
    cbn [app].
    exists (if String.ltb t t1 then t else t1), (if String.ltb t2 t then t else t2).
    split; [destruct (String.ltb t t1); reflexivity|].
    split; [destruct (String.ltb t2 t); reflexivity|].
    change (t0 :: ts ++ [t]) with ((t0 :: ts) ++ [t]).
    split; [destruct (String.ltb t t1); apply in_or_app; [right; left; reflexivity|left; exact H1]|].
    split; [destruct (String.ltb t2 t); apply in_or_app; [right; left; reflexivity|left; exact H2]|].
    intros t' Hin. apply in_app_or in Hin as [Hin|[<-|[]]].
    + destruct (Hall t' Hin) as [Ha Hb]. split.
      * destruct (String.ltb t t1) eqn:L; [|exact Ha].
        destruct (String.ltb t' t) eqn:L'; [|reflexivity].
        rewrite (string_ltb_trans _ _ _ L' L) in Ha. discriminate.
      * destruct (String.ltb t2 t) eqn:L; [|exact Hb].
        destruct (String.ltb t t') eqn:L'; [|reflexivity].
        rewrite (string_ltb_trans _ _ _ L L') in Hb. discriminate.
    + split.
      * destruct (String.ltb t t1) eqn:L; [apply string_ltb_irrefl|exact L].
      * destruct (String.ltb t2 t) eqn:L; [apply string_ltb_irrefl|exact L].
Qed.

(** Property X20. The time range of a creator: without a non-empty time
    stamp both ends are [None]; otherwise both ends are time stamps of its
    events, no time stamp is before the first end or after the last end,
    and the first end is never after the last. *)
Theorem time_range_spans_the_events evs a st :
  od_lookup a (analyze_top_creators float_of_str evs) = Some st ->
  time_range_of (timestamps (events_of a evs))
    (first_position_time (acc st)) (last_position_time (acc st)) /\
  forall t1 t2, first_position_time (acc st) = Some t1 ->
                last_position_time (acc st) = Some t2 -> String.ltb t2 t1 = false.
Proof.
  intros H. apply creator_stats_of in H as [_ ->]. cbn [finish_stats acc].
  pose proof (time_range_fold (events_of a evs)) as R. cbv zeta in R.
  split; [exact R|].
  intros t1 t2 E1 E2. rewrite E1, E2 in R. unfold time_range_of in R.
  destruct (timestamps (events_of a evs)); [destruct R; discriminate|].
  destruct R as (t1' & t2' & [= <-] & [= <-] & H1 & H2 & Hall).
  apply (Hall t2 H2).
Qed.

End TimeRange.

(** ** More on the ranker *)

Section Stability.
Context {A : Type} (key : A -> Z).

Lemma insert_desc_ties k x l :
  List.filter (fun y => Z.eqb (key y) k) (insert_desc Z.ltb key x l) =
  List.filter (fun y => Z.eqb (key y) k) (x :: l).
Proof.
  induction l as [|y l IH]; [reflexivity|].
  cbn [insert_desc]. destruct (Z.ltb_spec (key x) (key y)) as [Hlt|Hge]; [|reflexivity].
  cbn [List.filter] in *. rewrite IH.
  destruct (Z.eqb_spec (key x) k), (Z.eqb_spec (key y) k); try reflexivity. lia.
Qed.

Lemma sorted_desc_ties k l :
  List.filter (fun y => Z.eqb (key y) k) (sorted_desc Z.ltb key l) =
  List.filter (fun y => Z.eqb (key y) k) l.
Proof.
  induction l as [|x l IH]; [reflexivity|].
  cbn [sorted_desc]. rewrite insert_desc_ties. cbn [List.filter]. rewrite IH. reflexivity.
Qed.

Lemma slice_to_take (n : Z) (l : list A) : exists m, slice_to n l = take m l.
Proof. unfold slice_to. destruct (0 <=? n)%Z; eauto. Qed.

Lemma ranked_ties k n l :
  List.filter (fun y => Z.eqb (key y) k) (slice_to n (sorted_desc Z.ltb key l))
    `prefix_of` List.filter (fun y => Z.eqb (key y) k) l.
Proof.
  destruct (slice_to_take n (sorted_desc Z.ltb key l)) as [m ->].
  exists (List.filter (fun y => Z.eqb (key y) k) (drop m (sorted_desc Z.ltb key l))).
  rewrite <- List.filter_app, take_drop. symmetry. apply sorted_desc_ties.
Qed.

Lemma sorted_desc_strongly l :
  StronglySorted (fun a b => Z_ge (key a) (key b)) (sorted_desc Z.ltb key l).
Proof.
  apply Sorted_StronglySorted; [unfold Z_ge; intros a b c; lia|].
  apply (sorted_desc_Sorted Z.ltb key Z_ge (fun _ => True)).
  - unfold Z_ge. intros x y H. apply Z.ltb_lt in H. lia.
  - unfold Z_ge. intros x y _ _ H. apply Z.ltb_ge in H. lia.
  - apply Forall_forall. auto.
Qed.

Lemma StronglySorted_app_In (R : A -> A -> Prop) l1 l2 a b :
  StronglySorted R (l1 ++ l2) -> In a l1 -> In b l2 -> R a b.
Proof.
  induction l1 as [|x l1 IH]; intros S Ha Hb; [destruct Ha|].
  inversion S as [|? ? S' Hall]; subst. destruct Ha as [->|Ha]; [|auto].
  rewrite List.Forall_forall in Hall. apply Hall, in_or_app. right. exact Hb.
Qed.

(** A slice by a negative bound: the list without its last entries. *)
Lemma negative_slice (n : Z) (l : list A) :
  (n < 0)%Z ->
  exists dropped,
    slice_to n l ++ dropped = l /\
    length dropped = Nat.min (Z.to_nat (- n)) (length l) /\
    length (slice_to n l) = (length l - Z.to_nat (- n))%nat /\
    forall (R : A -> A -> Prop), StronglySorted R l ->
      forall a b, In a (slice_to n l) -> In b dropped -> R a b.
Proof.
  intros Hn. unfold slice_to. destruct (Z.leb_spec 0 n) as [|_]; [lia|].
  exists (drop (length l - Z.to_nat (- n)) l).
  split; [apply take_drop|]. split; [rewrite length_drop; lia|].
  split; [rewrite length_take; lia|].
  intros R S a b Ha Hb.
  rewrite <- (take_drop (length l - Z.to_nat (- n)) l) in S.
  apply (StronglySorted_app_In _ _ _ a b S); assumption.
Qed.

(** A slice by the length of the list is the list. *)
Lemma full_slice (m : nat) (l : list A) :
  length l = m -> slice_to (Z.of_nat m) l = l.
Proof.
  intros <-. unfold slice_to. destruct (Z.leb_spec 0 (Z.of_nat (length l))); [|lia].
  apply take_ge. lia.
Qed.

End Stability.

(** [>=] on floats is transitive: a comparison that holds has no NaN. *)
Lemma float_geb_trans x y z :
  float_geb x y = true -> float_geb y z = true -> float_geb x z = true.
Proof.
  unfold float_geb, SFleb.
  destruct x as [sx|sx| |sx mx ex], y as [sy|sy| |sy my ey], z as [sz|sz| |sz mz ez];
    cbn [SFcompare]; try discriminate; try reflexivity;
    try (destruct sx; discriminate || reflexivity);
    try (destruct sy; discriminate || reflexivity);
    try (destruct sz; discriminate || reflexivity);
    try (destruct sx, sy; discriminate || reflexivity);
    try (destruct sy, sz; discriminate || reflexivity);
    try (destruct sx, sz; discriminate || reflexivity);
    try (destruct sx, sy, sz; discriminate || reflexivity).
  change (Pos.compare_cont Eq) with Pos.compare.
  destruct sx, sy, sz; try discriminate; try reflexivity;
    destruct (Z.compare_spec ey ex), (Z.compare_spec ez ey), (Z.compare_spec ez ex);
    try discriminate; try reflexivity; try lia; subst;
    destruct (Pos.compare_spec my mx), (Pos.compare_spec mz my), (Pos.compare_spec mz mx);
    cbn [CompOpp]; try discriminate; try reflexivity; lia.
Qed.

Section RankerProps.
Variable fs : float_sort.

(** Property X21. Sorting is stable: in the rankings by positions, by
    liquidity and by unique pairs, the creators that share one value of
    the metric come in dictionary order, as a prefix of them, and all of
    them when [top_n] is at least the number of creators. *)
Theorem ties_keep_dictionary_order creator_stats top_n k :
  let r := rank_creators fs creator_stats top_n in
  tied m_positions k (by_positions r) `prefix_of` tied m_positions k creator_stats /\
  tied m_liquidity k (by_liquidity r) `prefix_of` tied m_liquidity k creator_stats /\
  tied m_unique_pairs k (by_unique_pairs r) `prefix_of` tied m_unique_pairs k creator_stats /\
  ((Z.of_nat (length creator_stats) <= top_n)%Z ->
   tied m_positions k (by_positions r) = tied m_positions k creator_stats /\
   tied m_liquidity k (by_liquidity r) = tied m_liquidity k creator_stats /\
   tied m_unique_pairs k (by_unique_pairs r) = tied m_unique_pairs k creator_stats).
Proof.
  cbv zeta. unfold tied, rank_creators.
  cbn [by_positions by_liquidity by_unique_pairs].
  split; [apply ranked_ties|]. split; [apply ranked_ties|]. split; [apply ranked_ties|].
  intros Hn.
  assert (G : forall key : string * CreatorStats -> Z,
            slice_to top_n (sorted_desc Z.ltb key creator_stats)
            = sorted_desc Z.ltb key creator_stats).
  { intros key. unfold slice_to. destruct (Z.leb_spec 0 top_n); [|lia].
    apply take_ge.
    rewrite (Permutation_length (sorted_desc_Permutation Z.ltb key creator_stats)). lia. }
  rewrite !G, !sorted_desc_ties. auto.
Qed.

(** Property X22. With [top_n = 0] all four rankings are empty. With a
    negative [top_n], each of the four rankings is the full ranking (the
    one for [top_n] the number of creators, which lists them all) without
    its last [|top_n|] entries, so it has [len - |top_n|] entries, none
    when that is negative. In the rankings by positions, by liquidity and
    by unique pairs, and in the ranking by USD value when no USD total is
    a NaN, no dropped entry has a metric above that of a listed one. *)
Theorem rank_creators_nonpositive_top creator_stats :
  rank_creators fs creator_stats 0 =
    {| by_positions := []; by_liquidity := []; by_usd_value := [];
       by_unique_pairs := [] |} /\
  forall top_n, (top_n < 0)%Z ->
    let r := rank_creators fs creator_stats top_n in
    let full := rank_creators fs creator_stats (Z.of_nat (length creator_stats)) in
    (by_positions full ≡ₚ creator_stats /\ by_liquidity full ≡ₚ creator_stats /\
     by_usd_value full ≡ₚ creator_stats /\ by_unique_pairs full ≡ₚ creator_stats) /\
    drops_lowest Z_ge m_positions (by_positions full) top_n (by_positions r) /\
    drops_lowest Z_ge m_liquidity (by_liquidity full) top_n (by_liquidity r) /\
    drops_lowest Z_ge m_unique_pairs (by_unique_pairs full) top_n (by_unique_pairs r) /\
    drops_last (by_usd_value full) top_n (by_usd_value r) /\
    (Forall (fun x => is_nan (m_usd_value x) = false) creator_stats ->
     drops_lowest float_ge m_usd_value (by_usd_value full) top_n (by_usd_value r)).
Proof.
  split; [reflexivity|].
  intros top_n Hn. cbv zeta. unfold rank_creators.
  cbn [by_positions by_liquidity by_usd_value by_unique_pairs].
  assert (LZ : forall key : string * CreatorStats -> Z,
            length (sorted_desc Z.ltb key creator_stats) = length creator_stats).
  { intros key. apply Permutation_length, sorted_desc_Permutation. }
  pose proof (sorted_by_float_perm fs _ m_usd_value creator_stats) as PF.
  rewrite !(full_slice _ _ (LZ _)), (full_slice _ _ (Permutation_length PF)).
  assert (DZ : forall key : string * CreatorStats -> Z,
            drops_lowest Z_ge key (sorted_desc Z.ltb key creator_stats) top_n
              (slice_to top_n (sorted_desc Z.ltb key creator_stats))).
  { intros key.
    destruct (negative_slice top_n (sorted_desc Z.ltb key creator_stats) Hn)
      as (dropped & Happ & Hlen & Hkept & Hle).
    exists dropped. split; [exact Happ|]. split; [exact Hlen|]. split; [exact Hkept|].
    apply (Hle (fun a b => Z_ge (key a) (key b))), sorted_desc_strongly. }
  destruct (negative_slice top_n (sorted_by_float fs _ m_usd_value creator_stats) Hn)
    as (dropped & Happ & Hlen & Hkept & Hle).
  split.
  { split; [apply sorted_desc_Permutation|]. split; [apply sorted_desc_Permutation|].
    split; [exact PF|apply sorted_desc_Permutation]. }
  split; [apply DZ|]. split; [apply DZ|]. split; [apply DZ|]. split.
  - exists dropped. auto.
  - intros Hnan. exists dropped.
    split; [exact Happ|]. split; [exact Hlen|]. split; [exact Hkept|].
    apply (Hle (fun a b => float_ge (m_usd_value a) (m_usd_value b))).
    rewrite (sorted_by_float_total fs _ _ _ (no_nan_forallb _ Hnan)).
    apply Sorted_StronglySorted.
    + unfold float_ge. intros a b c. apply float_geb_trans.
    + apply (sorted_desc_Sorted float_ltb m_usd_value float_ge
               (fun x => is_nan (m_usd_value x) = false)); [| |exact Hnan];
        unfold float_ge; intros x y; [apply float_ltb_geb|apply float_not_ltb_geb].
Qed.

End RankerProps.

(** ** The burn patterns *)

Lemma sum_counts_od_set k v (d : counter) :
  sum_counts (od_set k v d) = (sum_counts d + v - default 0 (od_lookup k d))%Z.
Proof.
  induction d as [|[k0 v0] d IH]; simpl; [lia|].
  destruct (String.eqb k0 k); simpl; [lia|]. rewrite IH. lia.
Qed.

Lemma sum_counts_bump k d : sum_counts (bump k d) = (sum_counts d + 1)%Z.
Proof. unfold bump. rewrite sum_counts_od_set. lia. Qed.

Lemma od_lookup_In {V} k (v : V) d : od_lookup k d = Some v -> In (k, v) d.
Proof.
  induction d as [|[k0 v0] d IH]; simpl; [discriminate|].
  destruct (String.eqb_spec k0 k) as [->|Hne]; [intros [= ->]; left; reflexivity|].
  intros H. right. apply IH, H.
Qed.

Lemma od_set_In {V} k (v : V) d k' v' :
  In (k', v') (od_set k v d) -> (k' = k /\ v' = v) \/ In (k', v') d.
Proof.
  induction d as [|[k0 v0] d IH]; simpl.
  - intros [[= <- <-]|[]]. left. auto.
  - destruct (String.eqb_spec k0 k) as [->|Hne]; simpl.
    + intros [[= <- <-]|H]; auto.
    + intros [H|H]; [auto|]. destruct (IH H); auto.
Qed.

Lemma positive_counts_bump k d : positive_counts d -> positive_counts (bump k d).
Proof.
  intros Hd k' c' Hin. unfold bump in Hin. apply od_set_In in Hin as [[-> ->]|Hin].
  - destruct (od_lookup k d) as [c|] eqn:E; simpl; [|lia].
    apply od_lookup_In in E. specialize (Hd _ _ E). lia.
  - apply (Hd _ _ Hin).
Qed.

Lemma bump_NoDup k (d : counter) : NoDup d.*1 -> NoDup (bump k d).*1.
Proof.
  intros Hd. unfold bump. rewrite od_set_keys.
  destruct (decide (k ∈ d.*1)) as [Hin|Hnin]; [exact Hd|].
  apply NoDup_app. split; [exact Hd|]. split; [|apply NoDup_singleton].
  intros x Hx Hx'. apply list_elem_of_singleton in Hx'. subst x. contradiction.
Qed.

Lemma max_item_spec items : forall best,
  let r := max_item best items in
  In r (best :: items) /\ forall x, In x (best :: items) -> (snd x <= snd r)%Z.
Proof.
  induction items as [|item rest IH]; intros best; cbv zeta.
  - simpl. split; [auto|]. intros x [<-|[]]. lia.
  - cbn [max_item]. destruct (IH (if (snd best <? snd item)%Z then item else best))
      as [Hin Hmax]. cbv zeta in *. split.
    + destruct Hin as [Hin|Hin]; [|right; right; exact Hin].
      rewrite <- Hin. destruct (snd best <? snd item)%Z; simpl; auto.
    + intros x Hx.
      assert (Hb : (snd (if (snd best <? snd item)%Z then item else best)
                    <= snd (max_item (if (snd best <? snd item)%Z then item else best) rest))%Z)
        by (apply Hmax; left; reflexivity).
      destruct Hx as [<-|[<-|Hx]].
      * destruct (Z.ltb_spec (snd best) (snd item)); lia.
      * destruct (Z.ltb_spec (snd best) (snd item)); lia.
      * apply Hmax. right. exact Hx.
Qed.

Lemma In_od_lookup {V} k (v : V) d : NoDup d.*1 -> In (k, v) d -> od_lookup k d = Some v.
Proof.
  induction d as [|[k0 v0] d IH]; [intros _ []|].
  rewrite fmap_cons, NoDup_cons. cbn [fst od_lookup]. intros [Hk0 Hnd] [[= -> ->]|Hin].
  - rewrite String.eqb_refl. reflexivity.
  - destruct (String.eqb_spec k0 k) as [->|Hne]; [|apply IH; assumption].
    exfalso. apply Hk0. apply list_elem_of_fmap. exists (k, v).
    split; [reflexivity|apply list_elem_of_In, Hin].
Qed.

Lemma peak_spec (d : counter) : NoDup d.*1 -> d <> [] -> is_peak d (peak d).
Proof.
  intros Hnd Hne. destruct d as [|item rest]; [contradiction|].
  unfold peak, is_peak. destruct (max_item_spec rest item) as [Hin Hmax]. cbv zeta in *.
  exists (fst (max_item item rest)). cbn [fst snd]. split; [reflexivity|]. split.
  - apply In_od_lookup; [exact Hnd|]. destruct (max_item item rest); exact Hin.
  - intros k' c' H. apply (Hmax (k', c') H).
Qed.

Section BurnPatternProps.
Variable datetime : Type.
Variable fromisoformat : string -> option datetime.
Variable strftime : datetime -> string -> string.

Lemma bump_nonempty k d : bump k d <> [].
Proof.
  unfold bump. destruct d as [|[k0 v0] d]; simpl; [discriminate|].
  destruct (String.eqb k0 k); discriminate.
Qed.

Lemma pattern_step_ok n tb event tb' :
  tables_ok n tb -> pattern_step datetime fromisoformat strftime tb event = Done tb' -> tables_ok (S n) tb'.
Proof.
  intros (H1 & H2 & H3 & H4 & H5 & H6 & H7 & H8). unfold pattern_step.
  destruct (Block_Time (burn_block event)) as [ts|]; [|discriminate].
  destruct (fromisoformat (replace_Z ts)) as [dt|]; [|discriminate].
  intros [= <-]. unfold tables_ok.
  cbn [tb_events_by_hour tb_events_by_day tb_unique_burners].
  rewrite !sum_counts_bump, H1, H2.
  split; [lia|]. split; [lia|].
  split; [apply bump_NoDup, H3|]. split; [apply bump_NoDup, H4|].
  split; [apply positive_counts_bump, H5|]. split; [apply positive_counts_bump, H6|].
  split.
  - rewrite size_union_alt, size_singleton.
    assert (size (tb_unique_burners tb ∖ {[Tx_From (burn_transaction event)]})
            <= size (tb_unique_burners tb))%nat by (apply subseteq_size, subseteq_difference_l; reflexivity).
    lia.
  - intros _. split; [|split; apply bump_nonempty].
    intros Hemp.
    assert (Hin : Tx_From (burn_transaction event)
                  ∈ {[Tx_From (burn_transaction event)]} ∪ tb_unique_burners tb)
      by (apply elem_of_union_l, elem_of_singleton; reflexivity).
    rewrite Hemp in Hin. apply elem_of_empty in Hin. exact Hin.
Qed.

Lemma pattern_loop_ok events : forall n tb tb',
  tables_ok n tb -> pattern_loop datetime fromisoformat strftime tb events = Done tb' ->
  tables_ok (n + length events) tb'.
Proof.
  induction events as [|ev events IH]; intros n tb tb' Hok; cbn [pattern_loop].
  - intros [= <-]. rewrite Nat.add_0_r. exact Hok.
  - destruct (pattern_step datetime fromisoformat strftime tb ev) as [tb1|e] eqn:E; [|discriminate].
    intros H. cbn [length]. rewrite Nat.add_succ_r.
    apply (IH (S n) tb1 tb'); [|exact H]. apply (pattern_step_ok n tb ev); assumption.
Qed.

Lemma tables_ok_init : tables_ok 0 PatternTables_init.
Proof.
  unfold tables_ok, PatternTables_init. simpl.
  repeat split; try constructor; try (intros ? ? []); try contradiction.
Qed.

(** Property X23. When the burn analysis returns, [total_burns] is the
    number of events, the hourly counts and the daily counts each add up
    to it, the keys of each table are distinct and every count is at
    least 1, and the number of unique burners is at most [total_burns].
    For no event the average is the integer [0] and both peaks are
    [(None, 0)]; otherwise there is at least one burner, the average is
    the float quotient of the two numbers, and each peak is an entry of
    its table whose count no other entry exceeds. *)
Theorem burn_patterns_count_every_event processed_events a :
  analyze_burn_patterns datetime fromisoformat strftime processed_events = Done a ->
  total_burns a = Z.of_nat (length processed_events) /\
  sum_counts (events_by_hour a) = total_burns a /\
  sum_counts (events_by_day a) = total_burns a /\
  NoDup (events_by_hour a).*1 /\ NoDup (events_by_day a).*1 /\
  (forall k c, In (k, c) (events_by_hour a) \/ In (k, c) (events_by_day a) -> (1 <= c)%Z) /\
  (0 <= unique_burners a <= total_burns a)%Z /\
  match processed_events with
  | [] => unique_burners a = 0%Z /\ avg_burns_per_burner a = PyInt 0 /\
          peak_hour a = (None, 0%Z) /\ peak_day a = (None, 0%Z)
  | _ :: _ => (1 <= unique_burners a)%Z /\
          (exists f, avg_burns_per_burner a = PyFloat f /\
                     int_truediv (total_burns a) (unique_burners a) = Ret f) /\
          is_peak (events_by_hour a) (peak_hour a) /\
          is_peak (events_by_day a) (peak_day a)
  end.
Proof.
  unfold analyze_burn_patterns.
  destruct (pattern_loop datetime fromisoformat strftime PatternTables_init processed_events) as [tb|e] eqn:L;
    [|discriminate].
  pose proof (pattern_loop_ok _ _ _ _ tables_ok_init L)
    as (H1 & H2 & H3 & H4 & H5 & H6 & H7 & H8).
  cbn [Nat.add] in *. cbv zeta.
  destruct (average _ _) as [avg|e] eqn:A; [|discriminate].
  intros [= <-].
  cbn [total_burns unique_burners avg_burns_per_burner peak_hour peak_day
       events_by_day events_by_hour].
  split; [reflexivity|]. split; [exact H1|]. split; [exact H2|].
  split; [exact H3|]. split; [exact H4|].
  split; [intros k c [H|H]; [apply (H5 k c H)|apply (H6 k c H)]|].
  split; [lia|].
  destruct processed_events as [|ev rest].
  - cbn [pattern_loop] in L. injection L as <-. simpl in *.
    unfold average in A. simpl in A. injection A as <-. auto.
  - destruct H8 as (Hb & Hh & Hd); [discriminate|].
    assert (Hsz : size (tb_unique_burners tb) <> 0%nat).
    { intros Hz. apply size_empty_iff in Hz. apply Hb. apply leibniz_equiv, Hz. }
    split; [lia|]. split.
    + unfold average in A.
      destruct (Z.eqb_spec (Z.of_nat (size (tb_unique_burners tb))) 0) as [|_]; [lia|].
      cbn [negb] in A.
      destruct (int_truediv _ _) as [f|e]; [|discriminate].
      rewrite bind_Ret in A. injection A as <-. exists f. auto.
    + split; apply peak_spec; assumption.
Qed.

End BurnPatternProps.

Lemma burn_event_of_call_block call :
  truthy (parse_burn_arguments (Arguments call)) = true ->
  exists ev, burn_event_of_call call = Some ev /\ burn_block ev = Block call /\
             burn_transaction ev = Transaction call.
Proof.
  intros H. unfold burn_event_of_call. rewrite H. simpl. eexists. split; [reflexivity|].
  split; reflexivity.
Qed.

Lemma process_burn_events_In calls call ev :
  In call calls -> burn_event_of_call call = Some ev -> In ev (process_burn_events calls).
Proof.
  induction calls as [|c calls IH]; [intros []|].
  intros [->|Hin] E; cbn [process_burn_events].
  - rewrite E. left. reflexivity.
  - destruct (burn_event_of_call c); [right|]; apply IH; assumption.
Qed.

Section BurnPatternFailures.
Variable datetime : Type.
Variable fromisoformat : string -> option datetime.
Variable strftime : datetime -> string -> string.

Lemma pattern_step_returns tb event :
  time_parses datetime fromisoformat event = true ->
  exists tb', pattern_step datetime fromisoformat strftime tb event = Done tb'.
Proof.
  unfold time_parses, pattern_step.
  destruct (Block_Time (burn_block event)) as [ts|]; [|discriminate].
  destruct (fromisoformat (replace_Z ts)); [|discriminate]. eauto.
Qed.

Lemma pattern_step_fails tb event :
  time_parses datetime fromisoformat event = false ->
  pattern_step datetime fromisoformat strftime tb event = Fails (time_error event).
Proof.
  unfold time_parses, pattern_step, time_error.
  destruct (Block_Time (burn_block event)) as [ts|]; [|reflexivity].
  destruct (fromisoformat (replace_Z ts)); [discriminate|reflexivity].
Qed.

Lemma pattern_loop_returns events : forall tb,
  forallb (time_parses datetime fromisoformat) events = true ->
  exists tb', pattern_loop datetime fromisoformat strftime tb events = Done tb'.
Proof.
  induction events as [|ev events IH]; intros tb H; cbn [pattern_loop]; [eauto|].
  cbn [forallb] in H. apply andb_true_iff in H as [Hev Hrest].
  destruct (pattern_step_returns tb ev Hev) as [tb1 ->]. apply IH, Hrest.
Qed.

Lemma pattern_loop_fails before event after : forall tb,
  forallb (time_parses datetime fromisoformat) before = true ->
  time_parses datetime fromisoformat event = false ->
  pattern_loop datetime fromisoformat strftime tb (before ++ event :: after)
  = Fails (time_error event).
Proof.
  induction before as [|ev before IH]; intros tb H Hev; cbn [app pattern_loop].
  - rewrite (pattern_step_fails tb event Hev). reflexivity.
  - cbn [forallb] in H. apply andb_true_iff in H as [H1 Hrest].
    destruct (pattern_step_returns tb ev H1) as [tb1 ->]. apply IH; assumption.
Qed.

Lemma pattern_loop_needs_all events event : forall tb tb',
  In event events ->
  pattern_loop datetime fromisoformat strftime tb events = Done tb' ->
  time_parses datetime fromisoformat event = true.
Proof.
  induction events as [|ev events IH]; intros tb tb' Hin; [destruct Hin|].
  cbn [pattern_loop].
  destruct (time_parses datetime fromisoformat ev) eqn:E.
  - destruct (pattern_step_returns tb ev E) as [tb1 ->]. intros H.
    destruct Hin as [<-|Hin]; [exact E|]. apply (IH tb1 tb' Hin H).
  - rewrite (pattern_step_fails tb ev E). discriminate.
Qed.

(** Property X24. The burn analysis returns when every event has a time
    stamp that parses (for fewer than [2^1023] events). The first event
    whose time stamp is missing or does not parse makes it raise,
    [AttributeError] when missing and [ValueError] otherwise. A burn call
    with a token id and no block time is kept by [process_burn_events],
    and the analysis of a batch containing it does not return. *)
Theorem burn_patterns_need_every_time_stamp :
  (forall processed_events,
     (Z.of_nat (length processed_events) < 2 ^ 1023)%Z ->
     forallb (time_parses datetime fromisoformat) processed_events = true ->
     exists a, analyze_burn_patterns datetime fromisoformat strftime processed_events
               = Done a) /\
  (forall before event after,
     forallb (time_parses datetime fromisoformat) before = true ->
     time_parses datetime fromisoformat event = false ->
     analyze_burn_patterns datetime fromisoformat strftime (before ++ event :: after)
     = Fails (time_error event)) /\
  (forall calls call,
     In call calls ->
     truthy (parse_burn_arguments (Arguments call)) = true ->
     Block_Time (Block call) = None ->
     (exists ev, In ev (process_burn_events calls) /\ burn_block ev = Block call) /\
     forall a, analyze_burn_patterns datetime fromisoformat strftime
                 (process_burn_events calls) <> Done a).
Proof.
  split; [|split].
  - intros events Hlen Hall. unfold analyze_burn_patterns.
    destruct (pattern_loop_returns events PatternTables_init Hall) as [tb L]. rewrite L.
    pose proof (pattern_loop_ok datetime fromisoformat strftime _ _ _ _
                  (tables_ok_init) L) as (_ & _ & _ & _ & _ & _ & H7 & H8).
    cbn [Nat.add] in *. cbv zeta. unfold average.
    destruct (Z.eqb_spec (Z.of_nat (size (tb_unique_burners tb))) 0) as [Hz|Hnz];
      cbn [negb]; [eauto|].
    destruct (int_truediv_returns (Z.of_nat (length events))
                (Z.of_nat (size (tb_unique_burners tb)))) as (f & -> & _); [lia|lia|nia|].
    rewrite bind_Ret. eauto.
  - intros before event after Hb He. unfold analyze_burn_patterns.
    rewrite (pattern_loop_fails before event after _ Hb He). reflexivity.
  - intros calls call Hin Htok Htime.
    destruct (burn_event_of_call_block call Htok) as (ev & Hev & Hblock & _).
    pose proof (process_burn_events_In calls call ev Hin Hev) as Hin'.
    split; [exists ev; auto|].
    intros a. unfold analyze_burn_patterns.
    destruct (pattern_loop _ _ _ _ _) as [tb|e] eqn:L; [|discriminate].
    apply (pattern_loop_needs_all _ ev _ _ Hin') in L.
    unfold time_parses in L. rewrite Hblock, Htime in L. discriminate.
Qed.

End BurnPatternFailures.

(** ** The further properties at concrete inputs *)

Lemma convert_amount_returns_or_overflows_witness :
  (exists f, convert_amount ref_libm (Some " -1_000 "%string) 2 = Ret f) \/
  convert_amount ref_libm (Some " -1_000 "%string) 2 = Raise OverflowError.
Proof. apply (convert_amount_returns_or_overflows ref_libm (Some " -1_000 "%string) 2). lia. Defined.

Lemma lookup_entries_come_from_records_witness :
  "0xB"%string <> EmptyString /\
  exists t, In t [usdc_transfer; nodec_transfer] /\
            SmartContract t = Some "0xB"%string /\
            Decimals t = Some 6%Z /\
            Some "USDC"%string = Symbol t /\ Some "USD Coin"%string = Currency_Name t.
Proof.
  apply (proj2 (lookup_entries_come_from_records [usdc_transfer; nodec_transfer])
           "0xB"%string
           {| decimals := 6; symbol := Some "USDC"%string;
              name := Some "USD Coin"%string |}).
  vm_compute. reflexivity.
Defined.

Lemma extracted_addresses_cover_snapshots_witness :
  exists p, position_of_call ref_libm ∅ nosym_call = Ret p /\
    NoDup (extract_token_addresses_from_positions_response [liquidity_call; nosym_call]) /\
    (forall a, td_address (pos_token0 p) = Some a ->
       a ∈ extract_token_addresses_from_positions_response [liquidity_call; nosym_call]) /\
    (forall a, td_address (pos_token1 p) = Some a ->
       a ∈ extract_token_addresses_from_positions_response [liquidity_call; nosym_call]).
Proof.
  eexists. split; [vm_compute; reflexivity|].
  apply (extracted_addresses_cover_snapshots ref_libm ∅ [liquidity_call; nosym_call]
           nosym_call); [right; left; reflexivity|vm_compute; reflexivity].
Defined.

Lemma mint_addresses_are_those_of_named_arguments_witness :
  exists ev, mint_event_of_call ref_libm ∅ mint_call_named = Ret (Some ev) /\
  exists a0 a1,
    td_address (mint_token0 ev) = Some a0 /\
    td_address (mint_token1 ev) = Some a1 /\
    a0 ∈ extract_token_addresses_from_mint_burn_response [mint_call_full; mint_call_named] /\
    a1 ∈ extract_token_addresses_from_mint_burn_response [mint_call_full; mint_call_named].
Proof.
  eexists. split; [vm_compute; reflexivity|].
  apply (proj2 (proj2 (mint_addresses_are_those_of_named_arguments ref_libm ∅
                         [mint_call_full; mint_call_named])) mint_call_named);
    [right; left; reflexivity|vm_compute; reflexivity|repeat constructor].
Defined.

Lemma find_token_id_takes_first_witness :
  find_token_id ([bigint_arg 0 "owner" "1"] ++ bigint_arg 1 "tokenId" "42"
                   :: [bigint_arg 2 "tokenId" "43"])
  = bigInteger (Value (bigint_arg 1 "tokenId" "42")).
Proof.
  apply (find_token_id_takes_first [bigint_arg 0 "owner" "1"]
           (bigint_arg 1 "tokenId" "42") [bigint_arg 2 "tokenId" "43"]); reflexivity.
Defined.

Lemma price_band_follows_ticks_witness :
  exists p, position_of_call ref_libm ∅ ticks_call = Ret p /\
    td_decimals (pos_token0 p) = info_decimals (token_info ∅ (td_address (pos_token0 p))) /\
    td_decimals (pos_token1 p) = info_decimals (token_info ∅ (td_address (pos_token1 p))) /\
    match pos_ticks p with
    | (Some l, Some u) =>
        exists pl pu,
          calculate_price_from_tick ref_libm l (td_decimals (pos_token0 p))
            (td_decimals (pos_token1 p)) = Ret pl /\
          calculate_price_from_tick ref_libm u (td_decimals (pos_token0 p))
            (td_decimals (pos_token1 p)) = Ret pu /\
          pos_price_band p = (Some pl, Some pu)
    | _ => pos_price_band p = (None, None)
    end.
Proof.
  eexists. split; [vm_compute; reflexivity|].
  apply (proj1 (price_band_follows_ticks ref_libm ∅ ticks_call)).
  vm_compute. reflexivity.
Defined.

Lemma nothing_processed_without_usable_record_witness :
  exists out,
    process_positions_with_decimals ref_libm [liquidity_call; nosym_call] [usdc_transfer]
      = Ret (Some out) /\
    length out = length [liquidity_call; nosym_call].
Proof.
  eexists. split; [vm_compute; reflexivity|].
  apply (proj2 (proj2 (nothing_processed_without_usable_record ref_libm
                         [liquidity_call; nosym_call] [usdc_transfer]))).
  vm_compute. reflexivity.
Defined.

Lemma mint_events_have_both_tokens_witness :
  exists out,
    process_mint_calls ref_libm ∅ [mint_call_named; mint_call_no_token0] = Ret out /\
    (length out <= length [mint_call_named; mint_call_no_token0])%nat /\
    forall ev, In ev out ->
      truthy (td_address (mint_token0 ev)) = true /\
      truthy (td_address (mint_token1 ev)) = true.
Proof.
  eexists. split; [vm_compute; reflexivity|].
  apply (mint_events_have_both_tokens ref_libm ∅ [mint_call_named; mint_call_no_token0]).
  vm_compute. reflexivity.
Defined.

Lemma malformed_tick_aborts_mint_batch_witness :
  mint_event_of_call ref_libm ∅ mint_call_bad_tick = Raise ValueError /\
  forall out, process_mint_calls ref_libm ∅
                ([mint_call_named] ++ mint_call_bad_tick :: [mint_call_named]) <> Ret out.
Proof.
  apply (malformed_tick_aborts_mint_batch ref_libm ∅ [mint_call_named]
           mint_call_bad_tick [mint_call_named]).
  reflexivity.
Defined.

Lemma parse_burn_arguments_takes_last_witness :
  parse_burn_arguments ([bigint_arg 0 "tokenId" "41"] ++ bigint_arg 1 "tokenId" "42"
                          :: [addr_arg 2 "tokenId" "0xA"])
  = bigInteger (Value (bigint_arg 1 "tokenId" "42")).
Proof.
  apply (parse_burn_arguments_takes_last [bigint_arg 0 "tokenId" "41"]
           (bigint_arg 1 "tokenId" "42") [addr_arg 2 "tokenId" "0xA"]); reflexivity.
Defined.

Lemma creators_are_senders_witness :
  creator_of_call (sent_call None None) = Ret None /\
  extract_position_creators_from_response
    ([sent_call (Some "0xS"%string) None] ++ sent_call None None
       :: [sent_call (Some "0xT"%string) None]) =
  extract_position_creators_from_response
    ([sent_call (Some "0xS"%string) None] ++ [sent_call (Some "0xT"%string) None]).
Proof.
  apply (proj1 (creators_are_senders float_of_digits
                  ([sent_call (Some "0xS"%string) None] ++ sent_call None None
                     :: [sent_call (Some "0xT"%string) None]))
           [sent_call (Some "0xS"%string) None] (sent_call None None)
           [sent_call (Some "0xT"%string) None]); reflexivity.
Defined.

Lemma creators_are_independent_witness :
  od_lookup "X"%string (analyze_top_creators float_of_digits scenario) =
  od_lookup "X"%string
    (analyze_top_creators float_of_digits
       [creation_event "X" "100" (fl 10); creation_event "X" "50" (fl 5)]).
Proof.
  apply (creators_are_independent float_of_digits scenario
           [creation_event "X" "100" (fl 10); creation_event "X" "50" (fl 5)]
           "X"%string).
  reflexivity.
Defined.

Lemma creators_in_order_of_first_event_witness :
  od_lookup "Y"%string (analyze_top_creators float_of_digits scenario) <> None.
Proof.
  apply (proj2 (creators_in_order_of_first_event float_of_digits scenario) "Y"%string).
  exists (creation_event "Y" "200" (fl 20)).
  split; [right; right; left; reflexivity|reflexivity].
Defined.

Lemma creator_record_lists_its_events_witness :
  exists st,
    od_lookup "X"%string (analyze_top_creators float_of_digits scenario) = Some st /\
    positions (acc st) = events_of "X" scenario /\
    total_positions (acc st) = Z.of_nat (length (positions (acc st))) /\
    (0 < total_positions (acc st))%Z /\
    unique_pairs (acc st) = list_to_set (omap pair_of (events_of "X" scenario)) /\
    NoDup (unique_pairs_list st) /\
    unique_pairs_count st = Z.of_nat (length (unique_pairs_list st)) /\
    (unique_pairs_count st <= total_positions (acc st))%Z.
Proof.
  eexists. split; [vm_compute; reflexivity|].
  apply (creator_record_lists_its_events float_of_digits scenario "X"%string).
  vm_compute. reflexivity.
Defined.

Lemma time_range_spans_the_events_witness :
  exists st,
    od_lookup "X"%string
      (analyze_top_creators float_of_digits
         [timed_event "X" "2024-05-02"; timed_event "Y" "2024-04-30";
          timed_event "X" "2024-05-01"]) = Some st /\
    time_range_of
      (timestamps (events_of "X"
         [timed_event "X" "2024-05-02"; timed_event "Y" "2024-04-30";
          timed_event "X" "2024-05-01"]))
      (first_position_time (acc st)) (last_position_time (acc st)) /\
    forall t1 t2, first_position_time (acc st) = Some t1 ->
                  last_position_time (acc st) = Some t2 -> String.ltb t2 t1 = false.
Proof.
  eexists. split; [vm_compute; reflexivity|].
  apply (time_range_spans_the_events float_of_digits
           [timed_event "X" "2024-05-02"; timed_event "Y" "2024-04-30";
            timed_event "X" "2024-05-01"] "X"%string).
  vm_compute. reflexivity.
Defined.

Lemma ties_keep_dictionary_order_witness :
  tied m_positions 1 (by_positions (rank_creators stable_float_sort scenario_stats 5))
    = tied m_positions 1 scenario_stats /\
  tied m_liquidity 1 (by_liquidity (rank_creators stable_float_sort scenario_stats 5))
    = tied m_liquidity 1 scenario_stats /\
  tied m_unique_pairs 1 (by_unique_pairs (rank_creators stable_float_sort scenario_stats 5))
    = tied m_unique_pairs 1 scenario_stats.
Proof.
  apply (proj2 (proj2 (proj2 (ties_keep_dictionary_order stable_float_sort
                                scenario_stats 5 1)))).
  vm_compute. discriminate.
Defined.

Lemma rank_creators_nonpositive_top_witness :
  drops_lowest float_ge m_usd_value
    (by_usd_value (rank_creators stable_float_sort scenario_stats
                     (Z.of_nat (length scenario_stats))))
    (-1)
    (by_usd_value (rank_creators stable_float_sort scenario_stats (-1))).
Proof.
  destruct (proj2 (rank_creators_nonpositive_top stable_float_sort scenario_stats) (-1)%Z)
    as (_ & _ & _ & _ & _ & H); [lia|].
  apply H. vm_compute. repeat constructor.
Defined.

Lemma burn_patterns_count_every_event_witness :
  exists a,
    analyze_burn_patterns string sample_fromisoformat sample_strftime sample_burns
      = Done a /\
    total_burns a = Z.of_nat (length sample_burns) /\
    sum_counts (events_by_hour a) = total_burns a /\
    sum_counts (events_by_day a) = total_burns a /\
    NoDup (events_by_hour a).*1 /\ NoDup (events_by_day a).*1 /\
    (forall k c, In (k, c) (events_by_hour a) \/ In (k, c) (events_by_day a) -> (1 <= c)%Z) /\
    (0 <= unique_burners a <= total_burns a)%Z /\
    match sample_burns with
    | [] => unique_burners a = 0%Z /\ avg_burns_per_burner a = PyInt 0 /\
            peak_hour a = (None, 0%Z) /\ peak_day a = (None, 0%Z)
    | _ :: _ => (1 <= unique_burners a)%Z /\
            (exists f, avg_burns_per_burner a = PyFloat f /\
                       int_truediv (total_burns a) (unique_burners a) = Ret f) /\
            is_peak (events_by_hour a) (peak_hour a) /\
            is_peak (events_by_day a) (peak_day a)
    end.
Proof.
  eexists. split; [vm_compute; reflexivity|].
  apply (burn_patterns_count_every_event string sample_fromisoformat sample_strftime
           sample_burns).
  vm_compute. reflexivity.
Defined.

Lemma burn_patterns_need_every_time_stamp_witness :
  (exists ev, In ev (process_burn_events
                       [sent_call (Some "0xS"%string) (Some "2024-05-01T10:15:00Z"%string);
                        sent_call (Some "0xT"%string) None])
              /\ burn_block ev = Block (sent_call (Some "0xT"%string) None)) /\
  forall a, analyze_burn_patterns string sample_fromisoformat sample_strftime
              (process_burn_events
                 [sent_call (Some "0xS"%string) (Some "2024-05-01T10:15:00Z"%string);
                  sent_call (Some "0xT"%string) None]) <> Done a.
Proof.
  apply (proj2 (proj2 (burn_patterns_need_every_time_stamp string sample_fromisoformat
                         sample_strftime))
           [sent_call (Some "0xS"%string) (Some "2024-05-01T10:15:00Z"%string);
            sent_call (Some "0xT"%string) None]
           (sent_call (Some "0xT"%string) None));
    [right; left; reflexivity|reflexivity|reflexivity].
Defined.
